(** * toysqleval: a shallow embedding of the lexer, parser and evaluator

    The Go packages [token], [ast], [lexer], [parser] and [eval] are
    embedded one module each.  Go's [panic] is a value of [Result]; a
    deferred [recover] is a function on outcomes.  Mutable tables are
    threaded explicitly. *)

From Stdlib Require Import ZArith List String Ascii Bool Lia Floats DecimalString.
From stdpp Require Import base option list strings gmap.

Open Scope string_scope.
Open Scope Z_scope.

Set Warnings "-register-all".

(** ** Go's machine integers *)

Definition MaxInt64 : Z := 9223372036854775807.
Definition MinInt64 : Z := -9223372036854775808.

(** Two's-complement wrap-around of [int64] (and of [int] on 64-bit targets). *)
Definition wrap64 (z : Z) : Z := (z + 2 ^ 63) mod 2 ^ 64 - 2 ^ 63.

(** [float64(n)] for an [int64] n: the nearest binary64 value. *)
Definition float64_of_int (n : Z) : float :=
  SF2Prim (binary_normalize prec emax n 0 false).

(** [int64(f)] for a [float64] f: truncation toward zero.  The language
    leaves the result open when the value does not fit; amd64 gives the
    most negative integer, which is what is written here. *)
Definition int64_of_float (f : float) : Z :=
  match Prim2SF f with
  | S754_zero _ => 0
  | S754_finite s m e =>
      let mag := if (0 <=? e) then Z.shiftl (Z.pos m) e
                 else Z.shiftr (Z.pos m) (- e) in
      let v := if s then - mag else mag in
      if (MinInt64 <=? v) && (v <=? MaxInt64) then v else MinInt64
  | _ => MinInt64
  end.

(** A rune is a Unicode code point ([int32]). *)
Definition rune := Z.

(** ** The parts of Go's standard library the program calls

    [unicode], [strconv.ParseFloat], [fmt]'s rendering of a float and
    package [time] are not part of the repository; the development is
    parametric in them. *)

(** [time.Time], as the instant it denotes and the zone it is shown in. *)
Record Time := { instant : Z; zone : Z }.

Class GoLib := {
  IsDigit : rune -> bool;               (* unicode.IsDigit *)
  IsLetter : rune -> bool;              (* unicode.IsLetter *)
  IsSpace : rune -> bool;               (* unicode.IsSpace *)
  ToLower : rune -> rune;               (* unicode.ToLower *)
  ParseFloat : string -> option float;  (* strconv.ParseFloat(s, 64) *)
  FormatFloat : float -> string;        (* fmt.Sprintf("%v", f) *)
  TimeParse : string -> string -> option Time; (* time.Parse(layout, s) *)
  TimeFormat : string -> Time -> string (* t.Format(layout) *)
}.

(** [a.Equal(b)], [a.Before(b)], [a.After(b)] compare instants. *)
Definition Time_Equal (a b : Time) : bool := instant a =? instant b.
Definition Time_Before (a b : Time) : bool := instant a <? instant b.
Definition Time_After (a b : Time) : bool := instant b <? instant a.

(** ** Package token *)

Module Token.

Inductive Kind :=
| Invalid | And | Boolean | Comma | Concat | Create | Delete | Div | Dot
| Equal | False | From | GreaterThan | GreaterThanOrEqualTo | Ident | Insert
| Integer | Into | LeftParen | LessThan | LessThanOrEqualTo | Minus | Mul
| Not | NotEqual | Null | Number | NumberLiteral | Or | Plus | RightParen
| Select | Semicolon | Set_ | StringLiteral | Table | Timestamp | True
| Update | Values | Varchar | Where.

#[global] Instance Kind_eq_dec : EqDecision Kind.
Proof. solve_decision. Defined.

Definition Precedence (k : Kind) : Z :=
  match k with
  | Or => 1
  | And => 2
  | Equal | NotEqual | LessThan | LessThanOrEqualTo
  | GreaterThan | GreaterThanOrEqualTo => 3
  | Plus | Minus | Concat => 4
  | Mul | Div => 5
  | _ => 0
  end.

Record Pos := { Line : Z; Column : Z }.

Record Token := { Kind_ : Kind; Pos_ : Pos; Lit : string }.

End Token.

(** ** Package eval: data types and values *)

Module DataType.
Inductive t := Invalid | Boolean | Integer | Number | String | Timestamp.
End DataType.

(** The interface [Value] with its five implementations; [Nil] is the nil
    interface, SQL's null. *)
Inductive Value :=
| Nil
| BooleanValue (b : bool)
| IntegerValue (n : Z)
| NumberValue (f : float)
| StringValue (s : string)
| TimestampValue (t : Time).

(** ** Errors and panics *)

(** The values of Go's [error] interface that the program produces, and
    the arguments it hands to [fmt].  A formatted message is kept as its
    format string and arguments. *)
Inductive fmtArg :=
| AStr (s : string)
| AInt (n : Z)
| ARune (r : rune)
| AKind (k : Token.Kind)
| AKinds (ks : list Token.Kind)
| AValue (v : Value)
| AType (t : DataType.t)
| APos (p : Token.Pos)
| AErr (e : error)
| ASprintf (msg : string) (args : list fmtArg)
with error :=
| LexerError (msg : string) (args : list fmtArg) (pos : Token.Pos)
| ParserError (msg : string) (args : list fmtArg) (pos : Token.Pos)
| EvalError (msg : string) (args : list fmtArg) (pos : Token.Pos)
| Errorf (msg : string) (args : list fmtArg)     (* fmt.Errorf *)
| NumError (fn : string) (num : string)          (* *strconv.NumError *)
| RuntimeError (msg : string).                   (* runtime.Error *)

(** What [panic] was called with: an [error], or a plain string. *)
Inductive panicValue :=
| PanicError (e : error)
| PanicString (msg : string) (args : list fmtArg).

Definition nilDereference : panicValue :=
  PanicError (RuntimeError "invalid memory address or nil pointer dereference").
Definition indexOutOfRange : panicValue :=
  PanicError (RuntimeError "index out of range").

(** The outcome of a call that may panic. *)
Inductive Result (A : Type) :=
| Ok (a : A)
| Panic (p : panicValue).
Arguments Ok {A} a.
Arguments Panic {A} p.

#[global] Instance Result_ret : MRet Result := @Ok.
#[global] Instance Result_bind : MBind Result := fun A B f m =>
  match m with
  | Ok a => f a
  | Panic p => Panic p
  end.

(** ** Package ast *)

Module Ast.

Record Ident := { NamePos : Token.Pos; Name : string }.

(** The expression nodes.  [AggFuncNode] is the one implementation of
    [ast.Expr] that lives outside the package: an accumulator of package
    eval that took the place of a function call.  The pointer is written
    as the accumulator's index in the rewriter's list; [Pos()] of such a
    node is that of its argument, which never changes, and is kept with
    the node. *)
Inductive Expr :=
| IdentExpr (id : Ident)
| BinaryExpr (Lhs : Expr) (Op : Token.Kind) (Rhs : Expr)
| UnaryExpr (StartPos : Token.Pos) (Op : Token.Kind) (E : Expr)
| SelectStarExpr (StartPos : Token.Pos)
| IntegerLiteral (ValuePos : Token.Pos) (Value : Z)
| NumberLiteral (ValuePos : Token.Pos) (Value : float)
| StringLiteral (ValuePos : Token.Pos) (Value : string)
| BooleanLiteral (ValuePos : Token.Pos) (Value : bool)
| Null (ValuePos : Token.Pos)
| FunctionCall (Name : Ident) (Args : list Expr)
| AggFuncNode (ix : nat) (pos : Token.Pos).

Record ColumnDefinition := {
  ColName : Ident;
  ColType : Token.Kind;
  ColNullable : bool
}.

(** The statement nodes, and with them every value of [ast.Node]: an
    expression is a node too, and the interface may be nil. *)
Inductive Node :=
| CreateTableStmt (StartPos : Token.Pos) (Table : Ident)
    (Columns : list ColumnDefinition)
| SelectStmt (StartPos : Token.Pos) (Columns : list Expr) (Table : Expr)
    (Where : option Expr)
| InsertStmt (StartPos : Token.Pos) (Table : Ident) (Columns : list Ident)
    (Values : list Expr)
| UpdateStmt (StartPos : Token.Pos) (Table : Ident) (Columns : list Ident)
    (Values : list Expr) (Where : option Expr)
| DeleteStmt (StartPos : Token.Pos) (Table : Ident) (Where : option Expr)
| ColumnDefinitionNode (c : ColumnDefinition)
| ExprNode (e : Expr)
| NilNode.

Fixpoint ExprPos (e : Expr) : Token.Pos :=
  match e with
  | IdentExpr id => NamePos id
  | BinaryExpr l _ _ => ExprPos l
  | UnaryExpr p _ _ => p
  | SelectStarExpr p => p
  | IntegerLiteral p _ => p
  | NumberLiteral p _ => p
  | StringLiteral p _ => p
  | BooleanLiteral p _ => p
  | Null p => p
  | FunctionCall n _ => NamePos n
  | AggFuncNode _ p => p
  end.

(** [node.Pos()]; calling it through a nil interface panics. *)
Definition Pos (n : Node) : Result Token.Pos :=
  match n with
  | CreateTableStmt p _ _ => Ok p
  | SelectStmt p _ _ _ => Ok p
  | InsertStmt p _ _ _ => Ok p
  | UpdateStmt p _ _ _ _ => Ok p
  | DeleteStmt p _ _ => Ok p
  | ColumnDefinitionNode c => Ok (NamePos (ColName c))
  | ExprNode e => Ok (ExprPos e)
  | NilNode => Panic nilDereference
  end.

End Ast.

(** ** strconv.ParseInt(s, 10, 64) and fmt's %d *)

Definition isAsciiDigit (c : ascii) : bool :=
  let n := Z.of_N (N_of_ascii c) in (48 <=? n) && (n <=? 57).

(** The value of a string of decimal digits; [None] on any other byte. *)
Fixpoint parseDigits (s : string) (acc : Z) : option Z :=
  match s with
  | EmptyString => Some acc
  | String c s' =>
      if isAsciiDigit c
      then parseDigits s' (10 * acc + (Z.of_N (N_of_ascii c) - 48))
      else None
  end.

(** The two results of [strconv.ParseInt(s, 10, 64)]: the integer, and
    whether the error is nil.  The input is an optional sign, then one or
    more decimal digits.  On a syntax error the integer is zero; when the
    value does not fit [int64] it is the nearest bound. *)
Definition ParseIntResults (s : string) : Z * bool :=
  match s with
  | EmptyString => (0, false)
  | String c rest =>
      let neg := Ascii.eqb c "-" in
      let body := if Ascii.eqb c "+" || neg then rest else s in
      match body with
      | EmptyString => (0, false)
      | _ =>
          match parseDigits body 0 with
          | None => (0, false)
          | Some un =>
              if neg then (if un <=? 2 ^ 63 then (- un, true) else (MinInt64, false))
              else (if un <? 2 ^ 63 then (un, true) else (MaxInt64, false))
          end
      end
  end.

(** [n, err := strconv.ParseInt(s, 10, 64)] with [err == nil]. *)
Definition ParseInt (s : string) : option Z :=
  let '(n, ok) := ParseIntResults s in if ok then Some n else None.

(** [strings.ToUpper] on a string of ASCII bytes. *)
Definition asciiUpper (c : ascii) : ascii :=
  let n := N_of_ascii c in
  if ((97 <=? n) && (n <=? 122))%N then ascii_of_N (n - 32) else c.

Fixpoint strings_ToUpper (s : string) : string :=
  match s with
  | EmptyString => EmptyString
  | String c s' => String (asciiUpper c) (strings_ToUpper s')
  end.

(** [fmt.Sprintf("%d", n)]. *)
Definition FormatInt (n : Z) : string :=
  DecimalString.NilZero.string_of_int (Z.to_int n).

(** ** string(runes): UTF-8 *)

Definition byteOf (z : Z) : ascii := ascii_of_N (Z.to_N z).

(** U+FFFD, which replaces a rune that is no Unicode scalar value. *)
Definition utf8Error : string :=
  String (byteOf 239) (String (byteOf 191) (String (byteOf 189) EmptyString)).

Definition utf8Rune (r : rune) : string :=
  let cont (z : Z) := byteOf (Z.lor 128 (Z.land z 63)) in
  if r <? 0 then utf8Error
  else if r <? 128 then String (byteOf r) EmptyString
  else if r <? 2048 then
    String (byteOf (Z.lor 192 (Z.shiftr r 6))) (String (cont r) EmptyString)
  else if (55296 <=? r) && (r <=? 57343) then utf8Error
  else if r <? 65536 then
    String (byteOf (Z.lor 224 (Z.shiftr r 12)))
      (String (cont (Z.shiftr r 6)) (String (cont r) EmptyString))
  else if r <=? 1114111 then
    String (byteOf (Z.lor 240 (Z.shiftr r 18)))
      (String (cont (Z.shiftr r 12))
         (String (cont (Z.shiftr r 6)) (String (cont r) EmptyString)))
  else utf8Error.

Fixpoint string_of_runes (rs : list rune) : string :=
  match rs with
  | [] => EmptyString
  | r :: rs' => (utf8Rune r ++ string_of_runes rs')%string
  end.

(** ** Package lexer *)

Module Lexer.

Definition singleQuote : rune := 39.

Definition sqlKeywords : gmap string Token.Kind :=
  list_to_map
    [ ("and", Token.And); ("boolean", Token.Boolean); ("create", Token.Create);
      ("delete", Token.Delete); ("false", Token.False); ("from", Token.From);
      ("insert", Token.Insert); ("integer", Token.Integer); ("into", Token.Into);
      ("not", Token.Not); ("null", Token.Null); ("number", Token.Number);
      ("or", Token.Or); ("select", Token.Select); ("set", Token.Set_);
      ("table", Token.Table); ("timestamp", Token.Timestamp); ("true", Token.True);
      ("update", Token.Update); ("values", Token.Values); ("varchar", Token.Varchar);
      ("where", Token.Where) ].

(** Lexer represents a SQL lexical analyzer. *)
Record Lexer := {
  input : list rune;        (* text to parse into tokens *)
  pos : nat;                (* current offset in input *)
  line : Z;                 (* current line number; one-based counting *)
  linePos : Z;              (* offset in input of current line start *)
  tok : Token.Token;        (* one lookahead token *)
  err : option error        (* if not nil, lexer is the error state *)
}.

Definition zeroPos : Token.Pos := {| Token.Line := 0; Token.Column := 0 |}.
Definition zeroToken : Token.Token :=
  {| Token.Kind_ := Token.Invalid; Token.Pos_ := zeroPos; Token.Lit := EmptyString |}.

(** New creates a new lexer for the given input, here already a sequence
    of runes. *)
Definition New (input : list rune) : Lexer :=
  {| input := input; pos := 0; line := 1; linePos := 0; tok := zeroToken; err := None |}.

(** Reports the current location in the input. *)
Definition getPos (lex : Lexer) : Token.Pos :=
  {| Token.Line := line lex; Token.Column := Z.of_nat (pos lex) - linePos lex |}.

Definition withPos (lex : Lexer) (p : nat) : Lexer :=
  {| input := input lex; pos := p; line := line lex; linePos := linePos lex;
     tok := tok lex; err := err lex |}.

Definition withTok (lex : Lexer) (t : Token.Token) : Lexer :=
  {| input := input lex; pos := pos lex; line := line lex; linePos := linePos lex;
     tok := t; err := err lex |}.

Definition withErr (lex : Lexer) (e : error) : Lexer :=
  {| input := input lex; pos := pos lex; line := line lex; linePos := linePos lex;
     tok := tok lex; err := Some e |}.

(** Sets the current token and records its position. *)
Definition setToken (lex : Lexer) (kind : Token.Kind) : Lexer :=
  withTok lex {| Token.Kind_ := kind; Token.Pos_ := getPos lex;
                 Token.Lit := Token.Lit (tok lex) |}.

Definition setLit (lex : Lexer) (lit : string) : Lexer :=
  withTok lex {| Token.Kind_ := Token.Kind_ (tok lex); Token.Pos_ := Token.Pos_ (tok lex);
                 Token.Lit := lit |}.

(** Generates an error at the current line and column. *)
Definition errorf (lex : Lexer) (format : string) (args : list fmtArg) : error :=
  LexerError format args (getPos lex).

(** A utility type to help keep track of newlines. *)
Record lineTracker := { tline : Z; tlinePos : Z }.

Definition newLineTracker (lex : Lexer) : lineTracker :=
  {| tline := line lex; tlinePos := linePos lex |}.

(** Terminates the current line, which must end at lineEndPos. *)
Definition next (t : lineTracker) (lineEndPos : nat) : lineTracker :=
  {| tline := tline t + 1; tlinePos := Z.of_nat lineEndPos + 1 |}.

(** Updates the lexer to the current line and column. *)
Definition sync (t : lineTracker) (lex : Lexer) : Lexer :=
  {| input := input lex; pos := pos lex; line := tline t; linePos := tlinePos t;
     tok := tok lex; err := err lex |}.

(** Returns the rune in the input after the current one. If there isn't
    enough input, returns zero. *)
Definition nextRune (lex : Lexer) : rune :=
  match drop (S (pos lex)) (input lex) with
  | r :: _ => r
  | [] => 0
  end.

(** Advances one rune and sets the current token. *)
Definition consumeRune (lex : Lexer) (kind : Token.Kind) : bool * Lexer :=
  let lex := setToken lex kind in
  (true, withPos lex (S (pos lex))).

(** Whether [s] is what the list starts with. *)
Fixpoint hasPrefix (s rest : list rune) : bool :=
  match s, rest with
  | [], _ => true
  | c :: s', r :: rest' => (r =? c) && hasPrefix s' rest'
  | _ :: _, [] => false
  end.

(** Tries to match the specified string exactly. On success, advances the
    lexer position past the string and sets the current token to the
    given kind. *)
Definition matchString (lex : Lexer) (s : list rune) (kind : Token.Kind)
  : bool * Lexer :=
  if hasPrefix s (drop (pos lex) (input lex)) then
    let lex := setToken lex kind in
    (true, withPos lex (pos lex + length s))
  else (false, lex).

Section WithGoLib.
Context `{GoLib}.

(** The loop of [skipSpace].  [rest] is [lex.input[pos:]]; the result is
    whether a rune that is no space was found, the new [lex.pos] and the
    line tracker. *)
Fixpoint skipSpaceLoop (rest : list rune) (pos : nat) (t : lineTracker)
  : bool * nat * lineTracker :=
  match rest with
  | [] => (false, pos, t)
  | r :: rest' =>
      if negb (IsSpace r) then (true, pos, t)
      else if r =? 10 then skipSpaceLoop rest' (S pos) (next t pos)
      else if r =? 13 then
        match rest' with
        | r1 :: rest'' =>
            if r1 =? 10
            then skipSpaceLoop rest'' (S (S pos)) (next t (S pos))
            else skipSpaceLoop rest' (S pos) (next t pos)
        | [] => skipSpaceLoop rest' (S pos) (next t pos)
        end
      else skipSpaceLoop rest' (S pos) t
  end.

(** Advances past any whitespace starting at the current position,
    keeping track of the current line number. Returns true if any input
    remains. *)
Definition skipSpace (lex : Lexer) : bool * Lexer :=
  let '(found, pos', t) :=
    skipSpaceLoop (drop (pos lex) (input lex)) (pos lex) (newLineTracker lex) in
  if found then (true, sync t (withPos lex pos'))
  else (false, withPos lex pos').

Definition isNumberRune (r : rune) : bool :=
  ((48 <=? r) && (r <=? 57)) || (r =? 46) || (r =? 101).

(** How many runes the scanning loop of [consumeNumber] passes. *)
Fixpoint numberLength (rest : list rune) : nat :=
  match rest with
  | r :: rest' => if isNumberRune r then S (numberLength rest') else O
  | [] => O
  end.

(** Parses and advances past a number at the current position. On
    failure, moves the lexer into the error state and returns false. *)
Definition consumeNumber (lex : Lexer) : Result (bool * Lexer) :=
  let rest := drop (pos lex) (input lex) in
  let n := numberLength rest in
  if (n =? 0)%nat then Panic (PanicString "expected a number" [])
  else
    let lit := string_of_runes (take n rest) in
    match ParseFloat lit with
    | None =>
        Ok (false, withErr lex (errorf lex "invalid numeric literal: %s"
                                  [AErr (NumError "ParseFloat" lit)]))
    | Some _ =>
        let lex := setToken lex Token.NumberLiteral in
        let lex := setLit lex lit in
        Ok (true, withPos lex (pos lex + n))
    end.

(** The loop of [consumeQuotedString].  [rest] is [lex.input[i:]] and
    [runes] what was collected so far. *)
Fixpoint quotedStringLoop (lex : Lexer) (rest : list rune) (i : nat)
    (runes : list rune) (t : lineTracker) : bool * Lexer :=
  match rest with
  | [] => (false, withErr lex (errorf lex "unterminated string" []))
  | c :: rest' =>
      let finish :=
        let lex := setToken lex Token.StringLiteral in
        let lex := setLit lex (string_of_runes runes) in
        let lex := sync t lex in
        (true, withPos lex (S i)) in
      if c =? singleQuote then
        (* A literal single quote may appear within a string as a doubled
           single quote. Otherwise, this marks the end of the string. *)
        match rest' with
        | c1 :: rest'' =>
            if c1 =? singleQuote
            then quotedStringLoop lex rest'' (S (S i)) (runes ++ [singleQuote]) t
            else finish
        | [] => finish
        end
      else if c =? 10 then
        (* Newlines are legal in SQL string literals. *)
        quotedStringLoop lex rest' (S i) (runes ++ [c]) (next t i)
      else if c =? 13 then
        (* The test reads [lex.input[i]], which is the carriage return
           itself, against the line feed. *)
        match rest' with
        | c1 :: rest'' =>
            if c =? 10
            then quotedStringLoop lex rest'' (S (S i)) (runes ++ [c; c1]) (next t (S i))
            else quotedStringLoop lex rest' (S i) (runes ++ [c]) (next t i)
        | [] => quotedStringLoop lex rest' (S i) (runes ++ [c]) (next t i)
        end
      else quotedStringLoop lex rest' (S i) (runes ++ [c]) t
  end.

(** Parses and advances past a single-quoted string at the current
    position. On failure, moves the lexer into the error state and
    returns false. *)
Definition consumeQuotedString (lex : Lexer) : Result (bool * Lexer) :=
  match drop (pos lex) (input lex) with
  | [] => Panic indexOutOfRange
  | c :: rest =>
      if negb (c =? singleQuote)
      then Panic (PanicString "called on non single-quote char" [])
      else Ok (quotedStringLoop lex rest (S (pos lex)) [] (newLineTracker lex))
  end.

(** Reports whether r is a rune that may appear in a SQL identifier. *)
Definition isIdentRune (r : rune) : bool :=
  IsLetter r || IsDigit r || (r =? 95).

(** How many runes from [rest] on may appear in an identifier. *)
Fixpoint identLength (rest : list rune) : nat :=
  match rest with
  | r :: rest' => if isIdentRune r then S (identLength rest') else O
  | [] => O
  end.

(** Returns the word at the current position, as its runes, or no rune if
    none exists. *)
Definition nextWord (lex : Lexer) : Result (list rune) :=
  match drop (pos lex) (input lex) with
  | [] => Panic (PanicString "input exhausted" [])
  | first :: rest =>
      if negb (IsLetter first) && negb (first =? 95) then Ok []
      else Ok (first :: take (identLength rest) rest)
  end.

(** [strings.ToLower(string(runes))]: every rune mapped, then encoded. *)
Definition strings_ToLower (runes : list rune) : string :=
  string_of_runes (map ToLower runes).

(** What [Scan] does when the switch on the first rune did not return:
    a number, a word, or an error. *)
Definition scanDefault (lex : Lexer) (r : rune) : Result (bool * Lexer) :=
  if IsDigit r then consumeNumber lex
  else
    runes ← nextWord lex;
    let word := strings_ToLower runes in
    if negb (String.eqb word EmptyString) then
      match sqlKeywords !! word with
      | Some kind =>
          (* Try to match one of the SQL keywords. *)
          let lex := setToken lex kind in
          Ok (true, withPos lex (pos lex + String.length word))
      | None =>
          (* Otherwise, it's an arbitrary identifier. *)
          let lex := setToken lex Token.Ident in
          let lex := setLit lex word in
          Ok (true, withPos lex (pos lex + String.length word))
      end
    else
      Ok (false, withErr lex (errorf lex "unexpected character: %c" [ARune r])).

(** Scan advances the lexer to the next token. Returns false if there are
    no more tokens or if an error occurs. *)
Definition Scan (lex : Lexer) : Result (bool * Lexer) :=
  match err lex with
  | Some _ => Ok (false, lex)
  | None =>
      let lex := withTok lex {| Token.Kind_ := Token.Invalid; Token.Pos_ := getPos lex;
                                Token.Lit := EmptyString |} in
      let '(more, lex) := skipSpace lex in
      if negb more then Ok (false, lex)
      else
        match drop (pos lex) (input lex) with
        | [] => Panic indexOutOfRange
        | r :: _ =>
            if r =? 44 then Ok (consumeRune lex Token.Comma)
            else if r =? 124 then
              let '(ok, lex') := matchString lex [124; 124] Token.Concat in
              if ok then Ok (true, lex') else scanDefault lex r
            else if r =? 47 then Ok (consumeRune lex Token.Div)
            else if r =? 46 then
              if IsDigit (nextRune lex) then consumeNumber lex
              else Ok (consumeRune lex Token.Dot)
            else if r =? 61 then Ok (consumeRune lex Token.Equal)
            else if r =? 62 then
              let '(ok, lex') := matchString lex [62; 61] Token.GreaterThanOrEqualTo in
              if ok then Ok (true, lex') else Ok (consumeRune lex Token.GreaterThan)
            else if r =? 40 then Ok (consumeRune lex Token.LeftParen)
            else if r =? 60 then
              let '(ok, lex') := matchString lex [60; 61] Token.LessThanOrEqualTo in
              if ok then Ok (true, lex') else Ok (consumeRune lex Token.LessThan)
            else if r =? 45 then Ok (consumeRune lex Token.Minus)
            else if r =? 42 then Ok (consumeRune lex Token.Mul)
            else if r =? 33 then
              let '(ok, lex') := matchString lex [33; 61] Token.NotEqual in
              if ok then Ok (true, lex') else scanDefault lex r
            else if r =? 43 then Ok (consumeRune lex Token.Plus)
            else if r =? 41 then Ok (consumeRune lex Token.RightParen)
            else if r =? 59 then Ok (consumeRune lex Token.Semicolon)
            else if r =? singleQuote then consumeQuotedString lex
            else scanDefault lex r
        end
  end.

(** Token returns the current token. *)
Definition Token_ (lex : Lexer) : Token.Token := tok lex.

(** EOF reports whether the input is exhausted. *)
Definition EOF (lex : Lexer) : bool := (length (input lex) <=? pos lex)%nat.

(** Err reports the lexing error, if any. *)
Definition Err (lex : Lexer) : option error := err lex.

End WithGoLib.

End Lexer.

(** ** Package parser *)

Module Parser.

(** What a method of [parser] does: from the lexer it is called with, it
    returns a value and the lexer as it left it, or it panics.  The
    recursive methods carry a fuel, and [None] says that the fuel of the
    model ran out. *)
Definition Action (A : Type) : Type :=
  Lexer.Lexer -> option (Result (A * Lexer.Lexer)).

Definition ret {A} (a : A) : Action A := fun lex => Some (Ok (a, lex)).

Definition bind {A B} (m : Action A) (k : A -> Action B) : Action B :=
  fun lex =>
    match m lex with
    | None => None
    | Some (Panic p) => Some (Panic p)
    | Some (Ok (a, lex')) => k a lex'
    end.

Definition outOfFuel {A} : Action A := fun _ => None.

#[global] Instance Action_ret : MRet Action := @ret.
#[global] Instance Action_bind : MBind Action := fun A B k m => bind m k.

Section WithGoLib.
Context `{GoLib}.

(** Shorthands for accessing the current lexical token. *)
Definition tok : Action Token.Token := fun lex => Some (Ok (Lexer.Token_ lex, lex)).
Definition kind : Action Token.Kind :=
  fun lex => Some (Ok (Token.Kind_ (Lexer.Token_ lex), lex)).

(** Panics with an error at the current position. *)
Definition errorf {A} (format : string) (args : list fmtArg) : Action A :=
  fun lex =>
    Some (Panic (PanicError (ParserError format args (Token.Pos_ (Lexer.Token_ lex))))).

(** Moves to the next token in the stream. *)
Definition next : Action Token.Token :=
  fun lex =>
    let tok := Lexer.Token_ lex in
    match Lexer.Scan lex with
    | Panic p => Some (Panic p)
    | Ok (_, lex') =>
        match Lexer.Err lex' with
        | Some err => Some (Panic (PanicError err))
        | None => Some (Ok (tok, lex'))
        end
    end.

(** Raises a parse error indicating that one of the specified kinds of
    tokens was expected, but the current token does not match. *)
Definition expected {A} (kinds : list Token.Kind) : Action A :=
  k ← kind;
  errorf "current token is %q, want one of %+v" [AKind k; AKinds kinds].

(** Advances past the specified token. *)
Definition skip (k : Token.Kind) : Action unit :=
  k' ← kind;
  if decide (k' = k) then _ ← next; ret tt
  else errorf "tried to skip(%s) but token is %s" [AKind k; AKind k'].

(** Tries to advances past a token of the specified kind. *)
Definition match_ (k : Token.Kind) : Action Token.Token :=
  k' ← kind;
  if decide (k' = k) then next else expected [k].

(** Parses an identifier expression. *)
Definition parseIdent : Action Ast.Ident :=
  t ← match_ Token.Ident;
  ret {| Ast.NamePos := Token.Pos_ t; Ast.Name := Token.Lit t |}.

(** Whether [unicode.IsDigit] holds of every rune of the literal, which
    the lexer made of ASCII bytes. *)
Fixpoint allDigits (lit : string) : bool :=
  match lit with
  | EmptyString => true
  | String c rest => IsDigit (Z.of_N (N_of_ascii c)) && allDigits rest
  end.

(** Parses a number from a string, as either an int64 or a float64. *)
Definition parseNumberLiteral : Action Ast.Expr :=
  t ← match_ Token.NumberLiteral;
  if allDigits (Token.Lit t)
  then ret (Ast.IntegerLiteral (Token.Pos_ t) (fst (ParseIntResults (Token.Lit t))))
  else ret (Ast.NumberLiteral (Token.Pos_ t)
              (default 0%float (ParseFloat (Token.Lit t)))).

(** The expression parsers call one another; every call and every turn of
    a loop takes one unit of fuel. *)
Fixpoint parseBinaryExpr (fuel : nat) (minPrec : Z) {struct fuel} : Action Ast.Expr :=
  match fuel with
  | O => outOfFuel
  | S fuel' =>
      expr ← parseUnaryExpr fuel';
      binaryExprLoop fuel' minPrec expr
  end

with binaryExprLoop (fuel : nat) (minPrec : Z) (expr : Ast.Expr) {struct fuel}
  : Action Ast.Expr :=
  match fuel with
  | O => outOfFuel
  | S fuel' =>
      op ← kind;
      let opPrec := Token.Precedence op in
      if opPrec <? minPrec then ret expr
      else
        _ ← skip op;
        rhs ← parseBinaryExpr fuel' (opPrec + 1);
        binaryExprLoop fuel' minPrec (Ast.BinaryExpr expr op rhs)
  end

with parseUnaryExpr (fuel : nat) {struct fuel} : Action Ast.Expr :=
  match fuel with
  | O => outOfFuel
  | S fuel' =>
      k ← kind;
      match k with
      | Token.LeftParen =>
          _ ← skip Token.LeftParen;
          e ← parseBinaryExpr fuel' 1;
          _ ← match_ Token.RightParen;
          ret e
      | Token.Ident =>
          t ← next;
          k' ← kind;
          match k' with
          | Token.LeftParen =>
              _ ← skip Token.LeftParen;
              let funcName := {| Ast.NamePos := Token.Pos_ t; Ast.Name := Token.Lit t |} in
              funcArgs ← parseSelectExprList fuel';
              _ ← match_ Token.RightParen;
              ret (Ast.FunctionCall funcName funcArgs)
          | _ =>
              ret (Ast.IdentExpr {| Ast.NamePos := Token.Pos_ t; Ast.Name := Token.Lit t |})
          end
      | Token.Plus | Token.Minus =>
          t ← next;
          e ← parseBinaryExpr fuel' 1;
          ret (Ast.UnaryExpr (Token.Pos_ t) (Token.Kind_ t) e)
      | Token.NumberLiteral => parseNumberLiteral
      | Token.StringLiteral =>
          t ← next; ret (Ast.StringLiteral (Token.Pos_ t) (Token.Lit t))
      | Token.True => t ← next; ret (Ast.BooleanLiteral (Token.Pos_ t) true)
      | Token.False => t ← next; ret (Ast.BooleanLiteral (Token.Pos_ t) false)
      | Token.Null => t ← next; ret (Ast.Null (Token.Pos_ t))
      | _ =>
          expected [Token.LeftParen; Token.Ident; Token.Null; Token.NumberLiteral;
                    Token.StringLiteral]
      end
  end

with parseSelectExprList (fuel : nat) {struct fuel} : Action (list Ast.Expr) :=
  match fuel with
  | O => outOfFuel
  | S fuel' =>
      e ← parseExprOrStar fuel';
      selectExprListLoop fuel' [e]
  end

with selectExprListLoop (fuel : nat) (exprs : list Ast.Expr) {struct fuel}
  : Action (list Ast.Expr) :=
  match fuel with
  | O => outOfFuel
  | S fuel' =>
      k ← kind;
      match k with
      | Token.Comma =>
          _ ← skip Token.Comma;
          e ← parseExprOrStar fuel';
          selectExprListLoop fuel' (exprs ++ [e])%list
      | _ => ret exprs
      end
  end

with parseExprOrStar (fuel : nat) {struct fuel} : Action Ast.Expr :=
  match fuel with
  | O => outOfFuel
  | S fuel' =>
      k ← kind;
      match k with
      | Token.Mul =>
          _ ← skip Token.Mul;
          ret (Ast.SelectStarExpr Lexer.zeroPos)
      | _ => parseBinaryExpr fuel' 1
      end
  end.

(** Parses a single expression. *)
Definition parseExpr (fuel : nat) : Action Ast.Expr := parseBinaryExpr fuel 1.

(** The loop of [parseExprList]. *)
Fixpoint exprListLoop (fuel : nat) (exprs : list Ast.Expr) : Action (list Ast.Expr) :=
  match fuel with
  | O => outOfFuel
  | S fuel' =>
      k ← kind;
      match k with
      | Token.Comma =>
          _ ← skip Token.Comma;
          e ← parseExpr fuel';
          exprListLoop fuel' (exprs ++ [e])%list
      | _ => ret exprs
      end
  end.

(** Parses a comma-separated list of expressions. *)
Definition parseExprList (fuel : nat) : Action (list Ast.Expr) :=
  e ← parseExpr fuel;
  exprListLoop fuel [e].

(** The optional WHERE clause that ends a statement. *)
Definition parseWhere (fuel : nat) : Action (option Ast.Expr) :=
  k ← kind;
  match k with
  | Token.Where =>
      _ ← skip Token.Where;
      e ← parseExpr fuel;
      ret (Some e)
  | _ => ret None
  end.

(** The loop of [parseColumnDefinitions]: one column definition a turn. *)
Fixpoint columnDefinitionsLoop (fuel : nat) (columns : list Ast.ColumnDefinition)
  : Action (list Ast.ColumnDefinition) :=
  match fuel with
  | O => outOfFuel
  | S fuel' =>
      name ← parseIdent;
      k ← kind;
      dataType ←
        match k with
        | Token.Boolean | Token.Integer | Token.Number | Token.Varchar
        | Token.Timestamp => t ← next; ret (Token.Kind_ t)
        | _ => expected [Token.Boolean; Token.Integer; Token.Number; Token.Varchar;
                         Token.Timestamp]
        end;
      k1 ← kind;
      nullable ←
        match k1 with
        | Token.Not => _ ← skip Token.Not; _ ← match_ Token.Null; ret false
        | Token.Null => _ ← skip Token.Null; ret true
        | _ => ret true
        end;
      let columns :=
        (columns ++ [ {| Ast.ColName := name; Ast.ColType := dataType;
                         Ast.ColNullable := nullable |} ])%list in
      k2 ← kind;
      match k2 with
      | Token.Comma => _ ← skip Token.Comma; columnDefinitionsLoop fuel' columns
      | _ => ret columns
      end
  end.

(** Parses a column definition in a create table statement. *)
Definition parseColumnDefinitions (fuel : nat) : Action (list Ast.ColumnDefinition) :=
  _ ← match_ Token.LeftParen;
  columns ← columnDefinitionsLoop fuel [];
  _ ← match_ Token.RightParen;
  ret columns.

(** Parses a create table statement. *)
Definition parseCreateTableStmt (fuel : nat) : Action Ast.Node :=
  start ← match_ Token.Create;
  _ ← match_ Token.Table;
  table ← parseIdent;
  columns ← parseColumnDefinitions fuel;
  ret (Ast.CreateTableStmt (Token.Pos_ start) table columns).

(** Parses a select statement. *)
Definition parseSelectStmt (fuel : nat) : Action Ast.Node :=
  start ← match_ Token.Select;
  columns ← parseSelectExprList fuel;
  _ ← match_ Token.From;
  table ← parseIdent;
  where_ ← parseWhere fuel;
  ret (Ast.SelectStmt (Token.Pos_ start) columns (Ast.IdentExpr table) where_).

(** The loop over the names of the column list of an insert statement. *)
Fixpoint identListLoop (fuel : nat) (columns : list Ast.Ident) : Action (list Ast.Ident) :=
  match fuel with
  | O => outOfFuel
  | S fuel' =>
      k ← kind;
      match k with
      | Token.Comma =>
          _ ← skip Token.Comma;
          column ← parseIdent;
          identListLoop fuel' (columns ++ [column])%list
      | _ => ret columns
      end
  end.

(** Parses an insert statement. *)
Definition parseInsertStmt (fuel : nat) : Action Ast.Node :=
  start ← match_ Token.Insert;
  _ ← match_ Token.Into;
  table ← parseIdent;
  k ← kind;
  columns ←
    match k with
    | Token.LeftParen =>
        _ ← skip Token.LeftParen;
        column ← parseIdent;
        columns ← identListLoop fuel [column];
        _ ← match_ Token.RightParen;
        ret columns
    | _ => ret []
    end;
  _ ← match_ Token.Values;
  _ ← match_ Token.LeftParen;
  values ← parseExprList fuel;
  _ ← match_ Token.RightParen;
  ret (Ast.InsertStmt (Token.Pos_ start) table columns values).

(** The loop over the assignments of an update statement after the first. *)
Fixpoint assignmentsLoop (fuel : nat) (columns : list Ast.Ident)
    (values : list Ast.Expr) : Action (list Ast.Ident * list Ast.Expr) :=
  match fuel with
  | O => outOfFuel
  | S fuel' =>
      k ← kind;
      match k with
      | Token.Comma =>
          _ ← skip Token.Comma;
          column ← parseIdent;
          _ ← match_ Token.Equal;
          value ← parseExpr fuel';
          assignmentsLoop fuel' (columns ++ [column])%list (values ++ [value])%list
      | _ => ret (columns, values)
      end
  end.

(** Parses an update statement. *)
Definition parseUpdateStmt (fuel : nat) : Action Ast.Node :=
  start ← match_ Token.Update;
  table ← parseIdent;
  _ ← match_ Token.Set_;
  (* the homework example has parentheses around the SET clause *)
  k ← kind;
  closeParen ←
    match k with
    | Token.LeftParen => _ ← skip Token.LeftParen; ret true
    | _ => ret false
    end;
  column ← parseIdent;
  _ ← match_ Token.Equal;
  value ← parseExpr fuel;
  '(columns, values) ← assignmentsLoop fuel [column] [value];
  _ ← (if closeParen : bool then _ ← match_ Token.RightParen; ret tt else ret tt);
  where_ ← parseWhere fuel;
  ret (Ast.UpdateStmt (Token.Pos_ start) table columns values where_).

(** Parses a delete statement. *)
Definition parseDeleteStmt (fuel : nat) : Action Ast.Node :=
  start ← match_ Token.Delete;
  _ ← match_ Token.From;
  table ← parseIdent;
  where_ ← parseWhere fuel;
  ret (Ast.DeleteStmt (Token.Pos_ start) table where_).

Definition parseStmt (fuel : nat) : Action Ast.Node :=
  k ← kind;
  match k with
  | Token.Create => parseCreateTableStmt fuel
  | Token.Select => parseSelectStmt fuel
  | Token.Insert => parseInsertStmt fuel
  | Token.Update => parseUpdateStmt fuel
  | Token.Delete => parseDeleteStmt fuel
  | _ => expected [Token.Select; Token.Insert; Token.Update; Token.Delete]
  end.

(** The loop of [parseStmtList]. *)
Fixpoint stmtListLoop (fuel : nat) (stmts : list Ast.Node) : Action (list Ast.Node) :=
  match fuel with
  | O => outOfFuel
  | S fuel' =>
      k ← kind;
      match k with
      | Token.Invalid => ret stmts
      | _ =>
          stmt ← parseStmt fuel';
          _ ← match_ Token.Semicolon;
          stmtListLoop fuel' (stmts ++ [stmt])%list
      end
  end.

(** Parses a semicolon-delimited list of statements. *)
Definition parseStmtList (fuel : nat) : Action (list Ast.Node) :=
  stmtListLoop fuel [].

(** The body of [Parse]: the results [(nodes, err)] it returns, or the
    panic that reaches the deferred function. *)
Definition parseBody (fuel : nat) (lex : Lexer.Lexer)
  : option (Result (list Ast.Node * option error)) :=
  match Lexer.Scan lex with
  | Panic p => Some (Panic p)
  | Ok (false, _) => Some (Ok ([], None))      (* no input *)
  | Ok (true, lex1) =>
      match Lexer.Err lex1 with
      | Some err => Some (Ok ([], Some err))   (* lexer error *)
      | None =>
          match parseStmtList fuel lex1 with
          | None => None
          | Some (Panic p) => Some (Panic p)
          | Some (Ok (stmts, _)) => Some (Ok (stmts, None))
          end
      end
  end.

(** [Parse].  The deferred function returns a panic that is an error as
    the error of [Parse], and panics again with any other value. *)
Definition Parse (fuel : nat) (lex : Lexer.Lexer)
  : option (Result (list Ast.Node * option error)) :=
  match parseBody fuel lex with
  | None => None
  | Some (Ok results) => Some (Ok results)
  | Some (Panic (PanicError e2)) => Some (Ok ([], Some e2))
  | Some (Panic r) => Some (Panic r)
  end.

End WithGoLib.

End Parser.

(** The operator of a binary or unary expression node ([expr.Op]). *)
Definition ExprOp (e : Ast.Expr) : Token.Kind :=
  match e with
  | Ast.BinaryExpr _ op _ => op
  | Ast.UnaryExpr _ op _ => op
  | _ => Token.Invalid
  end.

(** A loop that calls [f] on each element in turn and stops at the first
    panic. *)
Fixpoint forEach {A B} (f : A -> Result B) (l : list A) : Result (list B) :=
  match l with
  | [] => Ok []
  | a :: l' => b ← f a; bs ← forEach f l'; Ok (b :: bs)
  end.

(** ** Package eval *)

Module Evaluator.

(** Row is an array of values. *)
Abbreviation Row := (list Value).

Section WithGoLib.
Context `{GoLib}.

(** [errorf(node, format, args...)] for an expression node. *)
Definition errorf (node : Ast.Expr) (format : string) (args : list fmtArg) : error :=
  EvalError format args (Ast.ExprPos node).

(** Supported timestamp formats. *)
Definition timeLayouts : list string :=
  [ "2006-01-02 15:04:05 MST";
    "2006-01-02T15:04:05Z07:00";
    "2006-01-02T15:04:05.999999999Z07:00";
    "Mon, 02 Jan 2006 15:04:05 MST";
    "Mon, 02 Jan 2006 15:04:05 -0700";
    "Mon Jan _2 15:04:05 MST 2006";
    "Mon Jan 02 15:04:05 -0700 2006" ].

(** *** The type cast operators.  They panic on failure, and they are not
    null-safe: a call through the nil interface is a run-time panic. *)

Definition toBoolean (v : Value) : Result bool :=
  match v with
  | Nil => Panic nilDereference
  | BooleanValue b => Ok b
  | IntegerValue _ => Panic (PanicString "cannot convert Integer to Boolean" [])
  | NumberValue _ => Panic (PanicString "cannot convert Number to Boolean" [])
  | StringValue _ => Panic (PanicString "cannot convert String to Boolean" [])
  | TimestampValue _ => Panic (PanicString "cannot convert Timestamp to Boolean" [])
  end.

Definition toInteger (v : Value) : Result Z :=
  match v with
  | Nil => Panic nilDereference
  | BooleanValue _ => Panic (PanicString "cannot convert Boolean to Integer" [])
  | IntegerValue n => Ok n
  | NumberValue f => Ok (int64_of_float f)
  | StringValue s =>
      match ParseInt s with
      | Some n => Ok n
      | None => Panic (PanicError (NumError "ParseInt" s))
      end
  | TimestampValue _ => Panic (PanicString "cannot convert Timestamp to Integer" [])
  end.

Definition toNumber (v : Value) : Result float :=
  match v with
  | Nil => Panic nilDereference
  | BooleanValue _ => Panic (PanicString "cannot convert Boolean to Number" [])
  | IntegerValue n => Ok (float64_of_int n)
  | NumberValue f => Ok f
  | StringValue s =>
      match ParseFloat s with
      | Some f => Ok f
      | None => Panic (PanicError (NumError "ParseFloat" s))
      end
  | TimestampValue _ => Panic (PanicString "cannot convert Timestamp to Number" [])
  end.

Definition toString (v : Value) : Result string :=
  match v with
  | Nil => Panic nilDereference
  | BooleanValue _ => Panic (PanicString "cannot convert Boolean to String" [])
  | IntegerValue n => Ok (FormatInt n)
  | NumberValue f => Ok (FormatFloat f)
  | StringValue s => Ok s
  | TimestampValue t => Ok (TimeFormat "2006-01-02T15:04:05Z07:00" t)
  end.

(** The first layout that parses the string, in the order of [timeLayouts]. *)
Fixpoint parseTimestamp (layouts : list string) (s : string) : option Time :=
  match layouts with
  | [] => None
  | layout :: rest =>
      match TimeParse layout s with
      | Some t => Some t
      | None => parseTimestamp rest s
      end
  end.

Definition toTimestamp (v : Value) : Result Time :=
  match v with
  | Nil => Panic nilDereference
  | BooleanValue _ => Panic (PanicString "cannot convert Boolean to Timestamp" [])
  | IntegerValue _ => Panic (PanicString "cannot convert Integer to Timestamp" [])
  | NumberValue _ => Panic (PanicString "cannot convert Number to Timestamp" [])
  | StringValue s =>
      match parseTimestamp timeLayouts s with
      | Some t => Ok t
      | None => Panic (PanicString "invalid timestamp: %s" [AValue v])
      end
  | TimestampValue t => Ok t
  end.

Definition coerce (v : Value) (t : DataType.t) : Result Value :=
  match t with
  | DataType.Boolean => b ← toBoolean v; Ok (BooleanValue b)
  | DataType.Integer => n ← toInteger v; Ok (IntegerValue n)
  | DataType.Number => f ← toNumber v; Ok (NumberValue f)
  | DataType.String => s ← toString v; Ok (StringValue s)
  | DataType.Timestamp => t ← toTimestamp v; Ok (TimestampValue t)
  | DataType.Invalid =>
      Panic (PanicError (Errorf "invalid data type: %s" [AType t]))
  end.

(** [BooleanValue.toInt]. *)
Definition toInt (b : bool) : Z := if b then 1 else 0.

(** *** Comparison *)

Definition invalidComparisonOperator {A} (expr : Ast.Expr) : Result A :=
  Panic (PanicError (errorf expr "invalid comparison operator: %s" [AKind (ExprOp expr)])).

Definition cmpInts (expr : Ast.Expr) (a b : Z) : Result bool :=
  match ExprOp expr with
  | Token.Equal => Ok (a =? b)
  | Token.NotEqual => Ok (negb (a =? b))
  | Token.LessThan => Ok (a <? b)
  | Token.LessThanOrEqualTo => Ok (a <=? b)
  | Token.GreaterThan => Ok (a >? b)
  | Token.GreaterThanOrEqualTo => Ok (a >=? b)
  | _ => invalidComparisonOperator expr
  end.

Definition cmpFloats (expr : Ast.Expr) (a b : float) : Result bool :=
  match ExprOp expr with
  | Token.Equal => Ok (PrimFloat.eqb a b)
  | Token.NotEqual => Ok (negb (PrimFloat.eqb a b))
  | Token.LessThan => Ok (PrimFloat.ltb a b)
  | Token.LessThanOrEqualTo => Ok (PrimFloat.leb a b)
  | Token.GreaterThan => Ok (PrimFloat.ltb b a)
  | Token.GreaterThanOrEqualTo => Ok (PrimFloat.leb b a)
  | _ => invalidComparisonOperator expr
  end.

(** Go orders strings byte by byte. *)
Definition cmpStrings (expr : Ast.Expr) (a b : string) : Result bool :=
  match ExprOp expr with
  | Token.Equal => Ok (String.eqb a b)
  | Token.NotEqual => Ok (negb (String.eqb a b))
  | Token.LessThan => Ok (String.ltb a b)
  | Token.LessThanOrEqualTo => Ok (String.leb a b)
  | Token.GreaterThan => Ok (String.ltb b a)
  | Token.GreaterThanOrEqualTo => Ok (String.leb b a)
  | _ => invalidComparisonOperator expr
  end.

Definition cmpTimes (expr : Ast.Expr) (a b : Time) : Result bool :=
  match ExprOp expr with
  | Token.Equal => Ok (Time_Equal a b)
  | Token.NotEqual => Ok (negb (Time_Equal a b))
  | Token.LessThan => Ok (Time_Before a b)
  | Token.LessThanOrEqualTo => Ok (Time_Before a b || Time_Equal a b)
  | Token.GreaterThan => Ok (Time_After a b)
  | Token.GreaterThanOrEqualTo => Ok (Time_After a b || Time_Equal a b)
  | _ => invalidComparisonOperator expr
  end.

Definition invalidComparison (expr : Ast.Expr) (lhs rhs : Value) : Result bool :=
  Panic (PanicError (errorf expr "invalid comparison: %s %s %s"
                       [AValue lhs; AKind (ExprOp expr); AValue rhs])).

(** Double dispatch by type.  In the String rows the coerced operand is
    the one the source coerces: [rhs] against Integer and Number, [lhs]
    against Timestamp. *)
Definition comparisonOp (expr : Ast.Expr) (lhs rhs : Value) : Result bool :=
  match lhs, rhs with
  | Nil, _ | _, Nil => Ok false
  | BooleanValue l, BooleanValue r => cmpInts expr (toInt l) (toInt r)
  | IntegerValue l, IntegerValue r => cmpInts expr l r
  | IntegerValue l, NumberValue r => cmpFloats expr (float64_of_int l) r
  | IntegerValue l, StringValue _ => val ← toInteger rhs; cmpInts expr l val
  | NumberValue l, IntegerValue r => cmpFloats expr l (float64_of_int r)
  | NumberValue l, NumberValue r => cmpFloats expr l r
  | NumberValue l, StringValue _ => val ← toNumber rhs; cmpFloats expr l val
  | StringValue _, IntegerValue r => val ← toInteger rhs; cmpInts expr val r
  | StringValue _, NumberValue r => val ← toNumber rhs; cmpFloats expr val r
  | StringValue l, StringValue r => cmpStrings expr l r
  | StringValue _, TimestampValue r => val ← toTimestamp lhs; cmpTimes expr val r
  | TimestampValue l, StringValue _ => val ← toTimestamp rhs; cmpTimes expr l val
  | TimestampValue l, TimestampValue r => cmpTimes expr l r
  | _, _ => invalidComparison expr lhs rhs
  end.

(** *** Arithmetic *)

(** Does integer arithmetic.  [int64] wraps around; [/] truncates toward
    zero. *)
Definition arithOpInt (expr : Ast.Expr) (x y : Z) : Result Value :=
  match ExprOp expr with
  | Token.Plus => Ok (IntegerValue (wrap64 (x + y)))
  | Token.Minus => Ok (IntegerValue (wrap64 (x - y)))
  | Token.Mul => Ok (IntegerValue (wrap64 (x * y)))
  | Token.Div =>
      if y =? 0 then Panic (PanicError (errorf expr "divide by zero" []))
      else Ok (IntegerValue (wrap64 (Z.quot x y)))
  | _ => Ok (IntegerValue 0)
  end.

(** Does floating-point arithmetic. *)
Definition arithOpNum (expr : Ast.Expr) (x y : float) : Result Value :=
  match ExprOp expr with
  | Token.Plus => Ok (NumberValue (x + y)%float)
  | Token.Minus => Ok (NumberValue (x - y)%float)
  | Token.Mul => Ok (NumberValue (x * y)%float)
  | Token.Div =>
      if PrimFloat.eqb y 0%float
      then Panic (PanicError (errorf expr "divide by zero" []))
      else Ok (NumberValue (x / y)%float)
  | _ => Ok (NumberValue 0%float)
  end.

Definition invalidArithmetic (expr : Ast.Expr) (lhs rhs : Value) : Result Value :=
  Panic (PanicError (errorf expr "invalid arithmetic expression: %s %s %s"
                       [AValue lhs; AKind (ExprOp expr); AValue rhs])).

Definition arithmeticOp (expr : Ast.Expr) (lhs rhs : Value) : Result Value :=
  match lhs, rhs with
  | Nil, _ | _, Nil => Ok Nil
  | IntegerValue l, IntegerValue r => arithOpInt expr l r
  | IntegerValue l, NumberValue r => arithOpNum expr (float64_of_int l) r
  | IntegerValue l, StringValue _ => r ← toInteger rhs; arithOpInt expr l r
  | NumberValue l, IntegerValue r => arithOpNum expr l (float64_of_int r)
  | NumberValue l, NumberValue r => arithOpNum expr l r
  | NumberValue l, StringValue _ => r ← toNumber rhs; arithOpNum expr l r
  | StringValue _, IntegerValue r => l ← toInteger lhs; arithOpInt expr l r
  | StringValue _, NumberValue r => l ← toNumber lhs; arithOpNum expr l r
  | _, _ => invalidArithmetic expr lhs rhs
  end.

Definition unaryArithOp (expr : Ast.Expr) (value : Value) : Result Value :=
  let invalidValue :=
    Panic (PanicError (errorf expr "invalid value for unary %s: %s"
                         [AKind (ExprOp expr); AValue value])) in
  match value with
  | Nil => Ok Nil
  | _ =>
      match ExprOp expr with
      | Token.Plus =>
          match value with
          | IntegerValue _ | NumberValue _ => Ok value
          | _ => invalidValue
          end
      | Token.Minus =>
          match value with
          | IntegerValue n => Ok (IntegerValue (wrap64 (- n)))
          | NumberValue f => Ok (NumberValue (- f)%float)
          | _ => invalidValue
          end
      | _ => Panic (PanicError (errorf expr "invalid unary operator: %s"
                                  [AKind (ExprOp expr)]))
      end
  end.

(** Computes lhs || rhs. *)
Definition concatOp (expr : Ast.Expr) (lhs rhs : Value) : Result Value :=
  match lhs, rhs with
  | Nil, _ | _, Nil => Ok Nil
  | _, _ => l ← toString lhs; r ← toString rhs; Ok (StringValue (l ++ r))
  end.

(** Computes (lhs && rhs) or (lhs || rhs), depending on op. *)
Definition logicalBooleanOp (expr : Ast.Expr) (lhs rhs : Value) : Result bool :=
  x ← toBoolean lhs;
  y ← toBoolean rhs;
  match ExprOp expr with
  | Token.And => Ok (x && y)
  | Token.Or => Ok (x || y)
  | _ => Panic (PanicError (errorf expr "invalid logical boolean op: %s"
                              [AKind (ExprOp expr)]))
  end.

(** *** Tables *)

(** Column contains column metadata. *)
Record Column := {
  Name : string;
  Type_ : DataType.t;
  Default : Value;
  Nullable : bool;
  AutoInc : bool;
  NextVal : Z
}.

(** Table contains table metadata plus its rows. *)
Record Table := {
  TName : string;
  Columns : list Column;
  Data : list Row
}.

(** The index of the named column, or -1 if the column does not exist. *)
Fixpoint colIndexFrom (cols : list Column) (name : string) (i : Z) : Z :=
  match cols with
  | [] => -1
  | c :: rest => if String.eqb (Name c) name then i else colIndexFrom rest name (i + 1)
  end.

Definition colIndex (t : Table) (name : string) : Z :=
  colIndexFrom (Columns t) name 0.

(** *** Namespaces *)

(** The two implementations of the interface [namespace].  A [currentRow]
    holds pointers; whoever builds one passes the table and the row as
    they are at that moment. *)
Inductive namespace :=
| emptyNamespace
| currentRow (table : Table) (row : Row).

Definition lookup (ns : namespace) (name : string) : Result Value :=
  match ns with
  | emptyNamespace =>
      Panic (PanicError (Errorf "column %q does not exist" [AStr name]))
  | currentRow table row =>
      let i := colIndex table name in
      if 0 <=? i then
        match row !! Z.to_nat i with
        | Some v => Ok v
        | None => Panic indexOutOfRange
        end
      else Panic (PanicError (Errorf "column %q does not exist" [AStr name]))
  end.

(** *** Aggregate functions *)

(** The three implementations of the interface [aggFunc], with their
    mutable fields. *)
Inductive aggFunc :=
| countAggFunc (expr : Ast.Expr) (isStar : bool) (count : Z)
| minMaxAggFunc (expr : Ast.Expr) (fval : float) (ival : Z) (isFloat isMin : bool)
| sumAggFunc (expr : Ast.Expr) (fsum : float) (isum : Z) (isFloat : bool).

Definition aggExpr (fn : aggFunc) : Ast.Expr :=
  match fn with
  | countAggFunc e _ _ => e
  | minMaxAggFunc e _ _ _ _ => e
  | sumAggFunc e _ _ _ => e
  end.

Definition finalize (fn : aggFunc) : Value :=
  match fn with
  | countAggFunc _ _ count => IntegerValue count
  | minMaxAggFunc _ fval ival isFloat _ =>
      if isFloat then NumberValue fval else IntegerValue ival
  | sumAggFunc _ fsum isum isFloat =>
      if isFloat then NumberValue fsum else IntegerValue isum
  end.

(** *** Expressions *)

(** Evaluates an expression.  [funcs] holds the accumulators the
    [AggFuncNode]s of the expression point to. *)
Fixpoint evalExpr (funcs : list aggFunc) (ns : namespace) (expr : Ast.Expr)
  : Result Value :=
  match expr with
  | Ast.IdentExpr id => lookup ns (Ast.Name id)
  | Ast.IntegerLiteral _ v => Ok (IntegerValue v)
  | Ast.NumberLiteral _ v => Ok (NumberValue v)
  | Ast.StringLiteral _ v => Ok (StringValue v)
  | Ast.BooleanLiteral _ v => Ok (BooleanValue v)
  | Ast.Null _ => Ok Nil
  | Ast.BinaryExpr l op r =>
      (* evalBinaryExpr *)
      lhs ← evalExpr funcs ns l;
      rhs ← evalExpr funcs ns r;
      match op with
      | Token.And | Token.Or =>
          b ← logicalBooleanOp expr lhs rhs; Ok (BooleanValue b)
      | Token.Equal | Token.GreaterThan | Token.GreaterThanOrEqualTo
      | Token.LessThan | Token.LessThanOrEqualTo | Token.NotEqual =>
          b ← comparisonOp expr lhs rhs; Ok (BooleanValue b)
      | Token.Plus | Token.Minus | Token.Mul | Token.Div =>
          arithmeticOp expr lhs rhs
      | Token.Concat => concatOp expr lhs rhs
      | _ => Panic (PanicError (errorf expr "invalid binary operator: %s" [AKind op]))
      end
  | Ast.UnaryExpr _ op e =>
      (* evalUnaryExpr *)
      value ← evalExpr funcs ns e;
      match op with
      | Token.Plus | Token.Minus => unaryArithOp expr value
      | _ => Panic (PanicError (errorf expr "invalid unary operator: %s" [AKind op]))
      end
  | Ast.FunctionCall _ _ =>
      Panic (PanicError (errorf expr "non-aggregate functions are not implemented" []))
  | Ast.AggFuncNode ix _ =>
      match funcs !! ix with
      | Some fn => Ok (finalize fn)
      | None => Panic nilDereference
      end
  | Ast.SelectStarExpr _ =>
      Panic (PanicError (errorf expr "cannot evaluate expression of type %T" []))
  end.

(** [setInt] and [setFloat] of [minMaxAggFunc]: the new [ival], [fval]. *)
Definition setInt (isMin : bool) (ival n : Z) : Z :=
  if isMin then (if n <? ival then n else ival)
  else (if n >? ival then n else ival).

Definition setFloat (isMin : bool) (fval n : float) : float :=
  if isMin then (if PrimFloat.ltb fval n then n else fval)
  else (if PrimFloat.ltb n fval then n else fval).

(** [fn.step(ns)]: the accumulator after the row. *)
Definition step (funcs : list aggFunc) (fn : aggFunc) (ns : namespace)
  : Result aggFunc :=
  match fn with
  | countAggFunc e isStar count =>
      if isStar then Ok (countAggFunc e isStar (wrap64 (count + 1)))
      else
        v ← evalExpr funcs ns e;
        match v with
        | Nil => Ok fn
        | _ => Ok (countAggFunc e isStar (wrap64 (count + 1)))
        end
  | minMaxAggFunc e fval ival isFloat isMin =>
      v ← evalExpr funcs ns e;
      match v with
      | IntegerValue n =>
          if isFloat
          then Ok (minMaxAggFunc e (setFloat isMin fval (float64_of_int n)) ival isFloat isMin)
          else Ok (minMaxAggFunc e fval (setInt isMin ival n) isFloat isMin)
      | NumberValue n =>
          let fval' := if isFloat then fval else float64_of_int ival in
          Ok (minMaxAggFunc e (setFloat isMin fval' n) ival true isMin)
      | Nil => Ok fn
      | _ => Panic (PanicError (errorf e "cannot compute MIN of %s" [AValue v]))
      end
  | sumAggFunc e fsum isum isFloat =>
      v ← evalExpr funcs ns e;
      match v with
      | IntegerValue n =>
          if isFloat
          then Ok (sumAggFunc e (fsum + float64_of_int n)%float isum isFloat)
          else Ok (sumAggFunc e fsum (wrap64 (isum + n)) isFloat)
      | NumberValue n =>
          let fsum' := if isFloat then fsum else (fsum + float64_of_int isum)%float in
          Ok (sumAggFunc e (fsum' + n)%float isum true)
      | Nil => Ok fn
      | _ => Panic (PanicError (errorf e "cannot compute SUM of %s" [AValue v]))
      end
  end.

(** Panics if a function was given the wrong number of arguments. *)
Definition validateArgCount (node : Ast.Expr) (fname : string)
    (args : list Ast.Expr) (expected : Z) : Result unit :=
  if Z.of_nat (length args) =? expected then Ok tt
  else Panic (PanicError (errorf node "wrong number of arguments to %s: got %d, want %d"
                [AStr (strings_ToUpper fname); AInt (Z.of_nat (length args)); AInt expected])).

(** [args[0]]. *)
Definition firstArg (args : list Ast.Expr) : Result Ast.Expr :=
  match args with
  | a :: _ => Ok a
  | [] => Panic indexOutOfRange
  end.

Definition newCountAggFunc (node : Ast.Expr) (args : list Ast.Expr) : Result aggFunc :=
  _ ← validateArgCount node "count" args 1;
  a ← firstArg args;
  let isStar := match a with Ast.SelectStarExpr _ => true | _ => false end in
  Ok (countAggFunc a isStar 0).

Definition newMinAggFunc (node : Ast.Expr) (args : list Ast.Expr) : Result aggFunc :=
  _ ← validateArgCount node "min" args 1;
  a ← firstArg args;
  Ok (minMaxAggFunc a 0%float MaxInt64 false true).

Definition newMaxAggFunc (node : Ast.Expr) (args : list Ast.Expr) : Result aggFunc :=
  _ ← validateArgCount node "max" args 1;
  a ← firstArg args;
  Ok (minMaxAggFunc a 0%float MinInt64 false false).

Definition newSumAggFunc (node : Ast.Expr) (args : list Ast.Expr) : Result aggFunc :=
  _ ← validateArgCount node "sum" args 1;
  a ← firstArg args;
  Ok (sumAggFunc a 0%float 0 false).

(** A function that creates new aggregator functions. *)
Definition aggFuncConstructor := Ast.Expr -> list Ast.Expr -> Result aggFunc.

Definition builtinAggFuncs (name : string) : option aggFuncConstructor :=
  if String.eqb name "count" then Some newCountAggFunc
  else if String.eqb name "min" then Some newMinAggFunc
  else if String.eqb name "max" then Some newMaxAggFunc
  else if String.eqb name "sum" then Some newSumAggFunc
  else None.

(** Reports whether a name refers to a builtin aggregate func. *)
Definition isAggFunc (name : string) : bool :=
  match builtinAggFuncs name with Some _ => true | None => false end.

(** Recursively searches an AST for an aggregate function.  [ast.Walk]
    descends into the operands of binary and unary expressions and into
    the name and arguments of a function call. *)
Fixpoint containsAggFunc (node : Ast.Expr) : bool :=
  match node with
  | Ast.FunctionCall name args =>
      isAggFunc (Ast.Name name)
      || (fix any (l : list Ast.Expr) : bool :=
            match l with
            | [] => false
            | a :: l' => containsAggFunc a || any l'
            end) args
  | Ast.BinaryExpr l _ r => containsAggFunc l || containsAggFunc r
  | Ast.UnaryExpr _ _ e => containsAggFunc e
  | _ => false
  end.

(** The first argument that contains an aggregate call, if any. *)
Fixpoint nestedAggArg (args : list Ast.Expr) : option Ast.Expr :=
  match args with
  | [] => None
  | arg :: rest => if containsAggFunc arg then Some arg else nestedAggArg rest
  end.

Definition mustGroupBy {A} (id : Ast.Ident) : Result A :=
  Panic (PanicError (errorf (Ast.IdentExpr id)
    "column %q must appear in the GROUP BY clause or be used in an aggregate function"
    [AStr (Ast.Name id)])).

(** Verifies the following: (1) no argument of an aggregate contains a
    nested call to an aggregate function; (2) no column identifier exists
    outside of an aggregate function.  A call of another function is
    walked name first, and its name is an identifier. *)
Fixpoint validateAggExpr (node : Ast.Expr) : Result unit :=
  match node with
  | Ast.FunctionCall name args =>
      if isAggFunc (Ast.Name name) then
        match nestedAggArg args with
        | Some arg =>
            Panic (PanicError (errorf arg "aggregate function calls cannot be nested" []))
        | None => Ok tt
        end
      else mustGroupBy name
  | Ast.IdentExpr id => mustGroupBy id
  | Ast.BinaryExpr l _ r => _ ← validateAggExpr l; validateAggExpr r
  | Ast.UnaryExpr _ _ e => validateAggExpr e
  | _ => Ok tt
  end.

(** Rewrites an expression, replacing each aggregate function call with
    an aggFunc that will actually compute it; the aggFunc values are also
    accumulated in the rewriter itself ([funcs]). *)
Fixpoint rewrite (funcs : list aggFunc) (expr : Ast.Expr)
  : Result (Ast.Expr * list aggFunc) :=
  match expr with
  | Ast.BinaryExpr l op r =>
      '(l', funcs1) ← rewrite funcs l;
      '(r', funcs2) ← rewrite funcs1 r;
      Ok (Ast.BinaryExpr l' op r', funcs2)
  | Ast.UnaryExpr p op e =>
      '(e', funcs1) ← rewrite funcs e;
      Ok (Ast.UnaryExpr p op e', funcs1)
  | Ast.FunctionCall name args =>
      match builtinAggFuncs (Ast.Name name) with
      | Some constructor =>
          newNode ← constructor expr args;
          Ok (Ast.AggFuncNode (length funcs) (Ast.ExprPos (aggExpr newNode)),
              (funcs ++ [newNode])%list)
      | None =>
          Panic (PanicError (errorf expr "unknown function: %s" [AStr (Ast.Name name)]))
      end
  | _ => Ok (expr, funcs)
  end.

(** *** The environment *)

(** Environment represents an evaluation context for SQL statements. *)
Record Environment := { tables : gmap string Table }.

(** The first column whose name an earlier column already has. *)
Fixpoint duplicateColumn (seen : gset string) (cols : list Column) : option string :=
  match cols with
  | [] => None
  | col :: rest =>
      if decide (Name col ∈ seen) then Some (Name col)
      else duplicateColumn ({[Name col]} ∪ seen) rest
  end.

Definition CreateTable (env : Environment) (table : Table)
  : option error * Environment :=
  match tables env !! TName table with
  | Some _ => (Some (Errorf "relation %q already exists" [AStr (TName table)]), env)
  | None =>
      match duplicateColumn ∅ (Columns table) with
      | Some name => (Some (Errorf "column %q specified more than once" [AStr name]), env)
      | None => (None, {| tables := <[TName table := table]> (tables env) |})
      end
  end.

(** Retrieves a table by name. *)
Definition lookupTable (env : Environment) (name : string) : Result Table :=
  match tables env !! name with
  | Some tab => Ok tab
  | None => Panic (PanicError (Errorf "relation %q does not exist" [AStr name]))
  end.

(** *** Table.insert *)

(** The index of the first name equal to [name] (the inner loop of the
    placement). *)
Fixpoint nameIndex (names : list string) (name : string) (j : nat) : option nat :=
  match names with
  | [] => None
  | n :: rest => if String.eqb name n then Some j else nameIndex rest name (S j)
  end.

(** The first name that is not a column of the table. *)
Fixpoint unknownName (tab : Table) (names : list string) : option string :=
  match names with
  | [] => None
  | name :: rest =>
      if colIndex tab name <? 0 then Some name else unknownName tab rest
  end.

(** The placement loop over the columns, for a non-empty list of names:
    the value put at each column, and the columns as the loop leaves them
    (an auto-increment column has its counter advanced). *)
Fixpoint placeValues (cols : list Column) (names : list string) (values : list Value)
  : Result (list Value) * list Column :=
  match cols with
  | [] => (Ok [], [])
  | col :: rest =>
      match nameIndex names (Name col) 0 with
      | Some j =>
          match values !! j with
          | Some v =>
              let '(r, rest') := placeValues rest names values in
              (vs ← r; Ok (v :: vs), col :: rest')
          | None => (Panic indexOutOfRange, col :: rest)
          end
      | None =>
          (* the column was not specified in the insert statement *)
          let '(v, col') :=
            match Type_ col, AutoInc col with
            | DataType.Integer, true =>
                (IntegerValue (NextVal col),
                 {| Name := Name col; Type_ := Type_ col; Default := Default col;
                    Nullable := Nullable col; AutoInc := AutoInc col;
                    NextVal := wrap64 (NextVal col + 1) |})
            | _, _ => (Default col, col)
            end in
          let '(r, rest') := placeValues rest names values in
          (vs ← r; Ok (v :: vs), col' :: rest')
      end
  end.

(** Enforce not-null constraints and coerce to the target data type: the
    body of the loop, for one value and its column. *)
Definition checkValue (col : Column) (value : Value) : Result Value :=
  match value with
  | Nil =>
      if Nullable col then Ok Nil
      else Panic (PanicError
             (Errorf "null value in column %q violates not-null constraint"
                [AStr (Name col)]))
  | _ => coerce value (Type_ col)
  end.

(** The loop over the row, column by column. *)
Fixpoint checkRow (row : list Value) (cols : list Column) : Result (list Value) :=
  match row with
  | [] => Ok []
  | value :: rest =>
      match cols with
      | [] => Panic indexOutOfRange
      | col :: cols' =>
          v ← checkValue col value;
          vs ← checkRow rest cols';
          Ok (v :: vs)
      end
  end.

(** [copy(row, values)] into a row of [n] nils. *)
Definition copyInto (n : nat) (values : list Value) : list Value :=
  take n values ++ replicate (n - length values) Nil.

Definition withColumns (tab : Table) (cols : list Column) : Table :=
  {| TName := TName tab; Columns := cols; Data := Data tab |}.

(** [tab.insert(names, values)]: how the call ends, and the table it
    leaves behind (the same table when it panics before touching it). *)
Definition insert (tab : Table) (names : list string) (values : list Value)
  : Result unit * Table :=
  let numTargets := if (length names =? 0)%nat then length (Columns tab) else length names in
  if negb (numTargets =? length values)%nat then
    (Panic (PanicError (Errorf "INSERT has %d expressions but %d target columns"
              [AInt (Z.of_nat (length values)); AInt (Z.of_nat numTargets)])), tab)
  else
    let '(placed, cols) :=
      if negb (length names =? 0)%nat then
        match unknownName tab names with
        | Some name =>
            (Panic (PanicError (Errorf "column %q of relation %q does not exist"
                      [AStr name; AStr (TName tab)])), Columns tab)
        | None => placeValues (Columns tab) names values
        end
      else (Ok (copyInto (length (Columns tab)) values), Columns tab) in
    let tab1 := withColumns tab cols in
    match placed with
    | Panic p => (Panic p, tab1)
    | Ok row =>
        match checkRow row cols with
        | Panic p => (Panic p, tab1)
        | Ok row' =>
            (Ok tt, {| TName := TName tab; Columns := cols;
                       Data := Data tab ++ [row'] |})
        end
    end.

(** *** Statements *)

(** The test [stmt.Where != nil && !evalExpr(ns, stmt.Where).toBoolean()]
    the row loops share, as "the row matches". *)
Definition whereMatches (funcs : list aggFunc) (ns : namespace)
    (where_ : option Ast.Expr) : Result bool :=
  match where_ with
  | None => Ok true
  | Some w => v ← evalExpr funcs ns w; toBoolean v
  end.

(** A column that has a name and nothing else ([&Column{Name: name}]). *)
Definition namedColumn (name : string) : Column :=
  {| Name := name; Type_ := DataType.Invalid; Default := Nil;
     Nullable := false; AutoInc := false; NextVal := 0 |}.

(** Converts a token to a corresponding data type. *)
Definition dataTypeFromToken (tok : Token.Kind) : Result DataType.t :=
  match tok with
  | Token.Boolean => Ok DataType.Boolean
  | Token.Integer => Ok DataType.Integer
  | Token.Number => Ok DataType.Number
  | Token.Varchar => Ok DataType.String
  | Token.Timestamp => Ok DataType.Timestamp
  | _ => Panic (PanicString "internal error: %q does not refer to a valid data type"
                  [AKind tok])
  end.

(** Evaluates a create table statement. *)
Definition evalCreateTableStmt (env : Environment) (table : Ast.Ident)
    (columns : list Ast.ColumnDefinition) : Result unit * Environment :=
  match forEach (fun col =>
                t ← dataTypeFromToken (Ast.ColType col);
                Ok {| Name := Ast.Name (Ast.ColName col); Type_ := t; Default := Nil;
                      Nullable := Ast.ColNullable col; AutoInc := false; NextVal := 0 |})
             columns with
  | Panic p => (Panic p, env)
  | Ok cols =>
      match CreateTable env {| TName := Ast.Name table; Columns := cols; Data := [] |} with
      | (Some err, env') => (Panic (PanicError err), env')
      | (None, env') => (Ok tt, env')
      end
  end.

(** Expand "select *". *)
Definition expandStar (table : Table) (columns : list Ast.Expr) : list Ast.Expr :=
  flat_map (fun expr =>
              match expr with
              | Ast.SelectStarExpr p =>
                  map (fun col => Ast.IdentExpr {| Ast.NamePos := p; Ast.Name := Name col |})
                      (Columns table)
              | _ => [expr]
              end) columns.

(** Generate the result set: select first, then project. *)
Fixpoint selectRows (table : Table) (where_ : option Ast.Expr)
    (projection : list Ast.Expr) (rows : list Row) : Result (list Row) :=
  match rows with
  | [] => Ok []
  | row :: rest =>
      let ns := currentRow table row in
      matches ← whereMatches [] ns where_;
      if matches : bool then
        result ← forEach (evalExpr [] ns) projection;
        results ← selectRows table where_ projection rest;
        Ok (result :: results)
      else selectRows table where_ projection rest
  end.

(** Rewrite each projection, accumulating aggFuncs. *)
Fixpoint rewriteProjection (funcs : list aggFunc) (projection : list Ast.Expr)
  : Result (list Ast.Expr * list aggFunc) :=
  match projection with
  | [] => Ok ([], funcs)
  | expr :: rest =>
      _ ← validateAggExpr expr;
      '(expr', funcs1) ← rewrite funcs expr;
      '(rest', funcs2) ← rewriteProjection funcs1 rest;
      Ok (expr' :: rest', funcs2)
  end.

(** Pass every row that satisfies the where clause to every aggregate:
    the accumulators after the rows, and whether a row matched.  An
    argument of an aggregate was never rewritten, so it holds no
    accumulator node. *)
Fixpoint aggregateRows (table : Table) (where_ : option Ast.Expr)
    (funcs : list aggFunc) (matched : bool) (rows : list Row)
  : Result (list aggFunc * bool) :=
  match rows with
  | [] => Ok (funcs, matched)
  | row :: rest =>
      let ns := currentRow table row in
      matches ← whereMatches funcs ns where_;
      if matches : bool then
        funcs' ← forEach (fun fn => step funcs fn ns) funcs;
        aggregateRows table where_ funcs' true rest
      else aggregateRows table where_ funcs matched rest
  end.

(** Evaluates a select statement whose projection includes one or more
    aggregate functions, but does not have a GROUP BY clause. *)
Definition evalAggregateSelectStmt (where_ : option Ast.Expr) (table : Table)
    (projection : list Ast.Expr) : Result Table :=
  '(projection', funcs) ← rewriteProjection [] projection;
  '(funcs', matched) ← aggregateRows table where_ funcs false (Data table);
  (* Build the result row using the output of the aggregate functions. If
     we did not match a single row, however, return an empty result set. *)
  data ← (if matched : bool then
            result ← forEach (evalExpr funcs' emptyNamespace) projection';
            Ok [result]
          else Ok []);
  Ok {| TName := ""; Columns := map (fun _ => namedColumn "?") projection';
        Data := data |}.

(** Evaluates a select statement. *)
Definition evalSelectStmt (env : Environment) (pos : Token.Pos)
    (columns : list Ast.Expr) (tableExpr : Ast.Expr) (where_ : option Ast.Expr)
  : Result Table :=
  match tableExpr with
  | Ast.IdentExpr tableIdent =>
      table ← lookupTable env (Ast.Name tableIdent);
      let projection := expandStar table columns in
      (* Different code path for selects with aggregate functions. *)
      if existsb containsAggFunc projection
      then evalAggregateSelectStmt where_ table projection
      else
        results ← selectRows table where_ projection (Data table);
        (* Create column names for the result set. *)
        let meta := map (fun expr =>
                           match expr with
                           | Ast.IdentExpr ident => namedColumn (Ast.Name ident)
                           | _ => namedColumn "?"
                           end) projection in
        Ok {| TName := ""; Columns := meta; Data := results |}
  | _ => Panic (PanicError (EvalError "table subexpressions not supported" [] pos))
  end.

(** The table a statement changed, put back under its name: the
    environment holds pointers, so the change is seen through it. *)
Definition storeTable (env : Environment) (name : string) (tab : Table) : Environment :=
  {| tables := <[name := tab]> (tables env) |}.

(** Evaluates an insert statement. *)
Definition evalInsertStmt (env : Environment) (tableIdent : Ast.Ident)
    (columns : list Ast.Ident) (values : list Ast.Expr) : Result unit * Environment :=
  match lookupTable env (Ast.Name tableIdent) with
  | Panic p => (Panic p, env)
  | Ok table =>
      let names := map Ast.Name columns in
      match forEach (evalExpr [] emptyNamespace) values with
      | Panic p => (Panic p, env)
      | Ok vals =>
          let '(r, table') := insert table names vals in
          (r, storeTable env (Ast.Name tableIdent) table')
      end
  end.

(** Second step of an update: apply the SET clause to one row.  [row] is
    a slice of the table's own row, and the namespace [ns] built before
    the loop holds that same slice: an assignment [row[n] = ...] is seen
    by every later [evalExpr(ns, ...)].  So each right-hand side is
    evaluated in the row as the assignments before it left it.  Returns
    the row as the loop leaves it, also when it panics half-way. *)
Fixpoint applySet (table : Table) (columns : list Ast.Ident) (values : list Ast.Expr)
    (i : nat) (row : Row) : Result unit * Row :=
  match columns with
  | [] => (Ok tt, row)
  | name :: rest =>
      let n := colIndex table (Ast.Name name) in
      if n <? 0 then
        (Panic (PanicError (errorf (Ast.IdentExpr name)
                  "column %q of relation %q does not exist"
                  [AStr (Ast.Name name); AStr (TName table)])), row)
      else
        match values !! i with
        | None => (Panic indexOutOfRange, row)
        | Some e =>
            match evalExpr [] (currentRow table row) e with
            | Panic p => (Panic p, row)
            | Ok v =>
                if (Z.to_nat n <? length row)%nat
                then applySet table rest values (S i) (<[Z.to_nat n := v]> row)
                else (Panic indexOutOfRange, row)
            end
        end
  end.

(** The row loop of an update: the rows as the loop leaves them. *)
Fixpoint updateRows (table : Table) (where_ : option Ast.Expr)
    (columns : list Ast.Ident) (values : list Ast.Expr) (rows : list Row)
  : Result unit * list Row :=
  match rows with
  | [] => (Ok tt, [])
  | row :: rest =>
      (* First step: select. *)
      match whereMatches [] (currentRow table row) where_ with
      | Panic p => (Panic p, row :: rest)
      | Ok false =>
          let '(r, rest') := updateRows table where_ columns values rest in
          (r, row :: rest')
      | Ok true =>
          match applySet table columns values 0 row with
          | (Panic p, row') => (Panic p, row' :: rest)
          | (Ok _, row') =>
              let '(r, rest') := updateRows table where_ columns values rest in
              (r, row' :: rest')
          end
      end
  end.

Definition withData (tab : Table) (data : list Row) : Table :=
  {| TName := TName tab; Columns := Columns tab; Data := data |}.

(** Evaluates an update statement. *)
Definition evalUpdateStmt (env : Environment) (tableIdent : Ast.Ident)
    (columns : list Ast.Ident) (values : list Ast.Expr) (where_ : option Ast.Expr)
  : Result unit * Environment :=
  match lookupTable env (Ast.Name tableIdent) with
  | Panic p => (Panic p, env)
  | Ok table =>
      let '(r, rows') := updateRows table where_ columns values (Data table) in
      (r, storeTable env (Ast.Name tableIdent) (withData table rows'))
  end.

(** The row loop of a delete: [newData]. *)
Fixpoint keptRows (table : Table) (where_ : option Ast.Expr) (rows : list Row)
  : Result (list Row) :=
  match rows with
  | [] => Ok []
  | row :: rest =>
      let ns := currentRow table row in
      match where_ with
      | Some w =>
          v ← evalExpr [] ns w;
          b ← toBoolean v;
          newData ← keptRows table where_ rest;
          Ok (if negb b then row :: newData else newData)
      | None => keptRows table where_ rest
      end
  end.

(** Evaluates a delete statement. *)
Definition evalDeleteStmt (env : Environment) (tableIdent : Ast.Ident)
    (where_ : option Ast.Expr) : Result unit * Environment :=
  match lookupTable env (Ast.Name tableIdent) with
  | Panic p => (Panic p, env)
  | Ok table =>
      match keptRows table where_ (Data table) with
      | Panic p => (Panic p, env)
      | Ok newData =>
          (Ok tt, storeTable env (Ast.Name tableIdent) (withData table newData))
      end
  end.

(** The body of [EvalStmt]: the named results [(table, err)] it returns,
    or the panic that reaches the deferred function. *)
Definition evalStmtBody (env : Environment) (stmt : Ast.Node)
  : Result (option Table * option error) * Environment :=
  match stmt with
  | Ast.CreateTableStmt _ table columns =>
      let '(r, env') := evalCreateTableStmt env table columns in
      (_ ← r; Ok (None, None), env')
  | Ast.SelectStmt pos columns table where_ =>
      (t ← evalSelectStmt env pos columns table where_; Ok (Some t, None), env)
  | Ast.InsertStmt _ table columns values =>
      let '(r, env') := evalInsertStmt env table columns values in
      (_ ← r; Ok (None, None), env')
  | Ast.UpdateStmt _ table columns values where_ =>
      let '(r, env') := evalUpdateStmt env table columns values where_ in
      (_ ← r; Ok (None, None), env')
  | Ast.DeleteStmt _ table where_ =>
      let '(r, env') := evalDeleteStmt env table where_ in
      (_ ← r; Ok (None, None), env')
  | _ =>
      (pos ← Ast.Pos stmt;
       Ok (None, Some (EvalError "cannot evaluate non-statement %t" [] pos)), env)
  end.

(** EvalStmt evaluates a statement and returns the result.  The deferred
    function turns a panic into the returned error; a panic of its own
    would leave [EvalStmt] as a panic. *)
Definition EvalStmt (env : Environment) (stmt : Ast.Node)
  : Result (option Table * option error) * Environment :=
  let '(r, env') := evalStmtBody env stmt in
  match r with
  | Ok res => (Ok res, env')
  | Panic (PanicError e) => (Ok (None, Some e), env')
  | Panic (PanicString msg args) =>
      (pos ← Ast.Pos stmt;
       Ok (None, Some (EvalError "%s" [ASprintf msg args] pos)), env')
  end.

End WithGoLib.
End Evaluator.

(** ** The command: its loop over the statements *)

Module Evaluate.

(** Execute all the statements in the same environment: the results, and
    the environment at the end. *)
Fixpoint evalAll `{GoLib} (env : Evaluator.Environment) (stmts : list Ast.Node)
  : list (Result (option Evaluator.Table * option error)) * Evaluator.Environment :=
  match stmts with
  | [] => ([], env)
  | stmt :: rest =>
      let '(r, env1) := Evaluator.EvalStmt env stmt in
      let '(rs, env2) := evalAll env1 rest in
      (r :: rs, env2)
  end.

End Evaluate.

(** ** An instance of the library, to run the definitions

    Exact on what the examples below feed it: the White_Space code
    points, the letters and digits of Latin-1 and the Arabic-Indic digits,
    decimal literals with at most fifteen digits, and whole numbers below
    a million.  Elsewhere it answers "no" or the empty string. *)

Module RunLib.

Definition inRange (lo hi r : Z) : bool := (lo <=? r) && (r <=? hi).

Definition isDigit (r : rune) : bool :=
  inRange 48 57 r || inRange 1632 1641 r.

Definition isLetter (r : rune) : bool :=
  inRange 65 90 r || inRange 97 122 r || (r =? 170) || (r =? 181) || (r =? 186)
  || inRange 192 214 r || inRange 216 246 r || inRange 248 255 r.

Definition isSpace (r : rune) : bool :=
  inRange 9 13 r || (r =? 32) || (r =? 133) || (r =? 160) || (r =? 5760)
  || inRange 8192 8202 r || (r =? 8232) || (r =? 8233) || (r =? 8239)
  || (r =? 8287) || (r =? 12288).

Definition toLower (r : rune) : rune :=
  if inRange 65 90 r || inRange 192 214 r || inRange 216 222 r then r + 32 else r.

(** Digits, then optionally a dot and digits: the value is the quotient
    of two integers that binary64 holds exactly, rounded once. *)
Fixpoint splitAtDot (s : string) : string * option string :=
  match s with
  | EmptyString => (EmptyString, None)
  | String c s' =>
      if Ascii.eqb c "." then (EmptyString, Some s')
      else let '(a, b) := splitAtDot s' in (String c a, b)
  end.

Definition parseFloat (s : string) : option float :=
  let '(ip, fp) := splitAtDot s in
  let fp := default EmptyString fp in
  if (String.length ip + String.length fp =? 0)%nat
     || (15 <? String.length ip + String.length fp)%nat then None
  else
    match parseDigits (ip ++ fp) 0 with
    | None => None
    | Some m =>
        Some (SF2Prim (SFdiv prec emax
                (binary_normalize prec emax m 0 false)
                (binary_normalize prec emax (10 ^ Z.of_nat (String.length fp)) 0 false)))
    end.

Definition formatFloat (f : float) : string :=
  let n := int64_of_float f in
  if PrimFloat.eqb (float64_of_int n) f && (Z.abs n <? 1000000)
  then FormatInt n else EmptyString.

#[local] Instance lib : GoLib := {
  IsDigit := isDigit;
  IsLetter := isLetter;
  IsSpace := isSpace;
  ToLower := toLower;
  ParseFloat := parseFloat;
  FormatFloat := formatFloat;
  TimeParse := fun _ _ => None;
  TimeFormat := fun _ _ => EmptyString
}.

End RunLib.


(** ** Sample data for the concrete runs *)

Module Sample.

Definition at_ (l c : Z) : Token.Pos := {| Token.Line := l; Token.Column := c |}.
Definition p0 : Token.Pos := at_ 1 0.
Definition ident (s : string) : Ast.Ident := {| Ast.NamePos := p0; Ast.Name := s |}.
Definition column (n : string) (t : DataType.t) : Evaluator.Column :=
  {| Evaluator.Name := n; Evaluator.Type_ := t; Evaluator.Default := Nil; Evaluator.Nullable := true;
     Evaluator.AutoInc := false; Evaluator.NextVal := 0 |}.

(** CREATE TABLE t (a INTEGER, b INTEGER) holding the rows (1, 2), (3, 4). *)
Definition t : Evaluator.Table :=
  {| Evaluator.TName := "t";
     Evaluator.Columns := [column "a" DataType.Integer; column "b" DataType.Integer];
     Evaluator.Data := [[IntegerValue 1; IntegerValue 2]; [IntegerValue 3; IntegerValue 4]] |}.

Definition env : Evaluator.Environment := {| Evaluator.tables := {["t" := t]} |}.

(** The table [t] of an environment, if it is there. *)
Definition rowsOf (e : Evaluator.Environment) : option (list Evaluator.Row) :=
  Evaluator.Data <$> (Evaluator.tables e !! "t").

(** The rows of the table a statement returned, if it returned one. *)
Definition resultRows (r : Result (option Evaluator.Table * option error))
  : option (list Evaluator.Row) :=
  match r with
  | Ok (Some tab, None) => Some (Evaluator.Data tab)
  | _ => None
  end.

(** The error a statement returned, if it returned one. *)
Definition resultError (r : Result (option Evaluator.Table * option error))
  : option error :=
  match r with
  | Ok (_, Some e) => Some e
  | _ => None
  end.

(** The code points of a string of ASCII bytes. *)
Fixpoint runes (s : string) : list rune :=
  match s with
  | EmptyString => []
  | String c rest => Z.of_N (N_of_ascii c) :: runes rest
  end.

(** The literal of the first token of the input, if [Scan] finds one. *)
Definition firstLit `{GoLib} (input : list rune) : option string :=
  match Lexer.Scan (Lexer.New input) with
  | Ok (true, lex) => Some (Token.Lit (Lexer.tok lex))
  | _ => None
  end.

Definition emptyEnv : Evaluator.Environment := {| Evaluator.tables := ∅ |}.

(** CREATE TABLE m (x NUMBER) and INSERT INTO m VALUES (f). *)
Definition createM : Ast.Node :=
  Ast.CreateTableStmt p0 (ident "m")
    [ {| Ast.ColName := ident "x"; Ast.ColType := Token.Number; Ast.ColNullable := true |} ].
Definition insertM (f : float) : Ast.Node :=
  Ast.InsertStmt p0 (ident "m") [] [Ast.NumberLiteral p0 f].

End Sample.

(** ** Definitions that follow the wording of the claims *)

Module Spec.

Section WithGoLib.
Context `{GoLib}.

(** UPDATE, one row: the assignments are carried out in turn, and each
    right-hand side is evaluated in the row as the assignments before it
    left it.  [None] when a right-hand side cannot be evaluated. *)
Fixpoint assignInTurn (table : Evaluator.Table)
    (assignments : list (Ast.Ident * Ast.Expr)) (row : Evaluator.Row)
  : option Evaluator.Row :=
  match assignments with
  | [] => Some row
  | (column, e) :: rest =>
      match Evaluator.evalExpr [] (Evaluator.currentRow table row) e with
      | Ok v =>
          assignInTurn table rest
            (<[Z.to_nat (Evaluator.colIndex table (Ast.Name column)) := v]> row)
      | Panic _ => None
      end
  end.

(** UPDATE, one row, as the claim words it: every right-hand side is
    evaluated in the row as it was before the update. *)
Fixpoint assignFromOriginal (table : Evaluator.Table) (original : Evaluator.Row)
    (assignments : list (Ast.Ident * Ast.Expr)) (row : Evaluator.Row)
  : option Evaluator.Row :=
  match assignments with
  | [] => Some row
  | (column, e) :: rest =>
      match Evaluator.evalExpr [] (Evaluator.currentRow table original) e with
      | Ok v =>
          assignFromOriginal table original rest
            (<[Z.to_nat (Evaluator.colIndex table (Ast.Name column)) := v]> row)
      | Panic _ => None
      end
  end.








End WithGoLib.

End Spec.

(** ** What the progress of the lexer and the parser is stated with *)

Module Progress.

Section WithGoLib.
Context `{GoLib}.

(** The one panic of the lexer that can be reached. *)
Definition expectedANumber : panicValue := PanicString "expected a number" [].

(** The input holds a rune that [unicode.IsDigit] takes for a digit and
    that the scanning loop of [consumeNumber] does not pass: a decimal
    digit of another script than 0 to 9. *)
Definition strayDigit (input : list rune) : Prop :=
  exists r, In r input /\ IsDigit r = true /\ Lexer.isNumberRune r = false.

(** What a call that consumes a token leaves behind: the position has
    moved on, or the lexer is in the error state, or the call panicked
    with "expected a number" at a stray digit. *)
Definition consumed (lex : Lexer.Lexer) (out : Result (bool * Lexer.Lexer)) : Prop :=
  match out with
  | Panic p => p = expectedANumber /\ strayDigit (Lexer.input lex)
  | Ok (true, lex') =>
      Lexer.input lex' = Lexer.input lex /\ (Lexer.pos lex < Lexer.pos lex')%nat
  | Ok (false, lex') => Lexer.err lex' <> None
  end.

(** The runes still ahead of the lexer. *)
Definition ahead (lex : Lexer.Lexer) : nat :=
  (length (Lexer.input lex) - Lexer.pos lex)%nat.

(** What is left to parse: the token at hand, unless it is the invalid
    token that marks the end, and the runes ahead of the lexer. *)
Definition measure (lex : Lexer.Lexer) : nat :=
  ((if decide (Token.Kind_ (Lexer.tok lex) = Token.Invalid) then 0 else 1)
   + ahead lex)%nat.

(** A panic that is an error, or the lexer's "expected a number" at a
    stray digit of the input. *)
Definition allowedPanic (input : list rune) (p : panicValue) : Prop :=
  match p with
  | PanicError _ => True
  | PanicString _ _ => p = expectedANumber /\ strayDigit input
  end.

(** The action ends (the fuel is enough), on the same input and with no
    more to parse than there was; [eats]: with less. *)
Definition ends {A} (m : Parser.Action A) (lex : Lexer.Lexer) : Prop :=
  exists r, m lex = Some r
    /\ match r with
       | Ok (_, lex') =>
           Lexer.input lex' = Lexer.input lex /\ (measure lex' <= measure lex)%nat
       | Panic p => allowedPanic (Lexer.input lex) p
       end.

Definition eats {A} (m : Parser.Action A) (lex : Lexer.Lexer) : Prop :=
  exists r, m lex = Some r
    /\ match r with
       | Ok (_, lex') =>
           Lexer.input lex' = Lexer.input lex /\ (measure lex' < measure lex)%nat
       | Panic p => allowedPanic (Lexer.input lex) p
       end.

End WithGoLib.

End Progress.

(** ** The token loop of the lexer's tests, and the texts of the kinds *)

Module LexerTest.

Section WithGoLib.
Context `{GoLib}.

(** The loop of [lexAll]: [for lex.Scan() { tokens = append(tokens,
    lex.Token()) }], then [return tokens, lex.Err()].  Every turn takes
    one unit of fuel. *)
Fixpoint lexAllLoop (fuel : nat) (lex : Lexer.Lexer) (tokens : list Token.Token)
  : option (Result (list Token.Token * option error)) :=
  match fuel with
  | O => None
  | S fuel' =>
      match Lexer.Scan lex with
      | Panic p => Some (Panic p)
      | Ok (true, lex') => lexAllLoop fuel' lex' (tokens ++ [Lexer.Token_ lex'])
      | Ok (false, lex') => Some (Ok (tokens, Lexer.Err lex'))
      end
  end.

(** Lexes input into tokens and returns the lexer error, if any. *)
Definition lexAll (fuel : nat) (input : list rune)
  : option (Result (list Token.Token * option error)) :=
  lexAllLoop fuel (Lexer.New input) [].

End WithGoLib.

End LexerTest.

(** [Kind.String()]: the text of a kind of token. *)
Definition Kind_String (k : Token.Kind) : string :=
  match k with
  | Token.Invalid => "Invalid"
  | Token.And => "AND"
  | Token.Boolean => "BOOLEAN"
  | Token.Comma => ","
  | Token.Concat => "||"
  | Token.Create => "CREATE"
  | Token.Delete => "DELETE"
  | Token.Div => "/"
  | Token.Dot => "."
  | Token.Equal => "="
  | Token.False => "FALSE"
  | Token.From => "FROM"
  | Token.GreaterThan => ">"
  | Token.GreaterThanOrEqualTo => ">="
  | Token.Ident => "Ident"
  | Token.Insert => "INSERT"
  | Token.Integer => "INTEGER"
  | Token.Into => "INTO"
  | Token.LeftParen => "("
  | Token.LessThan => "<"
  | Token.LessThanOrEqualTo => "<="
  | Token.Minus => "-"
  | Token.Mul => "*"
  | Token.Not => "NOT"
  | Token.NotEqual => "!="
  | Token.Null => "NULL"
  | Token.Number => "NUMBER"
  | Token.NumberLiteral => "NumberLiteral"
  | Token.Or => "OR"
  | Token.Plus => "+"
  | Token.RightParen => ")"
  | Token.Select => "SELECT"
  | Token.Semicolon => ";"
  | Token.Set_ => "SET"
  | Token.StringLiteral => "StringLiteral"
  | Token.Table => "TABLE"
  | Token.Timestamp => "TIMESTAMP"
  | Token.True => "TRUE"
  | Token.Update => "UPDATE"
  | Token.Values => "VALUES"
  | Token.Varchar => "VARCHAR"
  | Token.Where => "WHERE"
  end.

(** ** Notions the further properties are stated with *)

Module Notions.

(** Whether a value that is not null is of the data type. *)
Definition hasType (v : Value) (t : DataType.t) : bool :=
  match v, t with
  | BooleanValue _, DataType.Boolean
  | IntegerValue _, DataType.Integer
  | NumberValue _, DataType.Number
  | StringValue _, DataType.String
  | TimestampValue _, DataType.Timestamp => true
  | _, _ => false
  end.

(** A value the column may hold: null where the column is nullable, a
    value of the column's data type otherwise. *)
Definition fits (col : Evaluator.Column) (v : Value) : Prop :=
  match v with
  | Nil => Evaluator.Nullable col = true
  | _ => hasType v (Evaluator.Type_ col) = true
  end.

(** What the placement loop of [insert] reads for a column name: nothing
    when the INSERT does not name the column, else the value at the
    index of the first name equal to it. *)
Definition namedValue (names : list string) (values : list Value) (name : string)
  : option (option Value) :=
  match Evaluator.nameIndex names name 0 with
  | Some j => Some (values !! j)
  | None => None
  end.

(** Whether the value is null. *)
Definition isNull (v : Value) : bool :=
  match v with
  | Nil => true
  | _ => false
  end.

(** An integer or null, as a value. *)
Definition integerOrNull (n : option Z) : Value :=
  match n with
  | Some n => IntegerValue n
  | None => Nil
  end.

(** The sum of the integers, the least and the greatest of them; of no
    integer at all these are zero and the bounds of [int64]. *)
Definition sumOf (l : list Z) : Z := foldr Z.add 0 l.
Definition minOf (l : list Z) : Z := foldr Z.min MaxInt64 l.
Definition maxOf (l : list Z) : Z := foldr Z.max MinInt64 l.

(** A call [name(arg)] in a projection. *)
Definition call (namePos : Token.Pos) (name : string) (arg : Ast.Expr) : Ast.Expr :=
  Ast.FunctionCall {| Ast.NamePos := namePos; Ast.Name := name |} [arg].

(** The table a SELECT with the one aggregate in its projection returns:
    the column "?" and one row. *)
Definition oneValue (v : Value) : Evaluator.Table :=
  {| Evaluator.TName := ""; Evaluator.Columns := [Evaluator.namedColumn "?"];
     Evaluator.Data := [[v]] |}.

(** The name of a result column: that of the identifier, or "?". *)
Definition resultName (expr : Ast.Expr) : string :=
  match expr with
  | Ast.IdentExpr ident => Ast.Name ident
  | _ => "?"
  end.

(** Whether the expression holds an identifier outside of every call of
    an aggregate function; the name of a call of another function counts,
    for [ast.Walk] visits it as an identifier. *)
Fixpoint bareColumn (expr : Ast.Expr) : bool :=
  match expr with
  | Ast.IdentExpr _ => true
  | Ast.BinaryExpr l _ r => bareColumn l || bareColumn r
  | Ast.UnaryExpr _ _ e => bareColumn e
  | Ast.FunctionCall name _ => negb (Evaluator.isAggFunc (Ast.Name name))
  | _ => false
  end.

(** A string as SQL writes it: between single quotes, with every single
    quote of the string doubled. *)
Definition escapeQuotes (s : list rune) : list rune :=
  flat_map (fun c => if c =? Lexer.singleQuote
                     then [Lexer.singleQuote; Lexer.singleQuote] else [c]) s.

Definition quoted (s : list rune) : list rune :=
  (Lexer.singleQuote :: escapeQuotes s ++ [Lexer.singleQuote])%list.

(** The lexer as [Scan] leaves it before it looks at the first rune:
    the token reset, no space skipped. *)
Definition atTokenStart (lex : Lexer.Lexer) : Lexer.Lexer :=
  Lexer.sync (Lexer.newLineTracker lex)
    (Lexer.withPos
       (Lexer.withTok lex {| Token.Kind_ := Token.Invalid; Token.Pos_ := Lexer.getPos lex;
                             Token.Lit := EmptyString |})
       (Lexer.pos lex)).

(** What a call that sets a token leaves behind when it returns true: a
    token of a kind other than the invalid one, and the error state as
    it was. *)
Definition setsToken (lex : Lexer.Lexer) (out : Result (bool * Lexer.Lexer)) : Prop :=
  match out with
  | Ok (true, lex') =>
      Token.Kind_ (Lexer.tok lex') <> Token.Invalid /\ Lexer.err lex' = Lexer.err lex
  | _ => True
  end.

(** Whether every operator of the expression is one the evaluator has a
    case for: a binary operator has a precedence, a unary operator is a
    sign. *)
Fixpoint operatorsValid (expr : Ast.Expr) : bool :=
  match expr with
  | Ast.BinaryExpr l op r =>
      (0 <? Token.Precedence op) && operatorsValid l && operatorsValid r
  | Ast.UnaryExpr _ op e =>
      match op with
      | Token.Plus | Token.Minus => operatorsValid e
      | _ => false
      end
  | Ast.FunctionCall _ args =>
      (fix all (l : list Ast.Expr) : bool :=
         match l with
         | [] => true
         | a :: l' => operatorsValid a && all l'
         end) args
  | _ => true
  end.

(** The errors with which the evaluator refuses an operator it has no
    case for. *)
Definition operatorError (p : panicValue) : bool :=
  match p with
  | PanicError (EvalError msg _ _) =>
      String.eqb msg "invalid binary operator: %s"
      || String.eqb msg "invalid unary operator: %s"
      || String.eqb msg "invalid comparison operator: %s"
      || String.eqb msg "invalid logical boolean op: %s"
  | _ => false
  end.

(** The library classifies the ASCII code points as Unicode does, which
    is how [RunLib] classifies them. *)
Definition asciiAsUnicode `{GoLib} : Prop :=
  forall r, 0 <= r < 128 ->
    IsDigit r = RunLib.isDigit r /\ IsLetter r = RunLib.isLetter r
    /\ IsSpace r = RunLib.isSpace r /\ ToLower r = RunLib.toLower r.

(** An ASCII code point that is no digit. *)
Definition asciiNoDigit (r : rune) : bool :=
  (0 <=? r) && (r <? 128) && negb (RunLib.isDigit r).

(** The kinds of token that stand for one fixed text. *)
Definition hasFixedText (k : Token.Kind) : bool :=
  match k with
  | Token.Invalid | Token.Ident | Token.NumberLiteral | Token.StringLiteral => false
  | _ => true
  end.

End Notions.

(** * Properties *)

(** ** strconv: the integers as Go reads and writes them *)

Example ParseInt_ex1 : ParseInt "-42" = Some (-42). Proof. reflexivity. Qed.
Example ParseInt_ex2 : ParseInt "9223372036854775808" = None. Proof. reflexivity. Qed.
Example ParseInt_ex3 : ParseInt "-9223372036854775808" = Some MinInt64. Proof. reflexivity. Qed.
Example ParseInt_ex4 : ParseInt "+" = None /\ ParseInt "1_0" = None /\ ParseInt "007" = Some 7. Proof. repeat split. Qed.
Example FormatInt_ex : FormatInt (-120) = "-120" /\ FormatInt 0 = "0". Proof. split; reflexivity. Qed.

(** ** DELETE *)

Section DeleteStatement.
Context `{GoLib}.

Lemma keptRows_absent_where (tab : Evaluator.Table) (rows : list Evaluator.Row) :
  Evaluator.keptRows tab None rows = Ok [].
Proof. induction rows as [|row rest IH]; simpl; auto. Qed.

Lemma keptRows_boolean_where (tab : Evaluator.Table) (w : Ast.Expr)
    (sat : Evaluator.Row -> bool) (rows : list Evaluator.Row) :
  (forall row, In row rows ->
     Evaluator.evalExpr [] (Evaluator.currentRow tab row) w = Ok (BooleanValue (sat row))) ->
  Evaluator.keptRows tab (Some w) rows = Ok (List.filter (fun row => negb (sat row)) rows).
Proof.
  induction rows as [|row rest IH]; intros Hw; simpl; [reflexivity|].
  rewrite (Hw row (or_introl eq_refl)). simpl.
  rewrite IH by (intros r Hr; apply Hw; right; exact Hr). simpl.
  destruct (sat row); reflexivity.
Qed.

(** C1 (as amended): a DELETE without WHERE leaves the table with no row
    at all; a DELETE whose WHERE evaluates to a boolean on every row
    leaves exactly the rows on which it is false, in their order. *)
Theorem delete_keeps_rows_where_false
    (env : Evaluator.Environment) (pos : Token.Pos) (table : Ast.Ident)
    (tab : Evaluator.Table) (w : Ast.Expr) (sat : Evaluator.Row -> bool) :
  Evaluator.tables env !! Ast.Name table = Some tab ->
  (forall row, In row (Evaluator.Data tab) ->
     Evaluator.evalExpr [] (Evaluator.currentRow tab row) w = Ok (BooleanValue (sat row))) ->
  Evaluator.EvalStmt env (Ast.DeleteStmt pos table None)
    = (Ok (None, None),
       Evaluator.storeTable env (Ast.Name table) (Evaluator.withData tab []))
  /\ Evaluator.EvalStmt env (Ast.DeleteStmt pos table (Some w))
    = (Ok (None, None),
       Evaluator.storeTable env (Ast.Name table)
         (Evaluator.withData tab
            (List.filter (fun row => negb (sat row)) (Evaluator.Data tab)))).
Proof.
  intros Htab Hw.
  unfold Evaluator.EvalStmt, Evaluator.evalStmtBody, Evaluator.evalDeleteStmt, Evaluator.lookupTable.
  rewrite Htab. split.
  - rewrite keptRows_absent_where. reflexivity.
  - rewrite (keptRows_boolean_where tab w sat) by exact Hw. reflexivity.
Qed.

End DeleteStatement.

(** DELETE FROM t, run on the sample table: no row is left, so the rows
    are not what they were. *)
Lemma delete_without_where_empties_sample :
  Sample.rowsOf
    (snd (@Evaluator.EvalStmt RunLib.lib Sample.env
            (Ast.DeleteStmt Sample.p0 (Sample.ident "t") None))) = Some []
  /\ Sample.rowsOf Sample.env <> Some [].
Proof. split; [vm_compute; reflexivity | vm_compute; discriminate]. Qed.

(** DELETE FROM t WHERE a = 1 on the sample table. *)
Lemma delete_keeps_rows_where_false_sample :
  let w := Ast.BinaryExpr (Ast.IdentExpr (Sample.ident "a")) Token.Equal
             (Ast.IntegerLiteral Sample.p0 1) in
  let sat := fun row : Evaluator.Row =>
               match row with IntegerValue 1 :: _ => true | _ => false end in
  (Evaluator.tables Sample.env !! "t" = Some Sample.t
   /\ forall row, In row (Evaluator.Data Sample.t) ->
        @Evaluator.evalExpr RunLib.lib [] (Evaluator.currentRow Sample.t row) w
        = Ok (BooleanValue (sat row)))
  /\ Sample.rowsOf
       (snd (@Evaluator.EvalStmt RunLib.lib Sample.env
               (Ast.DeleteStmt Sample.p0 (Sample.ident "t") (Some w))))
     = Some [[IntegerValue 3; IntegerValue 4]].
Proof.
  intros w sat.
  assert (Hrows : forall row, In row (Evaluator.Data Sample.t) ->
            @Evaluator.evalExpr RunLib.lib [] (Evaluator.currentRow Sample.t row) w
            = Ok (BooleanValue (sat row))).
  { intros row [<-|[<-|[]]]; reflexivity. }
  split; [split; [reflexivity | exact Hrows] |].
  destruct (@delete_keeps_rows_where_false RunLib.lib Sample.env Sample.p0
              (Sample.ident "t") Sample.t w sat eq_refl Hrows) as [_ ->].
  reflexivity.
Defined.

(** ** SELECT COUNT( * ) when no row matches *)

Section CountNoMatch.
Context `{GoLib}.

Lemma aggregateRows_no_match (tab : Evaluator.Table) (w : Ast.Expr)
    (rows : list Evaluator.Row) :
  (forall funcs row, In row rows ->
     Evaluator.evalExpr funcs (Evaluator.currentRow tab row) w = Ok (BooleanValue false)) ->
  forall funcs matched,
    Evaluator.aggregateRows tab (Some w) funcs matched rows = Ok (funcs, matched).
Proof.
  induction rows as [|row rest IH]; intros Hw funcs matched; simpl; [reflexivity|].
  rewrite (Hw funcs row (or_introl eq_refl)). simpl.
  apply IH. intros fs r Hr. apply Hw. right. exact Hr.
Qed.

(** C2 (as amended): when the WHERE predicate is false on every row,
    SELECT COUNT( * ) FROM T WHERE ... returns a table with the one column
    "?" and no row, whatever rows T holds. *)
Theorem count_star_without_match_returns_no_row
    (env : Evaluator.Environment) (pos namePos starPos : Token.Pos)
    (table : Ast.Ident) (tab : Evaluator.Table) (w : Ast.Expr) :
  Evaluator.tables env !! Ast.Name table = Some tab ->
  (forall funcs row, In row (Evaluator.Data tab) ->
     Evaluator.evalExpr funcs (Evaluator.currentRow tab row) w = Ok (BooleanValue false)) ->
  Evaluator.EvalStmt env
    (Ast.SelectStmt pos
       [Ast.FunctionCall {| Ast.NamePos := namePos; Ast.Name := "count" |}
          [Ast.SelectStarExpr starPos]]
       (Ast.IdentExpr table) (Some w))
  = (Ok (Some {| Evaluator.TName := "";
                 Evaluator.Columns := [Evaluator.namedColumn "?"];
                 Evaluator.Data := [] |}, None), env).
Proof.
  intros Htab Hw.
  unfold Evaluator.EvalStmt, Evaluator.evalStmtBody, Evaluator.evalSelectStmt,
    Evaluator.lookupTable.
  rewrite Htab. simpl.
  unfold Evaluator.evalAggregateSelectStmt. simpl.
  rewrite (aggregateRows_no_match tab w (Evaluator.Data tab) Hw). reflexivity.
Qed.

End CountNoMatch.

(** SELECT COUNT( * ) FROM t WHERE a = 0 on the sample table, which holds
    two rows: the result has no row, not the one row (0). *)
Lemma count_star_without_match_sample :
  Sample.resultRows
    (fst (@Evaluator.EvalStmt RunLib.lib Sample.env
            (Ast.SelectStmt Sample.p0
               [Ast.FunctionCall (Sample.ident "count") [Ast.SelectStarExpr Sample.p0]]
               (Ast.IdentExpr (Sample.ident "t"))
               (Some (Ast.BinaryExpr (Ast.IdentExpr (Sample.ident "a")) Token.Equal
                        (Ast.IntegerLiteral Sample.p0 0))))))
  = Some []
  /\ Evaluator.Data Sample.t <> []
  /\ @nil Evaluator.Row <> [[IntegerValue 0]].
Proof. split; [vm_compute; reflexivity | split; discriminate]. Qed.

Lemma count_star_without_match_witness :
  let w := Ast.BinaryExpr (Ast.IdentExpr (Sample.ident "a")) Token.Equal
             (Ast.IntegerLiteral Sample.p0 0) in
  (Evaluator.tables Sample.env !! "t" = Some Sample.t
   /\ forall funcs row, In row (Evaluator.Data Sample.t) ->
        @Evaluator.evalExpr RunLib.lib funcs (Evaluator.currentRow Sample.t row) w
        = Ok (BooleanValue false))
  /\ Sample.resultRows
       (fst (@Evaluator.EvalStmt RunLib.lib Sample.env
               (Ast.SelectStmt Sample.p0
                  [Ast.FunctionCall (Sample.ident "count") [Ast.SelectStarExpr Sample.p0]]
                  (Ast.IdentExpr (Sample.ident "t")) (Some w))))
     = Some [].
Proof.
  intros w.
  assert (Hrows : forall funcs row, In row (Evaluator.Data Sample.t) ->
            @Evaluator.evalExpr RunLib.lib funcs (Evaluator.currentRow Sample.t row) w
            = Ok (BooleanValue false)).
  { intros funcs row [<-|[<-|[]]]; reflexivity. }
  split; [split; [reflexivity | exact Hrows] |].
  exact (f_equal (fun r => Sample.resultRows (fst r))
           (@count_star_without_match_returns_no_row RunLib.lib Sample.env Sample.p0
              Sample.p0 Sample.p0 (Sample.ident "t") Sample.t w eq_refl Hrows)).
Defined.

(** ** MIN and MAX *)

Section MinMax.
Context `{GoLib}.

(** C3: CREATE TABLE m (x NUMBER); INSERT 1.5; INSERT 2.5;
    SELECT MIN(x), MAX(x) FROM m.  The first Number promotes the integer
    sentinel ([MaxInt64] for MIN, [MinInt64] for MAX) to a float, and
    [setFloat] then keeps the larger value for MIN and the smaller for
    MAX: the answer is the two sentinels, not 1.5 and 2.5.  [setInt], on
    integers, compares the right way round. *)
Theorem min_max_of_numbers_returns_sentinels :
  (last (fst (Evaluate.evalAll Sample.emptyEnv
                  [ Sample.createM; Sample.insertM 1.5; Sample.insertM 2.5;
                    Ast.SelectStmt Sample.p0
                      [ Ast.FunctionCall (Sample.ident "min")
                          [Ast.IdentExpr (Sample.ident "x")];
                        Ast.FunctionCall (Sample.ident "max")
                          [Ast.IdentExpr (Sample.ident "x")] ]
                      (Ast.IdentExpr (Sample.ident "m")) None ]))
     ≫= Sample.resultRows)
  = Some [[ NumberValue (float64_of_int MaxInt64);
            NumberValue (float64_of_int MinInt64) ]]
  /\ Evaluator.setFloat true 1.5 2.5 = 2.5%float
  /\ Evaluator.setFloat false 2.5 1.5 = 1.5%float
  /\ Evaluator.setInt true 2 1 = 1
  /\ Evaluator.setInt false 1 2 = 2.
Proof. repeat split; vm_compute; reflexivity. Qed.

End MinMax.

(** ** Comparison of a String with an Integer or a Number *)

Section StringComparison.
Context `{GoLib}.

(** C4: with a String on the left and an Integer or a Number on the
    right, [comparisonOp] coerces the right operand, not the string, and
    so compares the right operand with itself.  The query '5' = 3 is
    true, while 3 = '5', the mirrored row of the table, is false. *)
Theorem string_on_the_left_is_never_read
    (expr : Ast.Expr) (s : string) (n : Z) (f : float) :
  Evaluator.comparisonOp expr (StringValue s) (IntegerValue n)
    = Evaluator.cmpInts expr n n
  /\ Evaluator.comparisonOp expr (StringValue s) (NumberValue f)
    = Evaluator.cmpFloats expr f f
  /\ Evaluator.evalExpr [] Evaluator.emptyNamespace
       (Ast.BinaryExpr (Ast.StringLiteral Sample.p0 "5") Token.Equal
          (Ast.IntegerLiteral Sample.p0 3))
     = Ok (BooleanValue true)
  /\ Evaluator.evalExpr [] Evaluator.emptyNamespace
       (Ast.BinaryExpr (Ast.IntegerLiteral Sample.p0 3) Token.Equal
          (Ast.StringLiteral Sample.p0 "5"))
     = Ok (BooleanValue false).
Proof. repeat split; reflexivity. Qed.

End StringComparison.

(** ** A WHERE clause that evaluates to null *)

Section WhereNull.
Context `{GoLib}.

Lemma selectRows_null_where (tab : Evaluator.Table) (w : Ast.Expr)
    (projection : list Ast.Expr) (row : Evaluator.Row) (rest : list Evaluator.Row) :
  Evaluator.evalExpr [] (Evaluator.currentRow tab row) w = Ok Nil ->
  Evaluator.selectRows tab (Some w) projection (row :: rest) = Panic nilDereference.
Proof. intros Hw. simpl. rewrite Hw. reflexivity. Qed.

(** C6: SELECT a FROM t WHERE NULL on the sample table.  The null is
    handed to [toBoolean] without a test, the call through the nil
    interface panics, and the statement returns a run-time error; with
    WHERE FALSE it returns a table with no row. *)
Theorem select_where_null_returns_an_error :
  Evaluator.EvalStmt Sample.env
    (Ast.SelectStmt Sample.p0 [Ast.IdentExpr (Sample.ident "a")]
       (Ast.IdentExpr (Sample.ident "t")) (Some (Ast.Null Sample.p0)))
  = (Ok (None, Some (RuntimeError "invalid memory address or nil pointer dereference")),
     Sample.env)
  /\ Sample.resultRows
       (fst (Evaluator.EvalStmt Sample.env
               (Ast.SelectStmt Sample.p0 [Ast.IdentExpr (Sample.ident "a")]
                  (Ast.IdentExpr (Sample.ident "t"))
                  (Some (Ast.BooleanLiteral Sample.p0 false)))))
     = Some [].
Proof. split; vm_compute; reflexivity. Qed.

End WhereNull.

(** ** INSERT and the table's rows *)

Section InsertRows.
Context `{GoLib}.

(** Whatever [insert] does, the rows of the table are the old rows, with
    one row appended exactly when the call returns. *)
Lemma insert_rows (tab : Evaluator.Table) (names : list string) (values : list Value) :
  match Evaluator.insert tab names values with
  | (Panic _, tab') => Evaluator.Data tab' = Evaluator.Data tab
  | (Ok _, tab') => exists row, Evaluator.Data tab' = (Evaluator.Data tab ++ [row])%list
  end.
Proof.
  unfold Evaluator.insert.
  destruct (negb _); [reflexivity|].
  destruct (negb (length names =? 0)%nat).
  - destruct (Evaluator.unknownName tab names); [reflexivity|].
    destruct (Evaluator.placeValues _ names values) as [[row|p] cols]; [|reflexivity].
    destruct (Evaluator.checkRow row cols) as [row'|p]; [|reflexivity].
    exists row'. reflexivity.
  - destruct (Evaluator.checkRow _ _) as [row'|p]; [|reflexivity].
    exists row'. reflexivity.
Qed.

Lemma storeTable_rows_unchanged (env : Evaluator.Environment) (name : string)
    (tab tab' : Evaluator.Table) :
  Evaluator.tables env !! name = Some tab ->
  Evaluator.Data tab' = Evaluator.Data tab ->
  forall other,
    Evaluator.Data <$> (Evaluator.tables (Evaluator.storeTable env name tab') !! other)
    = Evaluator.Data <$> (Evaluator.tables env !! other).
Proof.
  intros Htab Hdata other. unfold Evaluator.storeTable. simpl.
  destruct (decide (name = other)) as [<-|Hne].
  - rewrite lookup_insert_eq, Htab. simpl. f_equal. exact Hdata.
  - rewrite lookup_insert_ne by exact Hne. reflexivity.
Qed.

(** C10: [insert] appends the new row only when every check and every
    coercion has succeeded; a call that panics leaves the rows as they
    were.  Seen from [EvalStmt]: an INSERT that returns an error leaves
    the rows of every table as they were. *)
Theorem insert_is_atomic_on_rows :
  (forall (tab : Evaluator.Table) (names : list string) (values : list Value),
     match Evaluator.insert tab names values with
     | (Panic _, tab') => Evaluator.Data tab' = Evaluator.Data tab
     | (Ok _, tab') => exists row, Evaluator.Data tab' = (Evaluator.Data tab ++ [row])%list
     end)
  /\ (forall (env : Evaluator.Environment) (pos : Token.Pos) (table : Ast.Ident)
        (columns : list Ast.Ident) (values : list Ast.Expr),
        match Evaluator.EvalStmt env (Ast.InsertStmt pos table columns values) with
        | (Ok (_, Some _), env') =>
            forall other,
              Evaluator.Data <$> (Evaluator.tables env' !! other)
              = Evaluator.Data <$> (Evaluator.tables env !! other)
        | (Ok (_, None), env') =>
            exists tab row,
              Evaluator.tables env !! Ast.Name table = Some tab
              /\ Evaluator.Data <$> (Evaluator.tables env' !! Ast.Name table)
                 = Some (Evaluator.Data tab ++ [row])%list
        | (Panic _, _) => False
        end).
Proof.
  split; [exact insert_rows|].
  intros env pos table columns values.
  unfold Evaluator.EvalStmt, Evaluator.evalStmtBody, Evaluator.evalInsertStmt,
    Evaluator.lookupTable.
  destruct (Evaluator.tables env !! Ast.Name table) as [tab|] eqn:Htab;
    [|simpl; intros other; reflexivity].
  destruct (forEach _ values) as [vals|[e|msg args]]; simpl;
    [| intros other; reflexivity | intros other; reflexivity].
  pose proof (insert_rows tab (map Ast.Name columns) vals) as Hins.
  destruct (Evaluator.insert tab (map Ast.Name columns) vals) as [[[]|[e|msg args]] tab'];
    simpl.
  - destruct Hins as [row Hrow]. exists tab, row. split; [reflexivity|].
    rewrite lookup_insert_eq. simpl. f_equal. exact Hrow.
  - apply (storeTable_rows_unchanged env _ tab tab' Htab Hins).
  - apply (storeTable_rows_unchanged env _ tab tab' Htab Hins).
Qed.

End InsertRows.

(** ** UPDATE *)

Section UpdateStatement.
Context `{GoLib}.

Lemma colIndexFrom_bound (cols : list Evaluator.Column) (name : string) (i : Z) :
  0 <= i ->
  Evaluator.colIndexFrom cols name i = -1
  \/ i <= Evaluator.colIndexFrom cols name i < i + Z.of_nat (length cols).
Proof.
  revert i. induction cols as [|c rest IH]; intros i Hi; simpl; [left; reflexivity|].
  destruct (String.eqb (Evaluator.Name c) name); [right; lia|].
  destruct (IH (i + 1) ltac:(lia)) as [->|Hb]; [left; reflexivity | right; lia].
Qed.

Lemma colIndex_in_range (tab : Evaluator.Table) (name : string) :
  0 <= Evaluator.colIndex tab name ->
  (Z.to_nat (Evaluator.colIndex tab name) < length (Evaluator.Columns tab))%nat.
Proof.
  intros Hpos. unfold Evaluator.colIndex in *.
  destruct (colIndexFrom_bound (Evaluator.Columns tab) name 0 ltac:(lia)) as [E|Hb]; lia.
Qed.

(** The SET loop on one row is the assignment in turn. *)
Lemma applySet_in_turn (tab : Evaluator.Table) (columns : list Ast.Ident) :
  forall (exprs : list Ast.Expr) (values : list Ast.Expr) (i : nat)
         (row row' : Evaluator.Row),
    length exprs = length columns ->
    drop i values = exprs ->
    Forall (fun c => 0 <= Evaluator.colIndex tab (Ast.Name c)) columns ->
    length row = length (Evaluator.Columns tab) ->
    Spec.assignInTurn tab (zip columns exprs) row = Some row' ->
    Evaluator.applySet tab columns values i row = (Ok tt, row')
    /\ length row' = length (Evaluator.Columns tab).
Proof.
  induction columns as [|c rest IH]; intros exprs values i row row' Hlen Hdrop Hcols Hrow Hspec.
  - simpl in Hspec. inversion Hspec; subst. split; [reflexivity | exact Hrow].
  - destruct exprs as [|e exprs']; [discriminate Hlen|].
    simpl in Hspec. simpl.
    inversion Hcols as [|? ? Hc Hrest]; subst.
    destruct (Evaluator.colIndex tab (Ast.Name c) <? 0) eqn:Hneg; [lia|].
    assert (Hi : values !! i = Some e).
    { rewrite <- (Nat.add_0_r i), <- lookup_drop, Hdrop. reflexivity. }
    rewrite Hi.
    destruct (Evaluator.evalExpr [] (Evaluator.currentRow tab row) e) as [v|p];
      [|discriminate Hspec].
    pose proof (colIndex_in_range tab (Ast.Name c) Hc) as Hrange.
    destruct (Z.to_nat (Evaluator.colIndex tab (Ast.Name c)) <? length row)%nat eqn:Hlt;
      [|apply Nat.ltb_ge in Hlt; lia].
    apply (IH exprs' values (S i)).
    + simpl in Hlen. lia.
    + rewrite <- (Nat.add_1_r i), <- drop_drop, Hdrop. reflexivity.
    + exact Hrest.
    + rewrite length_insert. exact Hrow.
    + exact Hspec.
Qed.

(** C5 (as amended): UPDATE carries out the assignments of its SET clause
    in turn on each matched row, and each right-hand side is evaluated in
    the row as the earlier assignments of the same UPDATE left it; only
    the WHERE clause is sure to see the row's original values.  [rows'] is
    the table after the update: an unmatched row is unchanged, a matched
    row is the outcome of [Spec.assignInTurn]. *)
Theorem update_assigns_in_turn
    (env : Evaluator.Environment) (pos : Token.Pos) (table : Ast.Ident)
    (tab : Evaluator.Table) (columns : list Ast.Ident) (values : list Ast.Expr)
    (where_ : option Ast.Expr) (rows' : list Evaluator.Row) :
  Evaluator.tables env !! Ast.Name table = Some tab ->
  length values = length columns ->
  Forall (fun c => 0 <= Evaluator.colIndex tab (Ast.Name c)) columns ->
  Forall (fun row => length row = length (Evaluator.Columns tab)) (Evaluator.Data tab) ->
  Forall2 (fun row row' =>
             exists matches,
               Evaluator.whereMatches [] (Evaluator.currentRow tab row) where_ = Ok matches
               /\ if matches : bool
                  then Spec.assignInTurn tab (zip columns values) row = Some row'
                  else row' = row)
          (Evaluator.Data tab) rows' ->
  Evaluator.EvalStmt env (Ast.UpdateStmt pos table columns values where_)
  = (Ok (None, None),
     Evaluator.storeTable env (Ast.Name table) (Evaluator.withData tab rows')).
Proof.
  intros Htab Hlen Hcols Hwidth Hrows.
  unfold Evaluator.EvalStmt, Evaluator.evalStmtBody, Evaluator.evalUpdateStmt,
    Evaluator.lookupTable.
  rewrite Htab.
  assert (Hloop : Evaluator.updateRows tab where_ columns values (Evaluator.Data tab)
                  = (Ok tt, rows')).
  { induction Hrows as [|row row' rest rest' [matches [Hw Hrow]] Hrest IH]; [reflexivity|].
    inversion Hwidth as [|? ? Hrowlen Hwidth']; subst.
    simpl. rewrite Hw. destruct matches.
    - destruct (applySet_in_turn tab columns values values 0 row row') as [-> _]; auto.
      rewrite (IH Hwidth'). reflexivity.
    - subst row'. rewrite (IH Hwidth'). reflexivity. }
  rewrite Hloop. reflexivity.
Qed.

End UpdateStatement.

(** UPDATE t SET a = b, b = a on the sample table: the second assignment
    reads the [a] the first one wrote, so the rows end as (2, 2), (4, 4).
    Evaluated in the original rows, as the claim has it, the assignments
    would swap the columns. *)
Lemma update_reads_earlier_assignments_sample :
  let columns := [Sample.ident "a"; Sample.ident "b"] in
  let values := [Ast.IdentExpr (Sample.ident "b"); Ast.IdentExpr (Sample.ident "a")] in
  Sample.rowsOf
    (snd (@Evaluator.EvalStmt RunLib.lib Sample.env
            (Ast.UpdateStmt Sample.p0 (Sample.ident "t") columns values None)))
  = Some [[IntegerValue 2; IntegerValue 2]; [IntegerValue 4; IntegerValue 4]]
  /\ map (fun row => @Spec.assignFromOriginal RunLib.lib Sample.t row
                       (zip columns values) row) (Evaluator.Data Sample.t)
     = [Some [IntegerValue 2; IntegerValue 1]; Some [IntegerValue 4; IntegerValue 3]].
Proof. split; vm_compute; reflexivity. Qed.

Lemma update_assigns_in_turn_sample :
  let columns := [Sample.ident "a"; Sample.ident "b"] in
  let values := [Ast.IdentExpr (Sample.ident "b"); Ast.IdentExpr (Sample.ident "a")] in
  let rows' := [[IntegerValue 2; IntegerValue 2]; [IntegerValue 4; IntegerValue 4]] in
  (Evaluator.tables Sample.env !! "t" = Some Sample.t
   /\ length values = length columns
   /\ Forall (fun c => 0 <= @Evaluator.colIndex Sample.t (Ast.Name c)) columns
   /\ Forall (fun row => length row = length (Evaluator.Columns Sample.t))
        (Evaluator.Data Sample.t)
   /\ Forall2 (fun row row' =>
                 exists matches,
                   @Evaluator.whereMatches RunLib.lib []
                     (Evaluator.currentRow Sample.t row) None = Ok matches
                   /\ if matches : bool
                      then @Spec.assignInTurn RunLib.lib Sample.t (zip columns values) row
                           = Some row'
                      else row' = row)
        (Evaluator.Data Sample.t) rows')
  /\ @Evaluator.EvalStmt RunLib.lib Sample.env
       (Ast.UpdateStmt Sample.p0 (Sample.ident "t") columns values None)
     = (Ok (None, None),
        Evaluator.storeTable Sample.env "t" (Evaluator.withData Sample.t rows')).
Proof.
  intros columns values rows'.
  assert (H1 : Forall (fun c => 0 <= @Evaluator.colIndex Sample.t (Ast.Name c)) columns).
  { repeat constructor; vm_compute; discriminate. }
  assert (H2 : Forall (fun row => length row = length (Evaluator.Columns Sample.t))
                 (Evaluator.Data Sample.t)).
  { repeat constructor. }
  assert (H3 : Forall2 (fun row row' =>
                 exists matches,
                   @Evaluator.whereMatches RunLib.lib []
                     (Evaluator.currentRow Sample.t row) None = Ok matches
                   /\ if matches : bool
                      then @Spec.assignInTurn RunLib.lib Sample.t (zip columns values) row
                           = Some row'
                      else row' = row)
                 (Evaluator.Data Sample.t) rows').
  { repeat constructor; exists true; split; reflexivity. }
  split; [repeat split; assumption |].
  exact (@update_assigns_in_turn RunLib.lib Sample.env Sample.p0 (Sample.ident "t")
           Sample.t columns values None rows' eq_refl eq_refl H1 H2 H3).
Defined.

(** ** CREATE TABLE, INSERT, SELECT * *)

Section RoundTrip.
Context `{GoLib}.



(** *** Column names that are all different *)


Lemma nameIndex_unique (names : list string) :
  NoDup names ->
  forall (i j : nat) (name : string),
    names !! j = Some name ->
    Evaluator.nameIndex names name i = Some (i + j)%nat.
Proof.
  induction names as [|n0 rest IH]; intros Hnd i j name Hj; [discriminate Hj|].
  apply NoDup_cons in Hnd as [Hnotin Hnd].
  destruct j as [|j]; simpl in *.
  - inversion Hj; subst. rewrite String.eqb_refl. f_equal. lia.
  - destruct (String.eqb name n0) eqn:E.
    + apply String.eqb_eq in E. exfalso. apply Hnotin. rewrite <- E.
      apply list_elem_of_lookup. exists j. exact Hj.
    + rewrite (IH Hnd (S i) j name Hj). f_equal. lia.
Qed.

Lemma duplicateColumn_None (cols : list Evaluator.Column) :
  forall seen : gset string,
    Evaluator.duplicateColumn seen cols = None ->
    NoDup (map Evaluator.Name cols)
    /\ forall name, name ∈ map Evaluator.Name cols -> name ∉ seen.
Proof.
  induction cols as [|c rest IH]; intros seen E; simpl in *.
  - split; [constructor | intros name Hin; inversion Hin].
  - destruct (decide (Evaluator.Name c ∈ seen)) as [|Hc]; [discriminate E|].
    destruct (IH _ E) as [Hnd Hseen]. split.
    + apply NoDup_cons. split; [|exact Hnd].
      intros Hin. apply (Hseen _ Hin). apply elem_of_union_l, elem_of_singleton. reflexivity.
    + intros name Hin. apply elem_of_cons in Hin as [->|Hin]; [exact Hc|].
      intros Hs. apply (Hseen _ Hin). apply elem_of_union_r. exact Hs.
Qed.

(** *** SELECT * on a table whose column names are all different *)







(** *** INSERT with all columns in table order *)





Lemma unknownName_None (tab : Evaluator.Table) (names : list string) :
  Forall (fun name => 0 <= Evaluator.colIndex tab name) names ->
  Evaluator.unknownName tab names = None.
Proof.
  induction 1 as [|name rest Hname _ IH]; simpl; [reflexivity|].
  destruct (Evaluator.colIndex tab name <? 0) eqn:E; [lia | exact IH].
Qed.



(** *** The three statements together *)





End RoundTrip.


(** ** Quoted strings *)

Section QuotedString.
Context `{GoLib}.

(** A body without a quote is collected rune by rune, whatever line
    endings it holds. *)
Lemma quotedStringLoop_collects (lex : Lexer.Lexer) (rest : list rune) :
  match rest with c :: _ => c <> Lexer.singleQuote | [] => True end ->
  forall (body : list rune),
    Forall (fun c => c <> Lexer.singleQuote) body ->
    forall (i : nat) (runes : list rune) (t : Lexer.lineTracker),
    exists t',
      Lexer.quotedStringLoop lex (body ++ Lexer.singleQuote :: rest) i runes t
      = (true,
         Lexer.withPos
           (Lexer.sync t'
              (Lexer.setLit (Lexer.setToken lex Token.StringLiteral)
                 (string_of_runes (runes ++ body))))
           (S (i + length body))).
Proof.
  intros Hrest. induction 1 as [|c body Hc _ IH]; intros i runes t.
  - exists t. simpl. rewrite app_nil_r, Nat.add_0_r.
    destruct rest as [|c1 rest']; [reflexivity|].
    destruct (c1 =? Lexer.singleQuote) eqn:E; [|reflexivity].
    apply Z.eqb_eq in E. contradiction.
  - assert (Hq : (c =? Lexer.singleQuote) = false) by (apply Z.eqb_neq; exact Hc).
    assert (Hstep : forall t1,
              exists t',
                Lexer.quotedStringLoop lex (body ++ Lexer.singleQuote :: rest) (S i)
                  (runes ++ [c]) t1
                = (true,
                   Lexer.withPos
                     (Lexer.sync t'
                        (Lexer.setLit (Lexer.setToken lex Token.StringLiteral)
                           (string_of_runes (runes ++ c :: body))))
                     (S (i + length (c :: body))))).
    { intros t1. destruct (IH (S i) (runes ++ [c])%list t1) as [t' E]. exists t'.
      rewrite E, <- app_assoc. simpl. rewrite Nat.add_succ_r. reflexivity. }
    cbn [app Lexer.quotedStringLoop]. rewrite Hq.
    destruct (c =? 10) eqn:Elf; [apply Hstep|].
    destruct (c =? 13) eqn:Ecr; [|apply Hstep].
    destruct (body ++ Lexer.singleQuote :: rest)%list eqn:Ebody; apply Hstep.
Qed.

(** C8 (as amended): a single-quoted string whose body holds no quote is
    accepted whatever line endings it holds, and the literal of the token
    is the body as it stands: a CRLF stays a carriage return followed by
    a line feed. *)
Theorem quoted_string_literal_is_the_body
    (lex : Lexer.Lexer) (body rest : list rune) :
  Lexer.err lex = None ->
  IsSpace Lexer.singleQuote = false ->
  drop (Lexer.pos lex) (Lexer.input lex)
    = (Lexer.singleQuote :: body ++ Lexer.singleQuote :: rest)%list ->
  Forall (fun c => c <> Lexer.singleQuote) body ->
  match rest with c :: _ => c <> Lexer.singleQuote | [] => True end ->
  exists lex',
    Lexer.Scan lex = Ok (true, lex')
    /\ Token.Kind_ (Lexer.tok lex') = Token.StringLiteral
    /\ Token.Lit (Lexer.tok lex') = string_of_runes body
    /\ Lexer.pos lex' = (Lexer.pos lex + length body + 2)%nat
    /\ Lexer.err lex' = None.
Proof.
  intros Herr Hspace Hinput Hbody Hrest.
  unfold Lexer.Scan. rewrite Herr.
  unfold Lexer.skipSpace. cbn [Lexer.withTok Lexer.pos Lexer.input].
  rewrite Hinput. cbn [Lexer.skipSpaceLoop]. rewrite Hspace.
  cbn [negb Lexer.sync Lexer.withPos Lexer.withTok Lexer.pos Lexer.input].
  rewrite Hinput.
  change (Lexer.singleQuote =? 44) with false.
  change (Lexer.singleQuote =? 124) with false.
  change (Lexer.singleQuote =? 47) with false.
  change (Lexer.singleQuote =? 46) with false.
  change (Lexer.singleQuote =? 61) with false.
  change (Lexer.singleQuote =? 62) with false.
  change (Lexer.singleQuote =? 40) with false.
  change (Lexer.singleQuote =? 60) with false.
  change (Lexer.singleQuote =? 45) with false.
  change (Lexer.singleQuote =? 42) with false.
  change (Lexer.singleQuote =? 33) with false.
  change (Lexer.singleQuote =? 43) with false.
  change (Lexer.singleQuote =? 41) with false.
  change (Lexer.singleQuote =? 59) with false.
  change (Lexer.singleQuote =? Lexer.singleQuote) with true.
  cbv iota.
  unfold Lexer.consumeQuotedString.
  cbn [Lexer.sync Lexer.withPos Lexer.withTok Lexer.pos Lexer.input].
  rewrite Hinput.
  change (Lexer.singleQuote =? Lexer.singleQuote) with true. cbn [negb].
  match goal with
  | |- context [Lexer.quotedStringLoop ?l _ ?i ?rs ?t] =>
      destruct (quotedStringLoop_collects l rest Hrest body Hbody i rs t) as [t' E]
  end.
  rewrite E. eexists. split; [reflexivity|].
  cbn. rewrite Herr. repeat split; try reflexivity. lia.
Qed.

End QuotedString.

(** 'a CR LF b' and 'a LF b': the first literal holds the carriage
    return, so the two literals differ. *)
Lemma crlf_literal_keeps_carriage_return_sample :
  @Sample.firstLit RunLib.lib [39; 97; 13; 10; 98; 39]
    = Some (string_of_runes [97; 13; 10; 98])
  /\ @Sample.firstLit RunLib.lib [39; 97; 10; 98; 39]
    = Some (string_of_runes [97; 10; 98])
  /\ @Sample.firstLit RunLib.lib [39; 97; 13; 10; 98; 39]
     <> @Sample.firstLit RunLib.lib [39; 97; 10; 98; 39].
Proof.
  split; [vm_compute; reflexivity | split; [vm_compute; reflexivity |]].
  vm_compute. discriminate.
Qed.

Lemma quoted_string_literal_is_the_body_sample :
  let lex := Lexer.New [39; 97; 13; 10; 98; 39] in
  (Lexer.err lex = None
   /\ @IsSpace RunLib.lib Lexer.singleQuote = false
   /\ drop (Lexer.pos lex) (Lexer.input lex)
      = (Lexer.singleQuote :: [97; 13; 10; 98] ++ Lexer.singleQuote :: [])%list
   /\ Forall (fun c => c <> Lexer.singleQuote) [97; 13; 10; 98])
  /\ exists lex',
       @Lexer.Scan RunLib.lib lex = Ok (true, lex')
       /\ Token.Kind_ (Lexer.tok lex') = Token.StringLiteral
       /\ Token.Lit (Lexer.tok lex') = string_of_runes [97; 13; 10; 98]
       /\ Lexer.pos lex' = (Lexer.pos lex + length [97; 13; 10; 98] + 2)%nat
       /\ Lexer.err lex' = None.
Proof.
  intros lex.
  assert (Hbody : Forall (fun c => c <> Lexer.singleQuote) [97; 13; 10; 98]).
  { repeat constructor; discriminate. }
  split; [repeat split; try reflexivity; exact Hbody |].
  exact (@quoted_string_literal_is_the_body RunLib.lib lex [97; 13; 10; 98] []
           eq_refl eq_refl eq_refl Hbody I).
Defined.

(** ** Scanning makes progress *)

Section ScanProgress.
Context `{GoLib}.
Import Progress.

Lemma skipSpaceLoop_spec (n : nat) :
  forall (rest : list rune) (pos : nat) (t : Lexer.lineTracker),
    (length rest <= n)%nat ->
    match Lexer.skipSpaceLoop rest pos t with
    | (true, pos', _) =>
        exists k r rest', pos' = (pos + k)%nat /\ drop k rest = r :: rest'
    | (false, pos', _) => pos' = (pos + length rest)%nat
    end.
Proof.
  induction n as [|n IH]; intros rest pos t Hn.
  - destruct rest; [simpl; lia | simpl in Hn; lia].
  - destruct rest as [|r rest']; [simpl; lia|].
    simpl in Hn.
    assert (Hone : forall t1,
              match Lexer.skipSpaceLoop rest' (S pos) t1 with
              | (true, pos', _) =>
                  exists k r0 rest0, pos' = (pos + k)%nat /\ drop k (r :: rest') = r0 :: rest0
              | (false, pos', _) => pos' = (pos + length (r :: rest'))%nat
              end).
    { intros t1. specialize (IH rest' (S pos) t1 ltac:(lia)).
      destruct (Lexer.skipSpaceLoop rest' (S pos) t1) as [[[] pos'] t'].
      - destruct IH as [k [r0 [rest0 [-> Hk]]]].
        exists (S k), r0, rest0. split; [lia | exact Hk].
      - simpl. lia. }
    cbn [Lexer.skipSpaceLoop].
    destruct (negb (IsSpace r)).
    { exists 0%nat, r, rest'. split; [lia | reflexivity]. }
    destruct (r =? 10); [apply Hone|].
    destruct (r =? 13); [|apply Hone].
    destruct rest' as [|r1 rest'']; [apply Hone|].
    destruct (r1 =? 10); [|apply Hone].
    simpl in Hn. specialize (IH rest'' (S (S pos)) (Lexer.next t (S pos)) ltac:(lia)).
    destruct (Lexer.skipSpaceLoop rest'' (S (S pos)) (Lexer.next t (S pos)))
      as [[[] pos'] t'].
    + destruct IH as [k [r0 [rest0 [-> Hk]]]].
      exists (S (S k)), r0, rest0. split; [lia | exact Hk].
    + simpl. lia.
Qed.

Lemma quotedStringLoop_spec (lex : Lexer.Lexer) (n : nat) :
  forall (rest : list rune) (i : nat) (runes : list rune) (t : Lexer.lineTracker),
    (length rest <= n)%nat ->
    match Lexer.quotedStringLoop lex rest i runes t with
    | (true, lex') =>
        Lexer.input lex' = Lexer.input lex /\ (i < Lexer.pos lex')%nat
    | (false, lex') => Lexer.err lex' <> None
    end.
Proof.
  induction n as [|n IH]; intros rest i runes t Hn.
  - destruct rest; [simpl; discriminate | simpl in Hn; lia].
  - destruct rest as [|c rest']; [simpl; discriminate|].
    simpl in Hn.
    assert (Hone : forall rs t1,
              match Lexer.quotedStringLoop lex rest' (S i) rs t1 with
              | (true, lex') =>
                  Lexer.input lex' = Lexer.input lex /\ (i < Lexer.pos lex')%nat
              | (false, lex') => Lexer.err lex' <> None
              end).
    { intros rs t1. specialize (IH rest' (S i) rs t1 ltac:(lia)).
      destruct (Lexer.quotedStringLoop lex rest' (S i) rs t1) as [[] lex'];
        [split; [apply IH | lia] | exact IH]. }
    assert (Htwo : forall rest'' rs t1, (length rest'' <= n)%nat ->
              match Lexer.quotedStringLoop lex rest'' (S (S i)) rs t1 with
              | (true, lex') =>
                  Lexer.input lex' = Lexer.input lex /\ (i < Lexer.pos lex')%nat
              | (false, lex') => Lexer.err lex' <> None
              end).
    { intros rest'' rs t1 Hlen. specialize (IH rest'' (S (S i)) rs t1 Hlen).
      destruct (Lexer.quotedStringLoop lex rest'' (S (S i)) rs t1) as [[] lex'];
        [split; [apply IH | lia] | exact IH]. }
    cbn [Lexer.quotedStringLoop].
    destruct (c =? Lexer.singleQuote).
    { destruct rest' as [|c1 rest'']; [simpl; split; [reflexivity | lia]|].
      destruct (c1 =? Lexer.singleQuote); [|simpl; split; [reflexivity | lia]].
      apply Htwo. simpl in Hn. lia. }
    destruct (c =? 10); [apply Hone|].
    destruct (c =? 13); [|apply Hone].
    destruct rest' as [|c1 rest'']; apply Hone.
Qed.

Lemma consumeRune_consumed (lex : Lexer.Lexer) (kind : Token.Kind) :
  consumed lex (Ok (Lexer.consumeRune lex kind)).
Proof. simpl. split; [reflexivity | lia]. Qed.

Lemma matchString_consumed (lex : Lexer.Lexer) (s : list rune) (kind : Token.Kind)
    (otherwise : Result (bool * Lexer.Lexer)) :
  (0 < length s)%nat ->
  consumed lex otherwise ->
  consumed lex
    (let '(ok, lex') := Lexer.matchString lex s kind in
     if ok : bool then Ok (true, lex') else otherwise).
Proof.
  intros Hs Hother. unfold Lexer.matchString.
  destruct (Lexer.hasPrefix s _); [|exact Hother].
  simpl. split; [reflexivity | lia].
Qed.

Lemma In_drop {A} (l : list A) (n : nat) (x : A) : In x (drop n l) -> In x l.
Proof.
  intros Hx. rewrite <- (take_drop n l). apply in_or_app. right. exact Hx.
Qed.

Lemma consumeNumber_consumed (lex : Lexer.Lexer) (r : rune) (rest : list rune) :
  drop (Lexer.pos lex) (Lexer.input lex) = r :: rest ->
  IsDigit r = true \/ r = 46 ->
  consumed lex (Lexer.consumeNumber lex).
Proof.
  intros Hdrop Hr. unfold Lexer.consumeNumber. rewrite Hdrop.
  remember (Lexer.numberLength (r :: rest)) as n eqn:Hn.
  destruct (n =? 0)%nat eqn:En.
  - apply Nat.eqb_eq in En. subst n. simpl in En.
    destruct (Lexer.isNumberRune r) eqn:Hnum; [discriminate En|].
    split; [reflexivity|]. exists r. split; [|split].
    + apply (In_drop _ (Lexer.pos lex)). rewrite Hdrop. left. reflexivity.
    + destruct Hr as [Hr|Hr]; [exact Hr | subst r; discriminate Hnum].
    + exact Hnum.
  - apply Nat.eqb_neq in En.
    destruct (ParseFloat _); simpl; [split; [reflexivity | lia] | discriminate].
Qed.

Lemma string_length_append (s1 s2 : string) :
  String.length (s1 ++ s2) = (String.length s1 + String.length s2)%nat.
Proof. induction s1 as [|c s1 IH]; simpl; [reflexivity | rewrite IH; reflexivity]. Qed.

Lemma string_of_runes_length (rs : list rune) :
  (length rs <= String.length (string_of_runes rs))%nat.
Proof.
  induction rs as [|r rs IH]; simpl; [lia|].
  rewrite string_length_append.
  assert (1 <= String.length (utf8Rune r))%nat; [|lia].
  unfold utf8Rune, utf8Error.
  repeat match goal with |- context [if ?b then _ else _] => destruct b end; simpl; lia.
Qed.

Lemma scanDefault_consumed (lex : Lexer.Lexer) (r : rune) (rest : list rune) :
  drop (Lexer.pos lex) (Lexer.input lex) = r :: rest ->
  consumed lex (Lexer.scanDefault lex r).
Proof.
  intros Hdrop. unfold Lexer.scanDefault.
  destruct (IsDigit r) eqn:Hdigit;
    [apply (consumeNumber_consumed lex r rest Hdrop); left; exact Hdigit|].
  unfold Lexer.nextWord. rewrite Hdrop.
  destruct (negb (IsLetter r) && negb (r =? 95)); cbn [mbind Result_bind].
  - simpl. discriminate.
  - set (word := Lexer.strings_ToLower (r :: take (Lexer.identLength rest) rest)).
    assert (Hword : (1 <= String.length word)%nat).
    { unfold word, Lexer.strings_ToLower.
      etransitivity; [|apply string_of_runes_length]. simpl. lia. }
    destruct (negb (String.eqb word EmptyString)); [|simpl; discriminate].
    destruct (Lexer.sqlKeywords !! word); simpl; (split; [reflexivity | lia]).
Qed.

Lemma consumeQuotedString_consumed (lex : Lexer.Lexer) (rest : list rune) :
  drop (Lexer.pos lex) (Lexer.input lex) = Lexer.singleQuote :: rest ->
  consumed lex (Lexer.consumeQuotedString lex).
Proof.
  intros Hdrop. unfold Lexer.consumeQuotedString. rewrite Hdrop.
  change (Lexer.singleQuote =? Lexer.singleQuote) with true. cbn [negb].
  pose proof (quotedStringLoop_spec lex (length rest) rest (S (Lexer.pos lex)) []
                (Lexer.newLineTracker lex) (Nat.le_refl _)) as Hloop.
  unfold consumed.
  destruct (Lexer.quotedStringLoop _ _ _ _ _) as [[] lex'];
    [split; [apply Hloop | lia] | exact Hloop].
Qed.

(** [Scan] returns true with fewer runes ahead; it returns false in the
    error state or, at the end of the input, on the invalid token with no
    rune ahead; its one panic is "expected a number". *)
Lemma Scan_spec (lex : Lexer.Lexer) :
  match Lexer.Scan lex with
  | Panic p => p = expectedANumber /\ strayDigit (Lexer.input lex)
  | Ok (true, lex') =>
      Lexer.input lex' = Lexer.input lex /\ (ahead lex' < ahead lex)%nat
  | Ok (false, lex') =>
      Lexer.err lex' <> None
      \/ (Token.Kind_ (Lexer.tok lex') = Token.Invalid /\ ahead lex' = 0%nat
          /\ Lexer.input lex' = Lexer.input lex)
  end.
Proof.
  unfold Lexer.Scan.
  destruct (Lexer.err lex) eqn:Herr; [left; rewrite Herr; discriminate|].
  set (lex0 := Lexer.withTok lex _).
  unfold Lexer.skipSpace.
  pose proof (skipSpaceLoop_spec _ (drop (Lexer.pos lex0) (Lexer.input lex0))
                (Lexer.pos lex0) (Lexer.newLineTracker lex0) (Nat.le_refl _)) as Hskip.
  destruct (Lexer.skipSpaceLoop _ _ _) as [[[] pos'] t'].
  - destruct Hskip as [k [r [rest [Hpos Hdrop]]]].
    rewrite drop_drop in Hdrop.
    set (lex1 := Lexer.sync t' (Lexer.withPos lex0 pos')).
    assert (Hdrop1 : drop (Lexer.pos lex1) (Lexer.input lex1) = r :: rest).
    { simpl. rewrite Hpos. exact Hdrop. }
    assert (Hlt : (Lexer.pos lex <= pos' < length (Lexer.input lex))%nat).
    { pose proof (f_equal length Hdrop) as Hl. rewrite length_drop in Hl.
      simpl in Hl, Hpos. lia. }
    cbn [negb]. rewrite Hdrop1.
    assert (Hfinish : forall out, consumed lex1 out ->
              match out with
              | Panic p => p = expectedANumber /\ strayDigit (Lexer.input lex)
              | Ok (true, lex') =>
                  Lexer.input lex' = Lexer.input lex /\ (ahead lex' < ahead lex)%nat
              | Ok (false, lex') =>
                  Lexer.err lex' <> None
                  \/ (Token.Kind_ (Lexer.tok lex') = Token.Invalid /\ ahead lex' = 0%nat
                      /\ Lexer.input lex' = Lexer.input lex)
              end).
    { intros [[[] lex']|p] Hout; simpl in Hout.
      - destruct Hout as [Hin Hp]. split; [rewrite Hin; reflexivity|].
        unfold ahead. rewrite Hin. simpl. lia.
      - left. exact Hout.
      - exact Hout. }
    apply Hfinish.
    repeat match goal with
           | |- consumed _ (if ?r =? ?c then _ else _) => destruct (r =? c) eqn:?
           end;
      try apply consumeRune_consumed;
      try (apply matchString_consumed; [simpl; lia|]);
      try apply consumeRune_consumed;
      try (apply (scanDefault_consumed lex1 r rest Hdrop1)).
    + destruct (IsDigit _);
        [ apply (consumeNumber_consumed lex1 r rest Hdrop1); right;
          apply Z.eqb_eq; assumption
        | apply consumeRune_consumed ].
    + apply (consumeQuotedString_consumed lex1 rest).
      rewrite Hdrop1. f_equal. apply Z.eqb_eq. assumption.
  - cbn [negb]. right. split; [reflexivity|]. split; [|reflexivity].
    unfold ahead. simpl. rewrite Hskip, length_drop. simpl. lia.
Qed.

End ScanProgress.

(** ** Parsing makes progress *)

Section ParseProgress.
Context `{GoLib}.
Import Progress.

Lemma eats_ends {A} (m : Parser.Action A) (lex : Lexer.Lexer) :
  eats m lex -> ends m lex.
Proof.
  intros [r [E Hr]]. exists r. split; [exact E|].
  destruct r as [[a lex']|p]; [split; [apply Hr | lia] | exact Hr].
Qed.

Lemma ends_ret {A} (a : A) (lex : Lexer.Lexer) : ends (Parser.ret a) lex.
Proof. exists (Ok (a, lex)). split; [reflexivity | simpl; split; [reflexivity | lia]]. Qed.

Lemma ends_bind {A B} (m : Parser.Action A) (k : A -> Parser.Action B)
    (lex : Lexer.Lexer) :
  ends m lex ->
  (forall a lex', (measure lex' <= measure lex)%nat -> ends (k a) lex') ->
  ends (m ≫= k) lex.
Proof.
  intros [r [E Hr]] Hk. unfold ends, eats, mbind, Parser.Action_bind, Parser.bind. rewrite E.
  destruct r as [[a lex']|p].
  - destruct Hr as [Hin Hm].
    destruct (Hk a lex' Hm) as [r' [E' Hr']]. exists r'. split; [exact E'|].
    rewrite Hin in Hr'.
    destruct r' as [[b lex'']|p]; [split; [apply Hr' | lia] | exact Hr'].
  - exists (Panic p). split; [reflexivity | exact Hr].
Qed.

Lemma ends_bind_eats {A B} (m : Parser.Action A) (k : A -> Parser.Action B)
    (lex : Lexer.Lexer) :
  eats m lex ->
  (forall a lex', (measure lex' < measure lex)%nat -> ends (k a) lex') ->
  eats (m ≫= k) lex.
Proof.
  intros [r [E Hr]] Hk. unfold ends, eats, mbind, Parser.Action_bind, Parser.bind. rewrite E.
  destruct r as [[a lex']|p].
  - destruct Hr as [Hin Hm].
    destruct (Hk a lex' Hm) as [r' [E' Hr']]. exists r'. split; [exact E'|].
    rewrite Hin in Hr'.
    destruct r' as [[b lex'']|p]; [split; [apply Hr' | lia] | exact Hr'].
  - exists (Panic p). split; [reflexivity | exact Hr].
Qed.

Lemma ends_bind_kind {B} (k : Token.Kind -> Parser.Action B) (lex : Lexer.Lexer) :
  ends (k (Token.Kind_ (Lexer.tok lex))) lex -> ends (Parser.kind ≫= k) lex.
Proof. intros Hk. exact Hk. Qed.

Lemma eats_bind_kind {B} (k : Token.Kind -> Parser.Action B) (lex : Lexer.Lexer) :
  eats (k (Token.Kind_ (Lexer.tok lex))) lex -> eats (Parser.kind ≫= k) lex.
Proof. intros Hk. exact Hk. Qed.

Lemma eats_errorf {A} (format : string) (args : list fmtArg) (lex : Lexer.Lexer) :
  eats (@Parser.errorf A format args) lex.
Proof. eexists. split; [reflexivity | exact I]. Qed.

Lemma eats_expected {A} (kinds : list Token.Kind) (lex : Lexer.Lexer) :
  eats (@Parser.expected A kinds) lex.
Proof. eexists. split; [reflexivity | exact I]. Qed.

(** Past a token that is not the invalid one, [next] leaves less to
    parse. *)
Lemma eats_next (lex : Lexer.Lexer) :
  Token.Kind_ (Lexer.tok lex) <> Token.Invalid -> eats Parser.next lex.
Proof.
  intros Hvalid. unfold eats, Parser.next.
  pose proof (Scan_spec lex) as Hscan.
  assert (Hm : measure lex = S (ahead lex)).
  { unfold measure. destruct (decide _); [contradiction | reflexivity]. }
  destruct (Lexer.Scan lex) as [[b lex']|p].
  - unfold Lexer.Err. destruct (Lexer.err lex') eqn:Herr.
    + eexists. split; [reflexivity | exact I].
    + eexists. split; [reflexivity|]. rewrite Hm.
      destruct b.
      * destruct Hscan as [Hin Hlt]. split; [exact Hin|].
        unfold measure. destruct (decide _); lia.
      * destruct Hscan as [Hne|[Hinv [Hzero Hin]]]; [contradiction|].
        split; [exact Hin|].
        unfold measure. rewrite Hzero.
        destruct (decide _); [lia | contradiction].
  - destruct Hscan as [-> Hstray]. eexists. split; [reflexivity|].
    split; [reflexivity | exact Hstray].
Qed.

Lemma eats_skip (k : Token.Kind) (lex : Lexer.Lexer) :
  k <> Token.Invalid -> eats (Parser.skip k) lex.
Proof.
  intros Hk. unfold Parser.skip. apply eats_bind_kind.
  destruct (decide _) as [E|_]; [|apply eats_errorf].
  apply ends_bind_eats; [apply eats_next; congruence|].
  intros _ lex' _. apply ends_ret.
Qed.

Lemma eats_match (k : Token.Kind) (lex : Lexer.Lexer) :
  k <> Token.Invalid -> eats (Parser.match_ k) lex.
Proof.
  intros Hk. unfold Parser.match_. apply eats_bind_kind.
  destruct (decide _) as [E|_]; [apply eats_next; congruence | apply eats_expected].
Qed.

Lemma eats_parseIdent (lex : Lexer.Lexer) : eats Parser.parseIdent lex.
Proof.
  unfold Parser.parseIdent. apply ends_bind_eats; [apply eats_match; discriminate|].
  intros t lex' _. apply ends_ret.
Qed.

Lemma eats_parseNumberLiteral (lex : Lexer.Lexer) : eats Parser.parseNumberLiteral lex.
Proof.
  unfold Parser.parseNumberLiteral.
  apply ends_bind_eats; [apply eats_match; discriminate|].
  intros t lex' _. destruct (Parser.allDigits _); apply ends_ret.
Qed.

(** One step of a proof that an action ends: the head of a chain of
    binds is dealt with, and the measure it leaves is kept as a
    hypothesis for [lia].  A call of a parser that takes fuel is looked
    up among the hypotheses. *)
Ltac parse_call :=
  match goal with
  | IH : _ |- _ => solve [apply IH; solve [lia | assumption]]
  | IH : _ |- _ => solve [apply IH; [assumption | lia]]
  | IH : _ |- _ => solve [apply IH; [lia | lia]]
  end.

Ltac parse_step :=
  lazymatch goal with
  | |- ends (Parser.ret _) _ => apply ends_ret
  | |- ends (mret _) _ => apply ends_ret
  | |- ends (Parser.kind ≫= _) _ => apply ends_bind_kind
  | |- ends (Parser.skip _ ≫= _) _ =>
      apply eats_ends, ends_bind_eats; [apply eats_skip; discriminate | intros ? ? ?]
  | |- ends (Parser.match_ _ ≫= _) _ =>
      apply eats_ends, ends_bind_eats; [apply eats_match; discriminate | intros ? ? ?]
  | |- ends (Parser.match_ _) _ => apply eats_ends, eats_match; discriminate
  | |- ends (Parser.next ≫= _) _ =>
      apply eats_ends, ends_bind_eats; [apply eats_next; congruence | intros ? ? ?]
  | |- ends (Parser.parseIdent ≫= _) _ =>
      apply eats_ends, ends_bind_eats; [apply eats_parseIdent | intros ? ? ?]
  | |- ends (Parser.expected _) _ => apply eats_ends, eats_expected
  | |- ends (Parser.expected _ ≫= _) _ =>
      apply eats_ends, ends_bind_eats; [apply eats_expected | intros ? ? ?]
  | |- ends Parser.parseNumberLiteral _ => apply eats_ends, eats_parseNumberLiteral
  | |- ends (match Token.Kind_ (Lexer.tok ?l) with _ => _ end) _ =>
      let E := fresh "Hkind" in destruct (Token.Kind_ (Lexer.tok l)) eqn:E
  | |- ends (match Token.Kind_ (Lexer.tok ?l) with _ => _ end ≫= _) _ =>
      apply ends_bind;
      [ let E := fresh "Hkind" in
        destruct (Token.Kind_ (Lexer.tok l)) eqn:E; solve [repeat parse_step]
      | intros ? ? ? ]
  | |- ends (let '(_, _) := ?p in _) _ => destruct p
  | |- ends ((if ?b then _ else _) ≫= _) _ =>
      apply ends_bind; [destruct b; solve [repeat parse_step] | intros ? ? ?]
  | |- ends (Parser.ret _ ≫= _) _ => apply ends_bind; [apply ends_ret | intros ? ? ?]
  | |- ends (_ ≫= _) _ => apply ends_bind; [parse_call | intros ? ? ?]
  | |- ends _ _ => parse_call
  end.

Lemma precedence_valid (op : Token.Kind) (minPrec : Z) :
  1 <= minPrec -> (Token.Precedence op <? minPrec) = false -> op <> Token.Invalid.
Proof. intros Hmin Hprec ->. simpl in Hprec. lia. Qed.

(** With fuel for four calls a token and a few more, the expression
    parsers end. *)
Lemma expression_parsers_end (fuel : nat) :
  (forall minPrec lex, 1 <= minPrec -> (4 * measure lex + 2 <= fuel)%nat ->
     ends (Parser.parseBinaryExpr fuel minPrec) lex)
  /\ (forall minPrec expr lex, 1 <= minPrec -> (4 * measure lex + 1 <= fuel)%nat ->
        ends (Parser.binaryExprLoop fuel minPrec expr) lex)
  /\ (forall lex, (4 * measure lex + 1 <= fuel)%nat ->
        ends (Parser.parseUnaryExpr fuel) lex)
  /\ (forall lex, (4 * measure lex + 4 <= fuel)%nat ->
        ends (Parser.parseSelectExprList fuel) lex)
  /\ (forall exprs lex, (4 * measure lex + 1 <= fuel)%nat ->
        ends (Parser.selectExprListLoop fuel exprs) lex)
  /\ (forall lex, (4 * measure lex + 3 <= fuel)%nat ->
        ends (Parser.parseExprOrStar fuel) lex).
Proof.
  induction fuel as [|fuel IH].
  { repeat split; intros; lia. }
  destruct IH as [IHbin [IHloop [IHun [IHlist [IHlistloop IHstar]]]]].
  repeat split.
  - (* parseBinaryExpr *)
    intros minPrec lex Hmin Hfuel. cbn [Parser.parseBinaryExpr].
    apply ends_bind; [apply IHun; lia|]. intros expr lex1 H1.
    apply IHloop; [exact Hmin | lia].
  - (* binaryExprLoop *)
    intros minPrec expr lex Hmin Hfuel. cbn [Parser.binaryExprLoop].
    parse_step. cbv zeta.
    destruct (Token.Precedence _ <? minPrec) eqn:Hprec; [apply ends_ret|].
    apply eats_ends, ends_bind_eats;
      [apply eats_skip; exact (precedence_valid _ _ Hmin Hprec)|].
    intros _ lex1 H1.
    apply ends_bind; [apply IHbin; lia|]. intros rhs lex2 H2.
    apply IHloop; [exact Hmin | lia].
  - (* parseUnaryExpr *)
    intros lex Hfuel. cbn [Parser.parseUnaryExpr]. repeat parse_step.
  - (* parseSelectExprList *)
    intros lex Hfuel. cbn [Parser.parseSelectExprList].
    apply ends_bind; [apply IHstar; lia|]. intros e lex1 H1.
    apply IHlistloop; lia.
  - (* selectExprListLoop *)
    intros exprs lex Hfuel. cbn [Parser.selectExprListLoop]. repeat parse_step.
  - (* parseExprOrStar *)
    intros lex Hfuel. cbn [Parser.parseExprOrStar]. repeat parse_step.
Qed.

Lemma parseExpr_ends (fuel : nat) (lex : Lexer.Lexer) :
  (4 * measure lex + 2 <= fuel)%nat -> ends (Parser.parseExpr fuel) lex.
Proof.
  intros Hfuel. unfold Parser.parseExpr.
  apply (proj1 (expression_parsers_end fuel)); lia.
Qed.

Lemma parseSelectExprList_ends (fuel : nat) (lex : Lexer.Lexer) :
  (4 * measure lex + 4 <= fuel)%nat -> ends (Parser.parseSelectExprList fuel) lex.
Proof.
  intros Hfuel.
  destruct (expression_parsers_end fuel) as [_ [_ [_ [Hlist _]]]]. apply Hlist. lia.
Qed.

Lemma exprListLoop_ends (fuel : nat) :
  forall exprs lex, (4 * measure lex + 1 <= fuel)%nat ->
    ends (Parser.exprListLoop fuel exprs) lex.
Proof.
  induction fuel as [|fuel IH]; intros exprs lex Hfuel; [lia|].
  pose proof (parseExpr_ends fuel) as Hexpr.
  cbn [Parser.exprListLoop]. repeat parse_step.
Qed.

Lemma parseExprList_ends (fuel : nat) (lex : Lexer.Lexer) :
  (4 * measure lex + 2 <= fuel)%nat -> ends (Parser.parseExprList fuel) lex.
Proof.
  intros Hfuel.
  pose proof (parseExpr_ends fuel) as Hexpr.
  pose proof (exprListLoop_ends fuel) as Hloop.
  unfold Parser.parseExprList. repeat parse_step.
Qed.

Lemma parseWhere_ends (fuel : nat) (lex : Lexer.Lexer) :
  (4 * measure lex + 2 <= fuel)%nat -> ends (Parser.parseWhere fuel) lex.
Proof.
  intros Hfuel.
  pose proof (parseExpr_ends fuel) as Hexpr.
  unfold Parser.parseWhere. repeat parse_step.
Qed.

Lemma columnDefinitionsLoop_ends (fuel : nat) :
  forall columns lex, (4 * measure lex + 1 <= fuel)%nat ->
    ends (Parser.columnDefinitionsLoop fuel columns) lex.
Proof.
  induction fuel as [|fuel IH]; intros columns lex Hfuel; [lia|].
  cbn [Parser.columnDefinitionsLoop]. repeat parse_step.
Qed.

Lemma parseColumnDefinitions_ends (fuel : nat) (lex : Lexer.Lexer) :
  (4 * measure lex + 1 <= fuel)%nat -> ends (Parser.parseColumnDefinitions fuel) lex.
Proof.
  intros Hfuel.
  pose proof (columnDefinitionsLoop_ends fuel) as Hloop.
  unfold Parser.parseColumnDefinitions. repeat parse_step.
Qed.

Lemma identListLoop_ends (fuel : nat) :
  forall columns lex, (4 * measure lex + 1 <= fuel)%nat ->
    ends (Parser.identListLoop fuel columns) lex.
Proof.
  induction fuel as [|fuel IH]; intros columns lex Hfuel; [lia|].
  cbn [Parser.identListLoop]. repeat parse_step.
Qed.

Lemma assignmentsLoop_ends (fuel : nat) :
  forall columns values lex, (4 * measure lex + 1 <= fuel)%nat ->
    ends (Parser.assignmentsLoop fuel columns values) lex.
Proof.
  induction fuel as [|fuel IH]; intros columns values lex Hfuel; [lia|].
  pose proof (parseExpr_ends fuel) as Hexpr.
  cbn [Parser.assignmentsLoop]. repeat parse_step.
Qed.

Lemma parseStmt_ends (fuel : nat) (lex : Lexer.Lexer) :
  (4 * measure lex + 4 <= fuel)%nat -> ends (Parser.parseStmt fuel) lex.
Proof.
  intros Hfuel.
  pose proof (parseExpr_ends fuel) as Hexpr.
  pose proof (parseWhere_ends fuel) as Hwhere.
  pose proof (parseSelectExprList_ends fuel) as Hselect.
  pose proof (parseExprList_ends fuel) as Hlist.
  pose proof (parseColumnDefinitions_ends fuel) as Hcolumns.
  pose proof (identListLoop_ends fuel) as Hidents.
  pose proof (assignmentsLoop_ends fuel) as Hassign.
  unfold Parser.parseStmt, Parser.parseCreateTableStmt, Parser.parseSelectStmt, Parser.parseInsertStmt, Parser.parseUpdateStmt,
    Parser.parseDeleteStmt.
  repeat parse_step.
Qed.

Lemma stmtListLoop_ends (fuel : nat) :
  forall stmts lex, (4 * measure lex + 5 <= fuel)%nat ->
    ends (Parser.stmtListLoop fuel stmts) lex.
Proof.
  induction fuel as [|fuel IH]; intros stmts lex Hfuel; [lia|].
  pose proof (parseStmt_ends fuel) as Hstmt.
  cbn [Parser.stmtListLoop]. repeat parse_step.
Qed.

(** With fuel for four calls a rune and a few more, the body of [Parse]
    ends, and [Parse] returns what the body returned; a panic of the
    body with an error is the error that [Parse] returns; the one other
    panic, "expected a number" at a stray digit, leaves [Parse]. *)
Lemma Parse_reports (lex : Lexer.Lexer) (fuel : nat) :
  (4 * length (Lexer.input lex) + 9 <= fuel)%nat ->
  match Parser.parseBody fuel lex with
  | None => False
  | Some (Ok results) => Parser.Parse fuel lex = Some (Ok results)
  | Some (Panic (PanicError e)) => Parser.Parse fuel lex = Some (Ok ([], Some e))
  | Some (Panic p) =>
      Parser.Parse fuel lex = Some (Panic p)
      /\ p = expectedANumber /\ strayDigit (Lexer.input lex)
  end.
Proof.
  intros Hfuel. unfold Parser.Parse, Parser.parseBody.
  pose proof (Scan_spec lex) as Hscan.
  destruct (Lexer.Scan lex) as [[[] lex1]|p].
  - destruct Hscan as [Hin Hlt].
    destruct (Lexer.Err lex1); [reflexivity|].
    assert (Hm : (4 * measure lex1 + 5 <= fuel)%nat).
    { unfold measure, ahead in *. destruct (decide _); lia. }
    destruct (stmtListLoop_ends fuel [] lex1 Hm) as [r [E Hr]].
    unfold Parser.parseStmtList. rewrite E.
    destruct r as [[stmts lex2]|[e|msg args]].
    + reflexivity.
    + reflexivity.
    + destruct Hr as [Hp Hstray]. rewrite Hin in Hstray.
      split; [reflexivity | split; [exact Hp | exact Hstray]].
  - reflexivity.
  - destruct Hscan as [-> Hstray]. split; [reflexivity | split; [reflexivity | exact Hstray]].
Qed.

(** [Scan] at a rune beyond ASCII that [unicode.IsDigit] takes for a digit
    goes into [consumeNumber], whose loop passes no rune. *)
Lemma Scan_at_a_stray_digit (lex : Lexer.Lexer) (r : rune) (rest : list rune) :
  Lexer.err lex = None ->
  drop (Lexer.pos lex) (Lexer.input lex) = r :: rest ->
  128 <= r ->
  IsSpace r = false ->
  IsDigit r = true ->
  Lexer.Scan lex = Panic expectedANumber.
Proof.
  intros Herr Hinput Hr Hspace Hdigit.
  unfold Lexer.Scan. rewrite Herr.
  unfold Lexer.skipSpace. cbn [Lexer.withTok Lexer.pos Lexer.input].
  rewrite Hinput. cbn [Lexer.skipSpaceLoop]. rewrite Hspace.
  cbn [negb Lexer.sync Lexer.withPos Lexer.withTok Lexer.pos Lexer.input].
  rewrite Hinput.
  repeat match goal with
         | |- (if r =? ?c then _ else _) = _ =>
             destruct (r =? c) eqn:E;
             [apply Z.eqb_eq in E; unfold Lexer.singleQuote in E; lia | clear E]
         end.
  unfold Lexer.scanDefault. rewrite Hdigit.
  unfold Lexer.consumeNumber.
  cbn [Lexer.sync Lexer.withPos Lexer.withTok Lexer.pos Lexer.input].
  rewrite Hinput. cbn [Lexer.numberLength].
  assert (Hnumber : Lexer.isNumberRune r = false).
  { unfold Lexer.isNumberRune.
    destruct (r <=? 57) eqn:E1; [apply Z.leb_le in E1; lia|].
    destruct (r =? 46) eqn:E2; [apply Z.eqb_eq in E2; lia|].
    destruct (r =? 101) eqn:E3; [apply Z.eqb_eq in E3; lia|].
    rewrite andb_false_r. reflexivity. }
  rewrite Hnumber. reflexivity.
Qed.

(** The deferred function of [EvalStmt] makes an error of every panic of
    the body, and does not panic itself: [EvalStmt] returns what the body
    returned, or the error the body panicked with, or an error made of
    the value it panicked with. *)
Lemma EvalStmt_reports (env : Evaluator.Environment) (stmt : Ast.Node) :
  match Evaluator.evalStmtBody env stmt with
  | (Ok results, env') => Evaluator.EvalStmt env stmt = (Ok results, env')
  | (Panic (PanicError e), env') =>
      Evaluator.EvalStmt env stmt = (Ok (None, Some e), env')
  | (Panic (PanicString msg args), env') =>
      exists pos,
        Evaluator.EvalStmt env stmt
        = (Ok (None, Some (EvalError "%s" [ASprintf msg args] pos)), env')
  end.
Proof.
  unfold Evaluator.EvalStmt.
  destruct (Evaluator.evalStmtBody env stmt) as [[res|[e|msg args]] env'] eqn:E.
  - reflexivity.
  - reflexivity.
  - destruct stmt; try (eexists; reflexivity).
    simpl in E. discriminate E.
Qed.

(** C9: a panic leaves [Parse].  [Scan] chooses [consumeNumber] at every
    rune that [unicode.IsDigit] accepts, and the loop of [consumeNumber]
    passes the runes 0 to 9, the dot and the letter e only: at a digit of
    another script it has passed nothing, and its check panics with the
    string "expected a number", which is no error value, so that the
    deferred function of [Parse] raises it again.  That is the one panic
    that leaves [Parse]: with fuel for the input the body ends, and
    [Parse] returns its results, or the error it panicked with.
    [EvalStmt] returns every panic of its body as an error. *)
Theorem Parse_lets_the_panic_of_the_lexer_escape :
  (forall (lex : Lexer.Lexer) (r : rune) (rest : list rune),
     Lexer.err lex = None ->
     drop (Lexer.pos lex) (Lexer.input lex) = r :: rest ->
     128 <= r -> IsSpace r = false -> IsDigit r = true ->
     Lexer.Scan lex = Panic (PanicString "expected a number" []))
  /\ (forall (r : rune) (rest : list rune) (fuel : nat),
        128 <= r -> IsSpace r = false -> IsDigit r = true ->
        Parser.Parse fuel (Lexer.New (r :: rest))
        = Some (Panic (PanicString "expected a number" [])))
  /\ (forall (lex : Lexer.Lexer) (fuel : nat),
        (4 * length (Lexer.input lex) + 9 <= fuel)%nat ->
        match Parser.parseBody fuel lex with
        | None => False
        | Some (Ok results) => Parser.Parse fuel lex = Some (Ok results)
        | Some (Panic (PanicError e)) =>
            Parser.Parse fuel lex = Some (Ok ([], Some e))
        | Some (Panic p) =>
            Parser.Parse fuel lex = Some (Panic p)
            /\ p = PanicString "expected a number" []
            /\ exists r, In r (Lexer.input lex) /\ IsDigit r = true
                         /\ Lexer.isNumberRune r = false
        end)
  /\ (forall (env : Evaluator.Environment) (stmt : Ast.Node),
        match Evaluator.evalStmtBody env stmt with
        | (Ok results, env') => Evaluator.EvalStmt env stmt = (Ok results, env')
        | (Panic (PanicError e), env') =>
            Evaluator.EvalStmt env stmt = (Ok (None, Some e), env')
        | (Panic (PanicString msg args), env') =>
            exists pos,
              Evaluator.EvalStmt env stmt
              = (Ok (None, Some (EvalError "%s" [ASprintf msg args] pos)), env')
        end).
Proof.
  split; [exact Scan_at_a_stray_digit|].
  split; [|split; [exact Parse_reports | exact EvalStmt_reports]].
  intros r rest fuel Hr Hspace Hdigit.
  unfold Parser.Parse, Parser.parseBody.
  rewrite (Scan_at_a_stray_digit (Lexer.New (r :: rest)) r rest eq_refl eq_refl
             Hr Hspace Hdigit).
  reflexivity.
Qed.

End ParseProgress.

(** The input U+0663, ARABIC-INDIC DIGIT THREE, and a semicolon: [Parse]
    panics, whatever the fuel. *)
Lemma Parse_lets_the_panic_of_the_lexer_escape_sample :
  (128 <= 1635 /\ @IsSpace RunLib.lib 1635 = false /\ @IsDigit RunLib.lib 1635 = true)
  /\ @Parser.Parse RunLib.lib 0 (Lexer.New [1635; 59])
     = Some (Panic (PanicString "expected a number" [])).
Proof.
  assert (Hr : 128 <= 1635) by lia.
  assert (Hspace : @IsSpace RunLib.lib 1635 = false) by reflexivity.
  assert (Hdigit : @IsDigit RunLib.lib 1635 = true) by reflexivity.
  split; [split; [exact Hr | split; [exact Hspace | exact Hdigit]]|].
  exact (proj1 (proj2 (@Parse_lets_the_panic_of_the_lexer_escape RunLib.lib))
           1635 [59] 0%nat Hr Hspace Hdigit).
Defined.

(** SELECT of the same digit, U+0663, FROM t: the panic is raised at the
    second token, in the middle of the statement, and leaves [Parse] as
    well; with the digit 3 in its place the statement is parsed. *)
Example Parse_select_a_digit_of_another_script :
  @Parser.Parse RunLib.lib 100 (Lexer.New (Sample.runes "select " ++ 1635 :: Sample.runes " from t;"))
  = Some (Panic (PanicString "expected a number" []))
  /\ (exists stmt,
        @Parser.Parse RunLib.lib 100 (Lexer.New (Sample.runes "select 3 from t;"))
        = Some (Ok ([stmt], None))).
Proof.
  split; [vm_compute; reflexivity|].
  eexists. vm_compute. reflexivity.
Qed.

(** The input @: the lexer fails on the first token, and [Parse], which
    looks at the result of [Scan] before it looks at the error, returns
    no statement and no error. *)
Example Parse_unexpected_character_at_the_start :
  @Parser.Parse RunLib.lib 100 (Lexer.New (Sample.runes "@")) = Some (Ok ([], None))
  /\ (exists lex e,
        @Lexer.Scan RunLib.lib (Lexer.New (Sample.runes "@")) = Ok (false, lex)
        /\ Lexer.Err lex = Some e).
Proof.
  split; [vm_compute; reflexivity|].
  eexists _, _. split; vm_compute; reflexivity.
Qed.

(** * Further properties *)

(** ** Columns and rows: [colIndex] and [lookup] *)

Section Columns.
Context `{GoLib}.
Import Notions.

Lemma colIndexFrom_first (cols : list Evaluator.Column) (name : string) :
  forall k : Z,
    (Evaluator.colIndexFrom cols name k = -1
     /\ Forall (fun c => Evaluator.Name c <> name) cols)
    \/ (exists (i : nat) (c : Evaluator.Column),
          Evaluator.colIndexFrom cols name k = k + Z.of_nat i
          /\ cols !! i = Some c /\ Evaluator.Name c = name
          /\ Forall (fun c' => Evaluator.Name c' <> name) (take i cols)).
Proof.
  induction cols as [|c rest IH]; intros k; simpl.
  - left. split; [reflexivity | constructor].
  - destruct (String.eqb (Evaluator.Name c) name) eqn:E.
    + right. exists 0%nat, c. apply String.eqb_eq in E.
      split; [lia|]. split; [reflexivity|]. split; [exact E | constructor].
    + apply String.eqb_neq in E.
      destruct (IH (k + 1)) as [[-> Hall]|[i [c' [-> [Hi [Hc Hall]]]]]].
      * left. split; [reflexivity | constructor; assumption].
      * right. exists (S i), c'. split; [lia|]. split; [exact Hi|].
        split; [exact Hc | simpl; constructor; assumption].
Qed.

(** X1: [colIndex] returns -1 exactly when no column has the name, and
    otherwise the index of the first column that has it. *)
Theorem colIndex_is_the_first_column_of_that_name
    (t : Evaluator.Table) (name : string) :
  (Evaluator.colIndex t name = -1
   /\ Forall (fun c => Evaluator.Name c <> name) (Evaluator.Columns t))
  \/ (exists (i : nat) (c : Evaluator.Column),
        Evaluator.colIndex t name = Z.of_nat i
        /\ Evaluator.Columns t !! i = Some c /\ Evaluator.Name c = name
        /\ Forall (fun c' => Evaluator.Name c' <> name) (take i (Evaluator.Columns t))).
Proof.
  unfold Evaluator.colIndex.
  destruct (colIndexFrom_first (Evaluator.Columns t) name 0) as [Hno|[i [c [E Hrest]]]].
  - left. exact Hno.
  - right. exists i, c. split; [rewrite E; lia | exact Hrest].
Qed.

(** X2: on a row as wide as the table, looking a name up gives the value
    under the first column of that name; it fails only when the table has
    no such column, and then with "column does not exist". *)
Theorem lookup_reads_the_first_column_of_that_name
    (table : Evaluator.Table) (row : Evaluator.Row) (name : string) :
  length row = length (Evaluator.Columns table) ->
  match Evaluator.lookup (Evaluator.currentRow table row) name with
  | Ok v =>
      exists (i : nat) (c : Evaluator.Column),
        Evaluator.Columns table !! i = Some c /\ Evaluator.Name c = name
        /\ row !! i = Some v
        /\ Forall (fun c' => Evaluator.Name c' <> name) (take i (Evaluator.Columns table))
  | Panic p =>
      p = PanicError (Errorf "column %q does not exist" [AStr name])
      /\ Forall (fun c => Evaluator.Name c <> name) (Evaluator.Columns table)
  end.
Proof.
  intros Hlen. unfold Evaluator.lookup, Evaluator.colIndex.
  destruct (colIndexFrom_first (Evaluator.Columns table) name 0)
    as [[-> Hall]|[i [c [-> [Hi [Hc Hall]]]]]].
  - simpl. split; [reflexivity | exact Hall].
  - replace (0 <=? 0 + Z.of_nat i) with true by (symmetry; apply Z.leb_le; lia).
    replace (Z.to_nat (0 + Z.of_nat i)) with i by lia.
    destruct (row !! i) as [v|] eqn:Hv.
    + exists i, c. repeat split; assumption.
    + exfalso. apply lookup_ge_None in Hv. apply lookup_lt_Some in Hi. lia.
Qed.

End Columns.

Lemma lookup_reads_the_first_column_of_that_name_sample :
  length [IntegerValue 1; IntegerValue 2] = length (Evaluator.Columns Sample.t)
  /\ match Evaluator.lookup (Evaluator.currentRow Sample.t [IntegerValue 1; IntegerValue 2]) "b" with
     | Ok v =>
         exists (i : nat) (c : Evaluator.Column),
           Evaluator.Columns Sample.t !! i = Some c /\ Evaluator.Name c = "b"
           /\ [IntegerValue 1; IntegerValue 2] !! i = Some v
           /\ Forall (fun c' => Evaluator.Name c' <> "b") (take i (Evaluator.Columns Sample.t))
     | Panic p =>
         p = PanicError (Errorf "column %q does not exist" [AStr "b"])
         /\ Forall (fun c => Evaluator.Name c <> "b") (Evaluator.Columns Sample.t)
     end.
Proof.
  split; [reflexivity|].
  exact (lookup_reads_the_first_column_of_that_name Sample.t
           [IntegerValue 1; IntegerValue 2] "b" eq_refl).
Defined.

(** ** Relations: [CreateTable] *)

Section Relations.
Context `{GoLib}.

Lemma duplicateColumn_Some (cols : list Evaluator.Column) :
  forall (seen : gset string) (name : string),
    Evaluator.duplicateColumn seen cols = Some name ->
    ~ (NoDup (map Evaluator.Name cols)
       /\ forall n, n ∈ map Evaluator.Name cols -> n ∉ seen).
Proof.
  induction cols as [|c rest IH]; intros seen name E [Hnd Hseen]; simpl in *;
    [discriminate E|].
  destruct (decide (Evaluator.Name c ∈ seen)) as [Hc|Hc].
  - apply (Hseen (Evaluator.Name c)); [left | exact Hc].
  - apply NoDup_cons in Hnd as [Hnotin Hnd].
    apply (IH _ _ E). split; [exact Hnd|].
    intros n Hn Hs. apply elem_of_union in Hs as [Hs|Hs].
    + apply elem_of_singleton in Hs. subst n. contradiction.
    + apply (Hseen n); [right; exact Hn | exact Hs].
Qed.

(** X3: [CreateTable] adds the table exactly when no relation has its
    name and no two of its columns share a name; otherwise it returns an
    error and leaves the environment as it was. *)
Theorem CreateTable_adds_only_a_new_relation
    (env : Evaluator.Environment) (table : Evaluator.Table) :
  match Evaluator.CreateTable env table with
  | (None, env') =>
      Evaluator.tables env !! Evaluator.TName table = None
      /\ NoDup (map Evaluator.Name (Evaluator.Columns table))
      /\ Evaluator.tables env'
         = <[Evaluator.TName table := table]> (Evaluator.tables env)
  | (Some _, env') =>
      env' = env
      /\ (Evaluator.tables env !! Evaluator.TName table <> None
          \/ ~ NoDup (map Evaluator.Name (Evaluator.Columns table)))
  end.
Proof.
  unfold Evaluator.CreateTable.
  destruct (Evaluator.tables env !! Evaluator.TName table) eqn:Htab.
  - split; [reflexivity | left; discriminate].
  - destruct (Evaluator.duplicateColumn ∅ (Evaluator.Columns table)) eqn:Hdup.
    + split; [reflexivity | right]. intros Hnd.
      apply (duplicateColumn_Some _ _ _ Hdup). split; [exact Hnd|].
      intros n _. apply not_elem_of_empty.
    + split; [reflexivity|]. split; [|reflexivity].
      apply (duplicateColumn_None _ _ Hdup).
Qed.

End Relations.

(** ** Coercion, and the row an [insert] stores *)

Section Coercion.
Context `{GoLib}.
Import Notions.

(** X4: a coercion that succeeds gives a value of the data type asked
    for, and coercing that value again changes nothing. *)
Theorem coerce_gives_the_type_and_is_idempotent
    (v v' : Value) (t : DataType.t) :
  Evaluator.coerce v t = Ok v' ->
  hasType v' t = true /\ Evaluator.coerce v' t = Ok v'.
Proof.
  intros E. destruct t; simpl in E.
  - discriminate E.
  - destruct (Evaluator.toBoolean v) eqn:Hv; inversion E; subst. split; reflexivity.
  - destruct (Evaluator.toInteger v) eqn:Hv; inversion E; subst. split; reflexivity.
  - destruct (Evaluator.toNumber v) eqn:Hv; inversion E; subst. split; reflexivity.
  - destruct (Evaluator.toString v) eqn:Hv; inversion E; subst. split; reflexivity.
  - destruct (Evaluator.toTimestamp v) eqn:Hv; inversion E; subst. split; reflexivity.
Qed.

Lemma checkValue_fits (col : Evaluator.Column) (v v' : Value) :
  Evaluator.checkValue col v = Ok v' -> fits col v'.
Proof.
  unfold Evaluator.checkValue, fits. intros E.
  assert (Hco : forall w, Evaluator.coerce w (Evaluator.Type_ col) = Ok v' ->
                  match v' with
                  | Nil => Evaluator.Nullable col = true
                  | _ => hasType v' (Evaluator.Type_ col) = true
                  end).
  { intros w Hw. destruct (Evaluator.Type_ col); simpl in Hw;
      [discriminate Hw | | | | |];
      match type of Hw with
      | context [mbind _ ?m] => destruct m; inversion Hw; subst; reflexivity
      end. }
  destruct v; try (apply (Hco _ E)).
  destruct (Evaluator.Nullable col) eqn:Hn; inversion E; subst. reflexivity.
Qed.

Lemma checkRow_fits (row : list Value) :
  forall (cols : list Evaluator.Column) (row' : list Value),
    length row = length cols ->
    Evaluator.checkRow row cols = Ok row' ->
    Forall2 fits cols row'.
Proof.
  induction row as [|v rest IH]; intros cols row' Hlen E.
  - destruct cols; [|discriminate Hlen]. inversion E. constructor.
  - destruct cols as [|col cols]; [discriminate Hlen|]. simpl in E.
    destruct (Evaluator.checkValue col v) as [v'|] eqn:Hv; [|discriminate E]. simpl in E.
    destruct (Evaluator.checkRow rest cols) as [vs|] eqn:Hrest; [|discriminate E].
    inversion E; subst. constructor.
    + exact (checkValue_fits col v v' Hv).
    + apply (IH cols vs); [simpl in Hlen; lia | exact Hrest].
Qed.

Lemma placeValues_length (cols : list Evaluator.Column) (names : list string)
    (values : list Value) :
  length (snd (Evaluator.placeValues cols names values)) = length cols
  /\ forall row, fst (Evaluator.placeValues cols names values) = Ok row ->
       length row = length cols.
Proof.
  induction cols as [|col rest IH]; simpl.
  - split; [reflexivity|]. intros row E. inversion E. reflexivity.
  - destruct IH as [IHc IHr].
    destruct (Evaluator.nameIndex names (Evaluator.Name col) 0) as [j|].
    + destruct (values !! j) as [v|]; [|split; [reflexivity | intros row E; discriminate E]].
      destruct (Evaluator.placeValues rest names values) as [r rest'].
      simpl in *. split; [lia|]. intros row E.
      destruct r as [vs|]; [|discriminate E]. inversion E. simpl.
      rewrite (IHr vs eq_refl). reflexivity.
    + destruct (match Evaluator.Type_ col, Evaluator.AutoInc col with
                | DataType.Integer, true => _
                | _, _ => _
                end) as [v col'].
      destruct (Evaluator.placeValues rest names values) as [r rest'].
      simpl in *. split; [lia|]. intros row E.
      destruct r as [vs|]; [|discriminate E]. inversion E. simpl.
      rewrite (IHr vs eq_refl). reflexivity.
Qed.

Lemma copyInto_length (n : nat) (values : list Value) :
  length (Evaluator.copyInto n values) = n.
Proof.
  unfold Evaluator.copyInto.
  rewrite length_app, length_take, length_replicate. lia.
Qed.

(** X5: the row an [insert] appends is as wide as the table, and each of
    its values fits its column: it is null in a nullable column, or of
    the column's data type. *)
Theorem insert_appends_a_row_that_fits
    (tab tab' : Evaluator.Table) (names : list string) (values : list Value) :
  Evaluator.insert tab names values = (Ok tt, tab') ->
  exists row,
    Evaluator.Data tab' = (Evaluator.Data tab ++ [row])%list
    /\ Forall2 fits (Evaluator.Columns tab') row.
Proof.
  unfold Evaluator.insert. intros E.
  destruct (negb _); [discriminate E|].
  destruct (negb (length names =? 0)%nat).
  - destruct (Evaluator.unknownName tab names); [discriminate E|].
    pose proof (placeValues_length (Evaluator.Columns tab) names values) as [Hc Hr].
    destruct (Evaluator.placeValues (Evaluator.Columns tab) names values) as [placed cols].
    simpl in Hc, Hr.
    destruct placed as [row|]; [|discriminate E].
    destruct (Evaluator.checkRow row cols) as [row'|] eqn:Hrow; [|discriminate E].
    inversion E; subst. exists row'. split; [reflexivity|]. simpl.
    apply (checkRow_fits row cols row'); [rewrite (Hr row eq_refl); lia | exact Hrow].
  - destruct (Evaluator.checkRow _ (Evaluator.Columns tab)) as [row'|] eqn:Hrow;
      [|discriminate E].
    inversion E; subst. exists row'. split; [reflexivity|]. simpl.
    apply (checkRow_fits _ _ row' (copyInto_length _ _) Hrow).
Qed.

End Coercion.

Lemma coerce_gives_the_type_and_is_idempotent_sample :
  @Evaluator.coerce RunLib.lib (StringValue "42") DataType.Integer = Ok (IntegerValue 42)
  /\ Notions.hasType (IntegerValue 42) DataType.Integer = true
  /\ @Evaluator.coerce RunLib.lib (IntegerValue 42) DataType.Integer = Ok (IntegerValue 42).
Proof.
  split; [reflexivity|].
  exact (@coerce_gives_the_type_and_is_idempotent RunLib.lib (StringValue "42")
           (IntegerValue 42) DataType.Integer eq_refl).
Defined.

Lemma insert_appends_a_row_that_fits_sample :
  let tab' := snd (@Evaluator.insert RunLib.lib Sample.t ["b"] [StringValue "7"]) in
  @Evaluator.insert RunLib.lib Sample.t ["b"] [StringValue "7"] = (Ok tt, tab')
  /\ exists row,
       Evaluator.Data tab' = (Evaluator.Data Sample.t ++ [row])%list
       /\ Forall2 Notions.fits (Evaluator.Columns tab') row.
Proof.
  intros tab'.
  assert (E : @Evaluator.insert RunLib.lib Sample.t ["b"] [StringValue "7"] = (Ok tt, tab'))
    by (vm_compute; reflexivity).
  split; [exact E|].
  exact (@insert_appends_a_row_that_fits RunLib.lib Sample.t tab' ["b"]
           [StringValue "7"] E).
Defined.

(** ** INSERT with a column list *)

Section NamedInsert.
Context `{GoLib}.
Import Notions.

Lemma nameIndex_absent (names : list string) (name : string) :
  name ∉ names -> forall i, Evaluator.nameIndex names name i = None.
Proof.
  induction names as [|n rest IH]; intros Hn i; simpl; [reflexivity|].
  destruct (String.eqb name n) eqn:E.
  - apply String.eqb_eq in E. subst n. exfalso. apply Hn. left.
  - apply IH. intros Hin. apply Hn. right. exact Hin.
Qed.

Lemma namedValue_of_pair (names : list string) (values : list Value)
    (name : string) (v : Value) :
  NoDup names ->
  (name, v) ∈ zip names values ->
  namedValue names values name = Some (Some v).
Proof.
  intros Hnd Hin.
  apply elem_of_lookup_zip_with in Hin as [i [x [y [Hxy [Hx Hy]]]]].
  inversion Hxy; subst x y. unfold namedValue.
  rewrite (nameIndex_unique names Hnd 0 i name Hx). simpl. rewrite Hy. reflexivity.
Qed.

(** Naming the same columns with the same values in another order gives
    the placement loop the same value for every column name. *)
Lemma namedValue_permutation (names names' : list string) (values values' : list Value) :
  NoDup names ->
  length names = length values ->
  length names' = length values' ->
  zip names values ≡ₚ zip names' values' ->
  forall name, namedValue names' values' name = namedValue names values name.
Proof.
  intros Hnd Hlen Hlen' Hperm name.
  assert (Hnames : names ≡ₚ names').
  { rewrite <- (fst_zip names values), <- (fst_zip names' values') by lia.
    apply fmap_Permutation. exact Hperm. }
  assert (Hnd' : NoDup names') by (rewrite <- Hnames; exact Hnd).
  destruct (decide (name ∈ names)) as [Hin|Hnotin].
  - apply list_elem_of_lookup in Hin as [i Hi].
    destruct (values !! i) as [v|] eqn:Hv.
    2:{ apply lookup_ge_None in Hv. apply lookup_lt_Some in Hi. lia. }
    assert (Hpair : (name, v) ∈ zip names values).
    { apply elem_of_lookup_zip_with. exists i, name, v. auto. }
    rewrite (namedValue_of_pair names values name v Hnd Hpair).
    apply namedValue_of_pair; [exact Hnd'|]. rewrite <- Hperm. exact Hpair.
  - unfold namedValue.
    rewrite (nameIndex_absent names name Hnotin).
    rewrite nameIndex_absent; [reflexivity|]. rewrite <- Hnames. exact Hnotin.
Qed.

Lemma placeValues_namedValue (cols : list Evaluator.Column)
    (names names' : list string) (values values' : list Value) :
  (forall name, namedValue names' values' name = namedValue names values name) ->
  Evaluator.placeValues cols names' values' = Evaluator.placeValues cols names values.
Proof.
  intros Hsame. induction cols as [|col rest IH]; simpl; [reflexivity|].
  specialize (Hsame (Evaluator.Name col)). unfold namedValue in Hsame.
  destruct (Evaluator.nameIndex names' (Evaluator.Name col) 0) as [j'|];
    destruct (Evaluator.nameIndex names (Evaluator.Name col) 0) as [j|];
    try discriminate Hsame.
  - injection Hsame as ->. rewrite IH. reflexivity.
  - rewrite IH. reflexivity.
Qed.

(** X6: an INSERT with a column list does not depend on the order of the
    list: when the names are all different and are columns of the table,
    naming the same columns with the same values in another order
    inserts the same row, or fails in the same way. *)
Theorem insert_does_not_depend_on_the_order_of_the_names
    (tab : Evaluator.Table) (names names' : list string) (values values' : list Value) :
  NoDup names ->
  length names = length values ->
  length names' = length values' ->
  zip names values ≡ₚ zip names' values' ->
  Forall (fun name => 0 <= Evaluator.colIndex tab name) names ->
  Evaluator.insert tab names' values' = Evaluator.insert tab names values.
Proof.
  intros Hnd Hlen Hlen' Hperm Hknown.
  assert (Hnames : names ≡ₚ names').
  { rewrite <- (fst_zip names values), <- (fst_zip names' values') by lia.
    apply fmap_Permutation. exact Hperm. }
  assert (Hknown' : Forall (fun name => 0 <= Evaluator.colIndex tab name) names')
    by (rewrite <- Hnames; exact Hknown).
  assert (Hn : length names' = length names) by (rewrite Hnames; reflexivity).
  assert (Hv : length values' = length values) by lia.
  unfold Evaluator.insert.
  rewrite Hn, Hv.
  rewrite (unknownName_None tab names Hknown), (unknownName_None tab names' Hknown').
  rewrite (placeValues_namedValue (Evaluator.Columns tab) names names' values values'
             (namedValue_permutation names names' values values' Hnd Hlen Hlen' Hperm)).
  destruct (negb _); [reflexivity|].
  destruct (negb (length names =? 0)%nat) eqn:Hnil; [reflexivity|].
  (* no name at all: no value either *)
  apply negb_false_iff, Nat.eqb_eq in Hnil.
  destruct values; [|simpl in *; lia]. destruct values'; [|simpl in *; lia].
  reflexivity.
Qed.

End NamedInsert.

Lemma insert_does_not_depend_on_the_order_of_the_names_sample :
  (NoDup ["a"; "b"]
   /\ length ["a"; "b"] = length [IntegerValue 1; IntegerValue 2]
   /\ length ["b"; "a"] = length [IntegerValue 2; IntegerValue 1]
   /\ zip ["a"; "b"] [IntegerValue 1; IntegerValue 2]
        ≡ₚ zip ["b"; "a"] [IntegerValue 2; IntegerValue 1]
   /\ Forall (fun name => 0 <= Evaluator.colIndex Sample.t name) ["a"; "b"])
  /\ @Evaluator.insert RunLib.lib Sample.t ["b"; "a"] [IntegerValue 2; IntegerValue 1]
     = @Evaluator.insert RunLib.lib Sample.t ["a"; "b"] [IntegerValue 1; IntegerValue 2].
Proof.
  assert (Hnd : NoDup ["a"; "b"]).
  { apply NoDup_cons. split; [|apply NoDup_singleton].
    intros Hin. apply list_elem_of_singleton in Hin. discriminate Hin. }
  assert (Hperm : zip ["a"; "b"] [IntegerValue 1; IntegerValue 2]
                    ≡ₚ zip ["b"; "a"] [IntegerValue 2; IntegerValue 1])
    by apply perm_swap.
  assert (Hknown : Forall (fun name => 0 <= Evaluator.colIndex Sample.t name) ["a"; "b"]).
  { repeat constructor; vm_compute; discriminate. }
  split; [repeat split; assumption|].
  exact (@insert_does_not_depend_on_the_order_of_the_names RunLib.lib Sample.t
           ["a"; "b"] ["b"; "a"] [IntegerValue 1; IntegerValue 2]
           [IntegerValue 2; IntegerValue 1] Hnd eq_refl eq_refl Hperm Hknown).
Defined.

(** ** A column left out of an INSERT *)

Section OmittedColumn.
Context `{GoLib}.
Import Notions.

(** A column the INSERT does not name, and that does not count by
    itself, gets its default value and stays as it is. *)
Lemma placeValues_unnamed (names : list string) (values : list Value) :
  forall (cols cols' : list Evaluator.Column) (row : list Value)
         (i : nat) (col : Evaluator.Column),
    Evaluator.placeValues cols names values = (Ok row, cols') ->
    cols !! i = Some col ->
    Evaluator.Name col ∉ names ->
    Evaluator.AutoInc col = false ->
    row !! i = Some (Evaluator.Default col) /\ cols' !! i = Some col.
Proof.
  induction cols as [|c rest IH]; intros cols' row i col E Hi Hname Hauto;
    [discriminate Hi|].
  simpl in E.
  destruct i as [|i]; simpl in Hi.
  - inversion Hi; subst c.
    rewrite (nameIndex_absent names _ Hname) in E. rewrite Hauto in E.
    replace (match Evaluator.Type_ col with
             | DataType.Integer => (Evaluator.Default col, col)
             | _ => (Evaluator.Default col, col)
             end) with (Evaluator.Default col, col) in E
      by (destruct (Evaluator.Type_ col); reflexivity).
    destruct (Evaluator.placeValues rest names values) as [[vs|] rest'];
      inversion E; subst. split; reflexivity.
  - destruct (Evaluator.nameIndex names (Evaluator.Name c) 0) as [j|].
    + destruct (values !! j) as [v|]; [|discriminate E].
      destruct (Evaluator.placeValues rest names values) as [[vs|] rest'] eqn:Hrest;
        inversion E; subst.
      exact (IH rest' vs i col eq_refl Hi Hname Hauto).
    + destruct (match Evaluator.Type_ c, Evaluator.AutoInc c with
                | DataType.Integer, true => _
                | _, _ => _
                end) as [v c'].
      destruct (Evaluator.placeValues rest names values) as [[vs|] rest'] eqn:Hrest;
        inversion E; subst.
      exact (IH rest' vs i col eq_refl Hi Hname Hauto).
Qed.

Lemma checkRow_null_is_allowed (row : list Value) :
  forall (cols : list Evaluator.Column) (row' : list Value) (i : nat)
         (col : Evaluator.Column),
    Evaluator.checkRow row cols = Ok row' ->
    row !! i = Some Nil ->
    cols !! i = Some col ->
    Evaluator.Nullable col = true.
Proof.
  induction row as [|v rest IH]; intros cols row' i col E Hv Hc; [discriminate Hv|].
  destruct cols as [|c cols]; [discriminate Hc|]. simpl in E.
  destruct (Evaluator.checkValue c v) as [v'|] eqn:Hcv; [|discriminate E]. simpl in E.
  destruct (Evaluator.checkRow rest cols) as [vs|] eqn:Hrest; [|discriminate E].
  destruct i as [|i]; simpl in Hv, Hc.
  - inversion Hv; inversion Hc; subst. unfold Evaluator.checkValue in Hcv.
    destruct (Evaluator.Nullable col); [reflexivity | discriminate Hcv].
  - exact (IH cols vs i col Hrest Hv Hc).
Qed.

(** X7: an INSERT with a column list that leaves out a NOT NULL column
    (one without a default value, that does not count by itself) fails. *)
Theorem insert_cannot_leave_out_a_not_null_column
    (tab : Evaluator.Table) (names : list string) (values : list Value)
    (col : Evaluator.Column) :
  names <> [] ->
  col ∈ Evaluator.Columns tab ->
  Evaluator.Name col ∉ names ->
  Evaluator.Nullable col = false ->
  Evaluator.AutoInc col = false ->
  Evaluator.Default col = Nil ->
  exists p, fst (Evaluator.insert tab names values) = Panic p.
Proof.
  intros Hnames Hcol Hname Hnull Hauto Hdef.
  apply list_elem_of_lookup in Hcol as [i Hi].
  unfold Evaluator.insert.
  destruct (negb _); [eexists; reflexivity|].
  destruct (negb (length names =? 0)%nat) eqn:Hnil.
  2:{ apply negb_false_iff, Nat.eqb_eq in Hnil. destruct names; [contradiction | discriminate]. }
  destruct (Evaluator.unknownName tab names); [eexists; reflexivity|].
  destruct (Evaluator.placeValues (Evaluator.Columns tab) names values)
    as [[row|p] cols'] eqn:Hplace; [|eexists; reflexivity].
  destruct (placeValues_unnamed names values _ _ _ i col Hplace Hi Hname Hauto)
    as [Hrow Hcols].
  destruct (Evaluator.checkRow row cols') as [row'|p] eqn:Hcheck; [|eexists; reflexivity].
  rewrite Hdef in Hrow.
  pose proof (checkRow_null_is_allowed row cols' row' i col Hcheck Hrow Hcols) as Hn.
  rewrite Hnull in Hn. discriminate Hn.
Qed.

End OmittedColumn.

Lemma insert_cannot_leave_out_a_not_null_column_sample :
  let col := {| Evaluator.Name := "b"; Evaluator.Type_ := DataType.Integer;
                Evaluator.Default := Nil; Evaluator.Nullable := false;
                Evaluator.AutoInc := false; Evaluator.NextVal := 0 |} in
  let tab := {| Evaluator.TName := "s";
                Evaluator.Columns := [Sample.column "a" DataType.Integer; col];
                Evaluator.Data := [] |} in
  (["a"] <> [] /\ col ∈ Evaluator.Columns tab /\ Evaluator.Name col ∉ ["a"])
  /\ exists p, fst (@Evaluator.insert RunLib.lib tab ["a"] [IntegerValue 1]) = Panic p.
Proof.
  intros col tab.
  assert (Hcol : col ∈ Evaluator.Columns tab) by (right; left).
  assert (Hname : Evaluator.Name col ∉ ["a"]).
  { intros Hin. apply list_elem_of_singleton in Hin. discriminate Hin. }
  split; [split; [discriminate | split; assumption]|].
  exact (@insert_cannot_leave_out_a_not_null_column RunLib.lib tab ["a"]
           [IntegerValue 1] col ltac:(discriminate) Hcol Hname eq_refl eq_refl eq_refl).
Defined.

(** ** Concatenation, and the values of an INSERT *)

Section Concatenation.
Context `{GoLib}.
Import Notions.

Lemma string_append_assoc (s1 s2 s3 : string) :
  ((s1 ++ s2) ++ s3 = s1 ++ (s2 ++ s3))%string.
Proof.
  induction s1 as [|c s1 IH]; [reflexivity|].
  change (String c ((s1 ++ s2) ++ s3) = String c (s1 ++ (s2 ++ s3)))%string.
  f_equal. exact IH.
Qed.

(** X8: concatenation is associative: (x || y) || z and x || (y || z)
    evaluate alike when x, y and z evaluate to values other than
    booleans.  The result is null as soon as one of the three is null,
    and otherwise the string of their three texts, one after the other. *)
Theorem concatenation_is_associative
    (funcs : list Evaluator.aggFunc) (ns : Evaluator.namespace)
    (x y z : Ast.Expr) (a b c : Value) :
  Evaluator.evalExpr funcs ns x = Ok a ->
  Evaluator.evalExpr funcs ns y = Ok b ->
  Evaluator.evalExpr funcs ns z = Ok c ->
  hasType a DataType.Boolean = false ->
  hasType b DataType.Boolean = false ->
  hasType c DataType.Boolean = false ->
  Evaluator.evalExpr funcs ns
    (Ast.BinaryExpr (Ast.BinaryExpr x Token.Concat y) Token.Concat z)
  = Evaluator.evalExpr funcs ns
      (Ast.BinaryExpr x Token.Concat (Ast.BinaryExpr y Token.Concat z))
  /\ (isNull a || isNull b || isNull c = true ->
      Evaluator.evalExpr funcs ns
        (Ast.BinaryExpr (Ast.BinaryExpr x Token.Concat y) Token.Concat z)
      = Ok Nil)
  /\ (forall ta tb tc : string,
        Evaluator.toString a = Ok ta ->
        Evaluator.toString b = Ok tb ->
        Evaluator.toString c = Ok tc ->
        Evaluator.evalExpr funcs ns
          (Ast.BinaryExpr (Ast.BinaryExpr x Token.Concat y) Token.Concat z)
        = Ok (StringValue (ta ++ tb ++ tc))).
Proof.
  intros Hx Hy Hz Ha Hb Hc.
  cbn [Evaluator.evalExpr]. rewrite Hx, Hy, Hz. cbn [mbind Result_bind].
  split; [|split].
  - destruct a as [|ba|na|fa|sa|ta]; try discriminate Ha;
      destruct b as [|bb|nb|fb|sb|tb]; try discriminate Hb;
      destruct c as [|bc|nc|fc|sc|tc]; try discriminate Hc;
      cbn; rewrite ?string_append_assoc; try reflexivity.
  - intros Hnull.
    destruct a as [|ba|na|fa|sa|ta]; try discriminate Ha;
      destruct b as [|bb|nb|fb|sb|tb]; try discriminate Hb;
      destruct c as [|bc|nc|fc|sc|tc]; try discriminate Hc;
      try discriminate Hnull; reflexivity.
  - intros ta tb tc Ea Eb Ec.
    destruct a as [|ba|na|fa|sa|ta']; try discriminate Ea;
      destruct b as [|bb|nb|fb|sb|tb']; try discriminate Eb;
      destruct c as [|bc|nc|fc|sc|tc']; try discriminate Ec;
      cbn [Evaluator.toString] in Ea, Eb, Ec;
      injection Ea as <-; injection Eb as <-; injection Ec as <-;
      cbn; rewrite ?string_append_assoc; reflexivity.
Qed.

End Concatenation.

Section ValuesOfAnInsert.
Context `{GoLib}.
Import Notions.

(** An expression that names a column, or calls a function that is no
    aggregate, cannot be evaluated without a row. *)
Lemma evalExpr_needs_a_row (e : Ast.Expr) :
  bareColumn e = true ->
  exists p, Evaluator.evalExpr [] Evaluator.emptyNamespace e = Panic p.
Proof.
  induction e as [id|l IHl op r IHr|pos op e IHe| | | | | | |name args|ix pos];
    intros Hbare; simpl in Hbare; try discriminate Hbare;
    cbn [Evaluator.evalExpr].
  - eexists. reflexivity.
  - apply orb_true_iff in Hbare as [Hb|Hb].
    + destruct (IHl Hb) as [p ->]. eexists. reflexivity.
    + destruct (IHr Hb) as [p ->].
      destruct (Evaluator.evalExpr [] Evaluator.emptyNamespace l); eexists; reflexivity.
  - destruct (IHe Hbare) as [p ->]. eexists. reflexivity.
  - eexists. reflexivity.
Qed.

Lemma forEach_needs_a_row (values : list Ast.Expr) :
  existsb bareColumn values = true ->
  exists p, forEach (Evaluator.evalExpr [] Evaluator.emptyNamespace) values = Panic p.
Proof.
  induction values as [|e rest IH]; intros Hbare; simpl in Hbare; [discriminate Hbare|].
  cbn [forEach].
  destruct (Evaluator.evalExpr [] Evaluator.emptyNamespace e) as [v|p] eqn:Ee;
    [|eexists; reflexivity].
  cbn [mbind Result_bind].
  destruct (bareColumn e) eqn:Hb.
  - destruct (evalExpr_needs_a_row e Hb) as [p Ep]. rewrite Ep in Ee. discriminate Ee.
  - destruct (IH Hbare) as [p ->]. eexists. reflexivity.
Qed.

(** X9: the values of an INSERT are evaluated without a row: a statement
    one of whose values names a column returns an error and leaves the
    environment as it was. *)
Theorem insert_values_cannot_name_a_column
    (env : Evaluator.Environment) (pos : Token.Pos) (table : Ast.Ident)
    (columns : list Ast.Ident) (values : list Ast.Expr) :
  existsb bareColumn values = true ->
  exists e,
    Evaluator.EvalStmt env (Ast.InsertStmt pos table columns values)
    = (Ok (None, Some e), env).
Proof.
  intros Hbare.
  unfold Evaluator.EvalStmt, Evaluator.evalStmtBody, Evaluator.evalInsertStmt.
  destruct (Evaluator.lookupTable env (Ast.Name table)) as [tab|[e|msg args]];
    [|eexists; reflexivity ..].
  destruct (forEach_needs_a_row values Hbare) as [[e|msg args] ->]; eexists; reflexivity.
Qed.

End ValuesOfAnInsert.

(** 'a' || 1 || NULL is null, whichever way it is read. *)
Lemma concatenation_is_associative_sample :
  let x := Ast.StringLiteral Sample.p0 "a" in
  let y := Ast.IntegerLiteral Sample.p0 1 in
  let z := Ast.Null Sample.p0 in
  (@Evaluator.evalExpr RunLib.lib [] Evaluator.emptyNamespace x = Ok (StringValue "a")
   /\ @Evaluator.evalExpr RunLib.lib [] Evaluator.emptyNamespace y = Ok (IntegerValue 1)
   /\ @Evaluator.evalExpr RunLib.lib [] Evaluator.emptyNamespace z = Ok Nil)
  /\ @Evaluator.evalExpr RunLib.lib [] Evaluator.emptyNamespace
       (Ast.BinaryExpr (Ast.BinaryExpr x Token.Concat y) Token.Concat z)
     = @Evaluator.evalExpr RunLib.lib [] Evaluator.emptyNamespace
         (Ast.BinaryExpr x Token.Concat (Ast.BinaryExpr y Token.Concat z))
  /\ @Evaluator.evalExpr RunLib.lib [] Evaluator.emptyNamespace
       (Ast.BinaryExpr (Ast.BinaryExpr x Token.Concat y) Token.Concat z)
     = Ok Nil.
Proof.
  intros x y z. split; [repeat split|].
  pose proof (@concatenation_is_associative RunLib.lib [] Evaluator.emptyNamespace x y z
                (StringValue "a") (IntegerValue 1) Nil eq_refl eq_refl eq_refl
                eq_refl eq_refl eq_refl) as [Hassoc [Hnull _]].
  split; [exact Hassoc | exact (Hnull eq_refl)].
Defined.

(** INSERT INTO t VALUES (1, a) on the sample table. *)
Lemma insert_values_cannot_name_a_column_sample :
  let values := [Ast.IntegerLiteral Sample.p0 1; Ast.IdentExpr (Sample.ident "a")] in
  existsb Notions.bareColumn values = true
  /\ exists e,
       @Evaluator.EvalStmt RunLib.lib Sample.env
         (Ast.InsertStmt Sample.p0 (Sample.ident "t") [] values)
       = (Ok (None, Some e), Sample.env).
Proof.
  intros values. split; [reflexivity|].
  exact (@insert_values_cannot_name_a_column RunLib.lib Sample.env Sample.p0
           (Sample.ident "t") [] values eq_refl).
Defined.

(** ** Null operands *)

Section NullOperands.
Context `{GoLib}.

(** X10: a binary expression with a null operand: arithmetic and
    concatenation give null, a comparison gives false, and AND and OR
    panic, for they convert the null to a boolean. *)
Theorem binary_expression_with_a_null_operand
    (funcs : list Evaluator.aggFunc) (ns : Evaluator.namespace)
    (l r : Ast.Expr) (op : Token.Kind) (vl vr : Value) :
  Evaluator.evalExpr funcs ns l = Ok vl ->
  Evaluator.evalExpr funcs ns r = Ok vr ->
  vl = Nil \/ vr = Nil ->
  match op with
  | Token.Plus | Token.Minus | Token.Mul | Token.Div | Token.Concat =>
      Evaluator.evalExpr funcs ns (Ast.BinaryExpr l op r) = Ok Nil
  | Token.Equal | Token.NotEqual | Token.LessThan | Token.LessThanOrEqualTo
  | Token.GreaterThan | Token.GreaterThanOrEqualTo =>
      Evaluator.evalExpr funcs ns (Ast.BinaryExpr l op r) = Ok (BooleanValue false)
  | Token.And | Token.Or =>
      exists p, Evaluator.evalExpr funcs ns (Ast.BinaryExpr l op r) = Panic p
  | _ =>
      Evaluator.evalExpr funcs ns (Ast.BinaryExpr l op r)
      = Panic (PanicError (Evaluator.errorf (Ast.BinaryExpr l op r)
                             "invalid binary operator: %s" [AKind op]))
  end.
Proof.
  intros Hl Hr Hnil.
  destruct op; cbn [Evaluator.evalExpr]; rewrite Hl, Hr; cbn [mbind Result_bind];
    try reflexivity;
    destruct Hnil; subst;
    repeat match goal with v : Value |- _ => destruct v end;
    try reflexivity; try (eexists; reflexivity).
Qed.

End NullOperands.

Lemma binary_expression_with_a_null_operand_sample :
  let l := Ast.Null Sample.p0 in
  let r := Ast.BooleanLiteral Sample.p0 true in
  (@Evaluator.evalExpr RunLib.lib [] Evaluator.emptyNamespace l = Ok Nil
   /\ @Evaluator.evalExpr RunLib.lib [] Evaluator.emptyNamespace r = Ok (BooleanValue true))
  /\ exists p,
       @Evaluator.evalExpr RunLib.lib [] Evaluator.emptyNamespace
         (Ast.BinaryExpr l Token.And r) = Panic p.
Proof.
  intros l r. split; [split; reflexivity|].
  exact (@binary_expression_with_a_null_operand RunLib.lib [] Evaluator.emptyNamespace
           l r Token.And Nil (BooleanValue true) eq_refl eq_refl (or_introl eq_refl)).
Defined.

(** ** The statements and the table they work on *)

Section Statements.
Context `{GoLib}.
Import Notions.

(** *** SELECT without an aggregate *)

Lemma selectRows_filter_map (tab : Evaluator.Table) (where_ : option Ast.Expr)
    (projection : list Ast.Expr) (sat : Evaluator.Row -> bool)
    (proj : Evaluator.Row -> Evaluator.Row) (rows : list Evaluator.Row) :
  (forall row, In row rows ->
     Evaluator.whereMatches [] (Evaluator.currentRow tab row) where_ = Ok (sat row)) ->
  (forall row, In row rows -> sat row = true ->
     forEach (Evaluator.evalExpr [] (Evaluator.currentRow tab row)) projection
     = Ok (proj row)) ->
  Evaluator.selectRows tab where_ projection rows
  = Ok (map proj (List.filter sat rows)).
Proof.
  induction rows as [|row rest IH]; intros Hw Hp; simpl; [reflexivity|].
  rewrite (Hw row (or_introl eq_refl)). cbn [mbind Result_bind].
  rewrite IH;
    [ | intros r Hr; apply Hw; right; exact Hr | intros r Hr; apply Hp; right; exact Hr ].
  destruct (sat row) eqn:Hsat; [|reflexivity].
  rewrite (Hp row (or_introl eq_refl) Hsat). reflexivity.
Qed.

(** X11: a SELECT without an aggregate selects first, then projects: its
    rows are the projections of the rows that match, in the table's
    order, and the projection is never evaluated on a row that does not
    match; its columns are named after the identifiers, "?" elsewhere. *)
Theorem select_filters_then_projects
    (env : Evaluator.Environment) (pos : Token.Pos) (columns : list Ast.Expr)
    (table : Ast.Ident) (tab : Evaluator.Table) (where_ : option Ast.Expr)
    (sat : Evaluator.Row -> bool) (proj : Evaluator.Row -> Evaluator.Row) :
  Evaluator.tables env !! Ast.Name table = Some tab ->
  existsb Evaluator.containsAggFunc (Evaluator.expandStar tab columns) = false ->
  (forall row, In row (Evaluator.Data tab) ->
     Evaluator.whereMatches [] (Evaluator.currentRow tab row) where_ = Ok (sat row)) ->
  (forall row, In row (Evaluator.Data tab) -> sat row = true ->
     forEach (Evaluator.evalExpr [] (Evaluator.currentRow tab row))
       (Evaluator.expandStar tab columns)
     = Ok (proj row)) ->
  exists result,
    Evaluator.EvalStmt env (Ast.SelectStmt pos columns (Ast.IdentExpr table) where_)
    = (Ok (Some result, None), env)
    /\ Evaluator.Data result = map proj (List.filter sat (Evaluator.Data tab))
    /\ map Evaluator.Name (Evaluator.Columns result)
       = map resultName (Evaluator.expandStar tab columns).
Proof.
  intros Htab Hagg Hw Hp.
  unfold Evaluator.EvalStmt, Evaluator.evalStmtBody, Evaluator.evalSelectStmt,
    Evaluator.lookupTable.
  rewrite Htab. cbn [mbind Result_bind]. rewrite Hagg.
  rewrite (selectRows_filter_map tab where_ _ sat proj _ Hw Hp).
  eexists. split; [reflexivity|]. split; [reflexivity|].
  cbn [Evaluator.Columns]. rewrite map_map. apply map_ext.
  intros [] ; reflexivity.
Qed.

(** *** A relation that does not exist *)

(** X12: SELECT, INSERT, UPDATE and DELETE on a name that is no relation
    return the error "relation does not exist" and leave the environment
    as it was, whatever else the statement holds. *)
Theorem statement_on_a_relation_that_does_not_exist
    (env : Evaluator.Environment) (pos : Token.Pos) (table : Ast.Ident)
    (exprs values : list Ast.Expr) (columns : list Ast.Ident)
    (where_ : option Ast.Expr) :
  Evaluator.tables env !! Ast.Name table = None ->
  let refused :=
    (Ok (None, Some (Errorf "relation %q does not exist" [AStr (Ast.Name table)])), env) in
  Evaluator.EvalStmt env (Ast.SelectStmt pos exprs (Ast.IdentExpr table) where_) = refused
  /\ Evaluator.EvalStmt env (Ast.InsertStmt pos table columns values) = refused
  /\ Evaluator.EvalStmt env (Ast.UpdateStmt pos table columns values where_) = refused
  /\ Evaluator.EvalStmt env (Ast.DeleteStmt pos table where_) = refused.
Proof.
  intros Htab refused.
  unfold Evaluator.EvalStmt, Evaluator.evalStmtBody, Evaluator.evalSelectStmt,
    Evaluator.evalInsertStmt, Evaluator.evalUpdateStmt, Evaluator.evalDeleteStmt,
    Evaluator.lookupTable.
  rewrite Htab. repeat split.
Qed.

(** *** UPDATE *)

Lemma applySet_length (tab : Evaluator.Table) (columns : list Ast.Ident)
    (values : list Ast.Expr) :
  forall (i : nat) (row : Evaluator.Row),
    length (snd (Evaluator.applySet tab columns values i row)) = length row.
Proof.
  induction columns as [|name rest IH]; intros i row; simpl; [reflexivity|].
  destruct (Evaluator.colIndex tab (Ast.Name name) <? 0); [reflexivity|].
  destruct (values !! i); [|reflexivity].
  destruct (Evaluator.evalExpr _ _ _); [|reflexivity].
  destruct (_ <? _)%nat; [|reflexivity].
  rewrite IH, length_insert. reflexivity.
Qed.

Lemma updateRows_shape (tab : Evaluator.Table) (where_ : option Ast.Expr)
    (columns : list Ast.Ident) (values : list Ast.Expr) (rows : list Evaluator.Row) :
  Forall2
    (fun row row' =>
       length row' = length row
       /\ (Evaluator.whereMatches [] (Evaluator.currentRow tab row) where_ = Ok false ->
           row' = row))
    rows (snd (Evaluator.updateRows tab where_ columns values rows)).
Proof.
  assert (Hsame : forall l : list Evaluator.Row,
            Forall2
              (fun row row' =>
                 length row' = length row
                 /\ (Evaluator.whereMatches [] (Evaluator.currentRow tab row) where_
                     = Ok false -> row' = row)) l l).
  { induction l; constructor; [split; [reflexivity | intros _; reflexivity] | assumption]. }
  induction rows as [|row rest IH]; simpl; [constructor|].
  destruct (Evaluator.whereMatches [] (Evaluator.currentRow tab row) where_)
    as [[]|p] eqn:Hw.
  - pose proof (applySet_length tab columns values 0 row) as Hlen.
    destruct (Evaluator.applySet tab columns values 0 row) as [[|] row']; simpl in Hlen.
    + destruct (Evaluator.updateRows tab where_ columns values rest) as [r rest'].
      simpl in *. constructor; [split; [exact Hlen | rewrite Hw; discriminate] | exact IH].
    + simpl. constructor; [split; [exact Hlen | rewrite Hw; discriminate] | apply Hsame].
  - destruct (Evaluator.updateRows tab where_ columns values rest) as [r rest'].
    simpl in *. constructor; [split; [reflexivity | intros _; reflexivity] | exact IH].
  - simpl. apply Hsame.
Qed.

(** X13: an UPDATE, whether it succeeds or fails, leaves the table with
    the same number of rows, each as wide as it was, and with the rows on
    which WHERE is false as they were. *)
Theorem update_keeps_the_shape_of_the_table
    (env : Evaluator.Environment) (pos : Token.Pos) (table : Ast.Ident)
    (tab : Evaluator.Table) (columns : list Ast.Ident) (values : list Ast.Expr)
    (where_ : option Ast.Expr) :
  Evaluator.tables env !! Ast.Name table = Some tab ->
  exists res rows',
    Evaluator.EvalStmt env (Ast.UpdateStmt pos table columns values where_)
    = (Ok res, Evaluator.storeTable env (Ast.Name table) (Evaluator.withData tab rows'))
    /\ Forall2
         (fun row row' =>
            length row' = length row
            /\ (Evaluator.whereMatches [] (Evaluator.currentRow tab row) where_ = Ok false ->
                row' = row))
         (Evaluator.Data tab) rows'.
Proof.
  intros Htab.
  pose proof (updateRows_shape tab where_ columns values (Evaluator.Data tab)) as Hshape.
  unfold Evaluator.EvalStmt, Evaluator.evalStmtBody, Evaluator.evalUpdateStmt,
    Evaluator.lookupTable.
  rewrite Htab.
  destruct (Evaluator.updateRows tab where_ columns values (Evaluator.Data tab))
    as [[[]|[e|msg args]] rows']; simpl in Hshape;
    eexists; exists rows'; (split; [reflexivity | exact Hshape]).
Qed.

(** *** DELETE *)

Lemma keptRows_sublist (tab : Evaluator.Table) (where_ : option Ast.Expr)
    (rows : list Evaluator.Row) :
  forall kept,
    Evaluator.keptRows tab where_ rows = Ok kept -> sublist kept rows.
Proof.
  induction rows as [|row rest IH]; intros kept E; simpl in E.
  - inversion E. constructor.
  - destruct where_ as [w|].
    + destruct (Evaluator.evalExpr [] (Evaluator.currentRow tab row) w);
        [|discriminate E]. simpl in E.
      destruct (Evaluator.toBoolean _) as [b|]; [|discriminate E]. simpl in E.
      destruct (Evaluator.keptRows tab (Some w) rest) as [newData|];
        [|discriminate E]. simpl in E.
      inversion E; subst. destruct b; simpl.
      * apply sublist_cons. apply IH. reflexivity.
      * apply sublist_skip. apply IH. reflexivity.
    + apply sublist_cons. apply IH. exact E.
Qed.

(** X14: a DELETE only removes rows: when it succeeds, the rows left are
    rows of the table in their order, under the same columns; when it
    returns an error, nothing was deleted. *)
Theorem delete_only_removes_rows
    (env : Evaluator.Environment) (pos : Token.Pos) (table : Ast.Ident)
    (tab : Evaluator.Table) (where_ : option Ast.Expr) :
  Evaluator.tables env !! Ast.Name table = Some tab ->
  match Evaluator.EvalStmt env (Ast.DeleteStmt pos table where_) with
  | (Ok (_, None), env') =>
      exists kept,
        env' = Evaluator.storeTable env (Ast.Name table) (Evaluator.withData tab kept)
        /\ sublist kept (Evaluator.Data tab)
  | (Ok (_, Some _), env') => env' = env
  | (Panic _, _) => False
  end.
Proof.
  intros Htab.
  unfold Evaluator.EvalStmt, Evaluator.evalStmtBody, Evaluator.evalDeleteStmt,
    Evaluator.lookupTable.
  rewrite Htab.
  destruct (Evaluator.keptRows tab where_ (Evaluator.Data tab)) as [kept|[e|msg args]] eqn:E;
    simpl; [|reflexivity ..].
  exists kept. split; [reflexivity | exact (keptRows_sublist tab where_ _ kept E)].
Qed.

(** *** A column beside an aggregate *)

Lemma validateAggExpr_bareColumn (expr : Ast.Expr) :
  bareColumn expr = true -> exists p, Evaluator.validateAggExpr expr = Panic p.
Proof.
  induction expr as [id|l IHl op r IHr|p op e IHe| | | | | | |name args|];
    intros Hbare; simpl in Hbare; try discriminate Hbare.
  - eexists. reflexivity.
  - simpl. apply orb_true_iff in Hbare as [Hb|Hb].
    + destruct (IHl Hb) as [p ->]. eexists. reflexivity.
    + destruct (IHr Hb) as [p Er].
      destruct (Evaluator.validateAggExpr l) as [[]|q]; [|eexists; reflexivity].
      simpl. rewrite Er. eexists. reflexivity.
  - simpl. exact (IHe Hbare).
  - simpl. apply negb_true_iff in Hbare. rewrite Hbare. eexists. reflexivity.
Qed.

Lemma rewriteProjection_bareColumn (projection : list Ast.Expr) :
  existsb bareColumn projection = true ->
  forall funcs, exists p, Evaluator.rewriteProjection funcs projection = Panic p.
Proof.
  induction projection as [|expr rest IH]; intros Hbare funcs; simpl in *;
    [discriminate Hbare|].
  destruct (Evaluator.validateAggExpr expr) as [[]|p] eqn:Hv; [|eexists; reflexivity].
  cbn [mbind Result_bind].
  destruct (bareColumn expr) eqn:Hb.
  - destruct (validateAggExpr_bareColumn expr Hb) as [p Ep].
    rewrite Ep in Hv. discriminate Hv.
  - destruct (Evaluator.rewrite funcs expr) as [[expr' funcs1]|p]; [|eexists; reflexivity].
    cbn [mbind Result_bind].
    destruct (IH Hbare funcs1) as [p ->]. eexists. reflexivity.
Qed.

(** X15: a SELECT whose projection, with the star expanded, holds an
    aggregate and also a column outside of every aggregate returns an
    error: there is no GROUP BY. *)
Theorem aggregate_select_rejects_a_bare_column
    (env : Evaluator.Environment) (pos : Token.Pos) (columns : list Ast.Expr)
    (table : Ast.Ident) (tab : Evaluator.Table) (where_ : option Ast.Expr) :
  Evaluator.tables env !! Ast.Name table = Some tab ->
  existsb Evaluator.containsAggFunc (Evaluator.expandStar tab columns) = true ->
  existsb bareColumn (Evaluator.expandStar tab columns) = true ->
  exists e,
    Evaluator.EvalStmt env (Ast.SelectStmt pos columns (Ast.IdentExpr table) where_)
    = (Ok (None, Some e), env).
Proof.
  intros Htab Hagg Hbare.
  unfold Evaluator.EvalStmt, Evaluator.evalStmtBody, Evaluator.evalSelectStmt,
    Evaluator.lookupTable.
  rewrite Htab. cbn [mbind Result_bind]. rewrite Hagg.
  unfold Evaluator.evalAggregateSelectStmt.
  destruct (rewriteProjection_bareColumn _ Hbare []) as [p ->].
  destruct p; eexists; reflexivity.
Qed.

End Statements.

(** SELECT b FROM t WHERE a = 1 on the sample table. *)
Lemma select_filters_then_projects_sample :
  let w := Ast.BinaryExpr (Ast.IdentExpr (Sample.ident "a")) Token.Equal
             (Ast.IntegerLiteral Sample.p0 1) in
  let columns := [Ast.IdentExpr (Sample.ident "b")] in
  let sat := fun row : Evaluator.Row =>
               match row with IntegerValue 1 :: _ => true | _ => false end in
  let proj := fun row : Evaluator.Row => drop 1 row in
  (Evaluator.tables Sample.env !! "t" = Some Sample.t
   /\ (forall row, In row (Evaluator.Data Sample.t) ->
         @Evaluator.whereMatches RunLib.lib [] (Evaluator.currentRow Sample.t row) (Some w)
         = Ok (sat row))
   /\ (forall row, In row (Evaluator.Data Sample.t) -> sat row = true ->
         forEach (@Evaluator.evalExpr RunLib.lib [] (Evaluator.currentRow Sample.t row))
           (Evaluator.expandStar Sample.t columns)
         = Ok (proj row)))
  /\ exists result,
       @Evaluator.EvalStmt RunLib.lib Sample.env
         (Ast.SelectStmt Sample.p0 columns (Ast.IdentExpr (Sample.ident "t")) (Some w))
       = (Ok (Some result, None), Sample.env)
       /\ Evaluator.Data result = [[IntegerValue 2]]
       /\ map Evaluator.Name (Evaluator.Columns result) = ["b"].
Proof.
  intros w columns sat proj.
  assert (Hw : forall row, In row (Evaluator.Data Sample.t) ->
            @Evaluator.whereMatches RunLib.lib [] (Evaluator.currentRow Sample.t row) (Some w)
            = Ok (sat row)).
  { intros row [<-|[<-|[]]]; reflexivity. }
  assert (Hp : forall row, In row (Evaluator.Data Sample.t) -> sat row = true ->
            forEach (@Evaluator.evalExpr RunLib.lib [] (Evaluator.currentRow Sample.t row))
              (Evaluator.expandStar Sample.t columns)
            = Ok (proj row)).
  { intros row [<-|[<-|[]]] Hsat; [reflexivity | discriminate Hsat]. }
  split; [split; [reflexivity | split; [exact Hw | exact Hp]]|].
  exact (@select_filters_then_projects RunLib.lib Sample.env Sample.p0 columns
           (Sample.ident "t") Sample.t (Some w) sat proj eq_refl eq_refl Hw Hp).
Defined.

Lemma statement_on_a_relation_that_does_not_exist_sample :
  Evaluator.tables Sample.env !! "u" = None
  /\ @Evaluator.EvalStmt RunLib.lib Sample.env
       (Ast.DeleteStmt Sample.p0 (Sample.ident "u") None)
     = (Ok (None, Some (Errorf "relation %q does not exist" [AStr "u"])), Sample.env).
Proof.
  split; [reflexivity|].
  exact (proj2 (proj2 (proj2
           (@statement_on_a_relation_that_does_not_exist RunLib.lib Sample.env Sample.p0
              (Sample.ident "u") [] [] [] None eq_refl)))).
Defined.

(** UPDATE t SET a = 0 WHERE a = 1 on the sample table. *)
Lemma update_keeps_the_shape_of_the_table_sample :
  let w := Ast.BinaryExpr (Ast.IdentExpr (Sample.ident "a")) Token.Equal
             (Ast.IntegerLiteral Sample.p0 1) in
  Evaluator.tables Sample.env !! "t" = Some Sample.t
  /\ exists res rows',
       @Evaluator.EvalStmt RunLib.lib Sample.env
         (Ast.UpdateStmt Sample.p0 (Sample.ident "t") [Sample.ident "a"]
            [Ast.IntegerLiteral Sample.p0 0] (Some w))
       = (Ok res, Evaluator.storeTable Sample.env "t" (Evaluator.withData Sample.t rows'))
       /\ Forall2
            (fun row row' =>
               length row' = length row
               /\ (@Evaluator.whereMatches RunLib.lib [] (Evaluator.currentRow Sample.t row)
                     (Some w) = Ok false -> row' = row))
            (Evaluator.Data Sample.t) rows'.
Proof.
  intros w. split; [reflexivity|].
  exact (@update_keeps_the_shape_of_the_table RunLib.lib Sample.env Sample.p0
           (Sample.ident "t") Sample.t [Sample.ident "a"] [Ast.IntegerLiteral Sample.p0 0]
           (Some w) eq_refl).
Defined.

(** DELETE FROM t WHERE a = 1 on the sample table. *)
Lemma delete_only_removes_rows_sample :
  let w := Ast.BinaryExpr (Ast.IdentExpr (Sample.ident "a")) Token.Equal
             (Ast.IntegerLiteral Sample.p0 1) in
  Evaluator.tables Sample.env !! "t" = Some Sample.t
  /\ match @Evaluator.EvalStmt RunLib.lib Sample.env
             (Ast.DeleteStmt Sample.p0 (Sample.ident "t") (Some w)) with
     | (Ok (_, None), env') =>
         exists kept,
           env' = Evaluator.storeTable Sample.env "t" (Evaluator.withData Sample.t kept)
           /\ sublist kept (Evaluator.Data Sample.t)
     | (Ok (_, Some _), env') => env' = Sample.env
     | (Panic _, _) => False
     end.
Proof.
  intros w. split; [reflexivity|].
  exact (@delete_only_removes_rows RunLib.lib Sample.env Sample.p0 (Sample.ident "t")
           Sample.t (Some w) eq_refl).
Defined.

(** SELECT a, COUNT( * ) FROM t on the sample table. *)
Lemma aggregate_select_rejects_a_bare_column_sample :
  let columns := [Ast.IdentExpr (Sample.ident "a");
                  Notions.call Sample.p0 "count" (Ast.SelectStarExpr Sample.p0)] in
  (Evaluator.tables Sample.env !! "t" = Some Sample.t
   /\ existsb Evaluator.containsAggFunc (Evaluator.expandStar Sample.t columns) = true
   /\ existsb Notions.bareColumn (Evaluator.expandStar Sample.t columns) = true)
  /\ exists e,
       @Evaluator.EvalStmt RunLib.lib Sample.env
         (Ast.SelectStmt Sample.p0 columns (Ast.IdentExpr (Sample.ident "t")) None)
       = (Ok (None, Some e), Sample.env).
Proof.
  intros columns. split; [repeat split|].
  exact (@aggregate_select_rejects_a_bare_column RunLib.lib Sample.env Sample.p0 columns
           (Sample.ident "t") Sample.t None eq_refl eq_refl eq_refl).
Defined.

(** ** COUNT, SUM, MIN and MAX *)

Section Aggregates.
Context `{GoLib}.
Import Notions.

Lemma wrap64_in_range (z : Z) : MinInt64 <= z <= MaxInt64 -> wrap64 z = z.
Proof.
  unfold wrap64, MinInt64, MaxInt64. intros Hz.
  change (2 ^ 63) with 9223372036854775808.
  change (2 ^ 64) with 18446744073709551616.
  rewrite Z.mod_small by lia. lia.
Qed.

Lemma wrap64_add_l (a b : Z) : wrap64 (wrap64 a + b) = wrap64 (a + b).
Proof.
  unfold wrap64. f_equal.
  replace ((a + 2 ^ 63) mod 2 ^ 64 - 2 ^ 63 + b + 2 ^ 63)
    with ((a + 2 ^ 63) mod 2 ^ 64 + b) by lia.
  rewrite Zplus_mod_idemp_l. f_equal. lia.
Qed.

(** The row loop of an aggregate SELECT with one accumulator: the
    accumulator takes the matching rows in turn. *)
Lemma aggregateRows_single (tab : Evaluator.Table) (where_ : option Ast.Expr)
    (sat : Evaluator.Row -> bool)
    (g : Evaluator.aggFunc -> Evaluator.Row -> Evaluator.aggFunc)
    (Inv : Evaluator.aggFunc -> Prop) (rows : list Evaluator.Row) :
  (forall funcs row, In row rows ->
     Evaluator.whereMatches funcs (Evaluator.currentRow tab row) where_ = Ok (sat row)) ->
  (forall fn row, In row rows -> sat row = true -> Inv fn ->
     Evaluator.step [fn] fn (Evaluator.currentRow tab row) = Ok (g fn row)
     /\ Inv (g fn row)) ->
  forall fn matched,
    Inv fn ->
    Evaluator.aggregateRows tab where_ [fn] matched rows
    = Ok ([fold_left g (List.filter sat rows) fn], matched || List.existsb sat rows).
Proof.
  induction rows as [|row rest IH]; intros Hw Hstep fn matched Hfn; simpl.
  - rewrite orb_false_r. reflexivity.
  - rewrite (Hw [fn] row (or_introl eq_refl)). cbn [mbind Result_bind].
    destruct (sat row) eqn:Hsat.
    + destruct (Hstep fn row (or_introl eq_refl) Hsat Hfn) as [E Hinv].
      cbn [forEach]. rewrite E. cbn [mbind Result_bind].
      rewrite IH; [rewrite orb_true_r; reflexivity | | | exact Hinv].
      * intros fs r Hr. apply Hw. right. exact Hr.
      * intros f r Hr. apply Hstep. right. exact Hr.
    + rewrite IH; [reflexivity | | | exact Hfn].
      * intros fs r Hr. apply Hw. right. exact Hr.
      * intros f r Hr. apply Hstep. right. exact Hr.
Qed.

(** A SELECT whose projection is the one call of an aggregate function:
    from the accumulator the row loop leaves to the statement's result. *)
Lemma select_one_aggregate (env : Evaluator.Environment) (pos namePos : Token.Pos)
    (name : string) (arg : Ast.Expr) (table : Ast.Ident) (tab : Evaluator.Table)
    (where_ : option Ast.Expr) (constructor : Evaluator.aggFuncConstructor)
    (fn0 fn1 : Evaluator.aggFunc) :
  Evaluator.tables env !! Ast.Name table = Some tab ->
  Evaluator.builtinAggFuncs name = Some constructor ->
  constructor (call namePos name arg) [arg] = Ok fn0 ->
  Evaluator.containsAggFunc arg = false ->
  Evaluator.aggregateRows tab where_ [fn0] false (Evaluator.Data tab) = Ok ([fn1], true) ->
  Evaluator.EvalStmt env
    (Ast.SelectStmt pos [call namePos name arg] (Ast.IdentExpr table) where_)
  = (Ok (Some (oneValue (Evaluator.finalize fn1)), None), env).
Proof.
  intros Htab Hname Hnew Harg Hrows.
  unfold Evaluator.EvalStmt, Evaluator.evalStmtBody, Evaluator.evalSelectStmt,
    Evaluator.lookupTable.
  rewrite Htab. cbn [mbind Result_bind].
  unfold Evaluator.expandStar, call. cbn [flat_map app].
  cbn [existsb Evaluator.containsAggFunc Ast.Name].
  unfold Evaluator.isAggFunc. rewrite Hname. cbn [orb].
  unfold Evaluator.evalAggregateSelectStmt.
  cbn [Evaluator.rewriteProjection Evaluator.validateAggExpr Ast.Name].
  unfold Evaluator.isAggFunc. rewrite Hname.
  cbn [Evaluator.nestedAggArg]. rewrite Harg.
  cbn [mbind Result_bind Evaluator.rewrite Ast.Name]. rewrite Hname.
  unfold call in Hnew. rewrite Hnew.
  cbn [mbind Result_bind length app]. rewrite Hrows.
  reflexivity.
Qed.

(** *** COUNT *)

Lemma filter_all {A} (l : list A) : List.filter (fun _ => true) l = l.
Proof. induction l as [|a l IH]; simpl; [reflexivity | rewrite IH; reflexivity]. Qed.

Lemma count_fold (e : Ast.Expr) (isStar : bool) (keep : Evaluator.Row -> bool)
    (rows : list Evaluator.Row) :
  forall c : Z,
    0 <= c ->
    c + Z.of_nat (length rows) <= MaxInt64 ->
    fold_left
      (fun fn row =>
         match fn with
         | Evaluator.countAggFunc e' s c' =>
             if keep row then Evaluator.countAggFunc e' s (wrap64 (c' + 1)) else fn
         | _ => fn
         end) rows (Evaluator.countAggFunc e isStar c)
    = Evaluator.countAggFunc e isStar (c + Z.of_nat (length (List.filter keep rows))).
Proof.
  induction rows as [|row rest IH]; intros c Hc Hmax; simpl.
  - f_equal. lia.
  - cbn [length] in Hmax. rewrite Nat2Z.inj_succ in Hmax.
    destruct (keep row); simpl.
    + rewrite wrap64_in_range by (unfold MinInt64, MaxInt64 in *; lia).
      rewrite IH by lia. f_equal. lia.
    + rewrite IH by lia. reflexivity.
Qed.

(** X16: SELECT COUNT( * ) FROM T [WHERE ...], when a row matches, returns
    one row with the number of rows that match. *)
Theorem count_star_counts_the_matching_rows
    (env : Evaluator.Environment) (pos namePos starPos : Token.Pos)
    (table : Ast.Ident) (tab : Evaluator.Table) (where_ : option Ast.Expr)
    (sat : Evaluator.Row -> bool) :
  Evaluator.tables env !! Ast.Name table = Some tab ->
  (forall funcs row, In row (Evaluator.Data tab) ->
     Evaluator.whereMatches funcs (Evaluator.currentRow tab row) where_ = Ok (sat row)) ->
  List.existsb sat (Evaluator.Data tab) = true ->
  Z.of_nat (length (Evaluator.Data tab)) <= MaxInt64 ->
  Evaluator.EvalStmt env
    (Ast.SelectStmt pos [call namePos "count" (Ast.SelectStarExpr starPos)]
       (Ast.IdentExpr table) where_)
  = (Ok (Some (oneValue
                 (IntegerValue
                    (Z.of_nat (length (List.filter sat (Evaluator.Data tab)))))),
         None), env).
Proof.
  intros Htab Hw Hsome Hmax.
  set (g := fun (fn : Evaluator.aggFunc) (row : Evaluator.Row) =>
              match fn with
              | Evaluator.countAggFunc e' s c' =>
                  Evaluator.countAggFunc e' s (wrap64 (c' + 1))
              | _ => fn
              end).
  pose proof (aggregateRows_single tab where_ sat g
                (fun fn => exists c, fn = Evaluator.countAggFunc (Ast.SelectStarExpr starPos) true c)
                (Evaluator.Data tab) Hw) as Hrows.
  specialize (Hrows ltac:(intros fn row _ _ [c ->]; split; [reflexivity | eexists; reflexivity])
                (Evaluator.countAggFunc (Ast.SelectStarExpr starPos) true 0) false
                ltac:(eexists; reflexivity)).
  rewrite Hsome in Hrows.
  pose proof (count_fold (Ast.SelectStarExpr starPos) true (fun _ => true)
                (List.filter sat (Evaluator.Data tab)) 0 ltac:(lia)) as Hfold.
  cbv beta iota in Hfold. fold g in Hfold.
  rewrite Hfold in Hrows.
  2:{ pose proof (filter_length_le sat (Evaluator.Data tab)). lia. }
  rewrite (select_one_aggregate env pos namePos "count" (Ast.SelectStarExpr starPos)
             table tab where_ Evaluator.newCountAggFunc _ _ Htab eq_refl eq_refl eq_refl Hrows).
  cbn [Evaluator.finalize]. rewrite filter_all, Z.add_0_l. reflexivity.
Qed.

(** X17: SELECT COUNT(e) FROM T [WHERE ...], when a row matches, returns
    one row with the number of matching rows on which [e] is not null. *)
Theorem count_counts_the_values_that_are_not_null
    (env : Evaluator.Environment) (pos namePos : Token.Pos) (e : Ast.Expr)
    (table : Ast.Ident) (tab : Evaluator.Table) (where_ : option Ast.Expr)
    (sat : Evaluator.Row -> bool) (val : Evaluator.Row -> Value) :
  Evaluator.tables env !! Ast.Name table = Some tab ->
  (forall funcs row, In row (Evaluator.Data tab) ->
     Evaluator.whereMatches funcs (Evaluator.currentRow tab row) where_ = Ok (sat row)) ->
  Evaluator.containsAggFunc e = false ->
  (forall funcs row, In row (Evaluator.Data tab) ->
     Evaluator.evalExpr funcs (Evaluator.currentRow tab row) e = Ok (val row)) ->
  List.existsb sat (Evaluator.Data tab) = true ->
  Z.of_nat (length (Evaluator.Data tab)) <= MaxInt64 ->
  Evaluator.EvalStmt env
    (Ast.SelectStmt pos [call namePos "count" e] (Ast.IdentExpr table) where_)
  = (Ok (Some (oneValue
                 (IntegerValue
                    (Z.of_nat
                       (length (List.filter (fun row => negb (isNull (val row)))
                                  (List.filter sat (Evaluator.Data tab))))))),
         None), env).
Proof.
  intros Htab Hw Harg Hval Hsome Hmax.
  assert (Hstar : match e with Ast.SelectStarExpr _ => true | _ => false end = false).
  { apply existsb_exists in Hsome as [row [Hrow _]].
    specialize (Hval [] row Hrow). destruct e; try reflexivity. discriminate Hval. }
  set (keep := fun row : Evaluator.Row => negb (isNull (val row))).
  set (g := fun (fn : Evaluator.aggFunc) (row : Evaluator.Row) =>
              match fn with
              | Evaluator.countAggFunc e' s c' =>
                  if keep row then Evaluator.countAggFunc e' s (wrap64 (c' + 1)) else fn
              | _ => fn
              end).
  pose proof (aggregateRows_single tab where_ sat g
                (fun fn => exists c, fn = Evaluator.countAggFunc e false c)
                (Evaluator.Data tab) Hw) as Hrows.
  specialize (Hrows
    ltac:(intros fn row Hrow _ [c ->]; cbn [Evaluator.step];
          rewrite (Hval _ row Hrow); unfold g, keep;
          destruct (val row); (split; [reflexivity | eexists; reflexivity]))
    (Evaluator.countAggFunc e false 0) false ltac:(eexists; reflexivity)).
  rewrite Hsome in Hrows. unfold g in Hrows.
  rewrite (count_fold e false keep) in Hrows; [|lia|].
  2:{ pose proof (filter_length_le sat (Evaluator.Data tab)). lia. }
  assert (Hnew : Evaluator.newCountAggFunc (call namePos "count" e) [e]
                 = Ok (Evaluator.countAggFunc e false 0)).
  { unfold Evaluator.newCountAggFunc. simpl. rewrite Hstar. reflexivity. }
  rewrite (select_one_aggregate env pos namePos "count" e table tab where_
             Evaluator.newCountAggFunc _ _ Htab eq_refl Hnew Harg Hrows).
  cbn [Evaluator.finalize]. rewrite Z.add_0_l. reflexivity.
Qed.

(** *** SUM *)

Lemma wrap64_idempotent (z : Z) : wrap64 (wrap64 z) = wrap64 z.
Proof. pose proof (wrap64_add_l z 0) as E. rewrite !Z.add_0_r in E. exact E. Qed.

Lemma sum_fold (e : Ast.Expr) (fsum : float) (ival : Evaluator.Row -> option Z)
    (rows : list Evaluator.Row) :
  forall isum : Z,
    wrap64 isum = isum ->
    fold_left
      (fun fn row =>
         match fn, ival row with
         | Evaluator.sumAggFunc e' f i b, Some n =>
             Evaluator.sumAggFunc e' f (wrap64 (i + n)) b
         | _, _ => fn
         end) rows (Evaluator.sumAggFunc e fsum isum false)
    = Evaluator.sumAggFunc e fsum (wrap64 (isum + sumOf (omap ival rows))) false.
Proof.
  induction rows as [|row rest IH]; intros isum Hi; simpl.
  - unfold sumOf. simpl. rewrite Z.add_0_r, Hi. reflexivity.
  - destruct (ival row) as [n|].
    + rewrite IH by apply wrap64_idempotent.
      rewrite wrap64_add_l. unfold sumOf. simpl. rewrite Z.add_assoc. reflexivity.
    + apply IH. exact Hi.
Qed.

(** X18: SELECT SUM(e) FROM T [WHERE ...], when a row matches and [e] is
    an integer or null on the rows, returns one row with the sum of the
    integers of the matching rows, wrapped around as [int64] is; the sum
    of no integer at all is zero. *)
Theorem sum_adds_the_integers_of_the_matching_rows
    (env : Evaluator.Environment) (pos namePos : Token.Pos) (e : Ast.Expr)
    (table : Ast.Ident) (tab : Evaluator.Table) (where_ : option Ast.Expr)
    (sat : Evaluator.Row -> bool) (ival : Evaluator.Row -> option Z) :
  Evaluator.tables env !! Ast.Name table = Some tab ->
  (forall funcs row, In row (Evaluator.Data tab) ->
     Evaluator.whereMatches funcs (Evaluator.currentRow tab row) where_ = Ok (sat row)) ->
  Evaluator.containsAggFunc e = false ->
  (forall funcs row, In row (Evaluator.Data tab) ->
     Evaluator.evalExpr funcs (Evaluator.currentRow tab row) e
     = Ok (integerOrNull (ival row))) ->
  List.existsb sat (Evaluator.Data tab) = true ->
  Evaluator.EvalStmt env
    (Ast.SelectStmt pos [call namePos "sum" e] (Ast.IdentExpr table) where_)
  = (Ok (Some (oneValue
                 (IntegerValue
                    (wrap64 (sumOf (omap ival (List.filter sat (Evaluator.Data tab))))))),
         None), env).
Proof.
  intros Htab Hw Harg Hval Hsome.
  set (g := fun (fn : Evaluator.aggFunc) (row : Evaluator.Row) =>
              match fn, ival row with
              | Evaluator.sumAggFunc e' f i b, Some n =>
                  Evaluator.sumAggFunc e' f (wrap64 (i + n)) b
              | _, _ => fn
              end).
  pose proof (aggregateRows_single tab where_ sat g
                (fun fn => exists i, fn = Evaluator.sumAggFunc e 0%float i false)
                (Evaluator.Data tab) Hw) as Hrows.
  specialize (Hrows
    ltac:(intros fn row Hrow _ [i ->]; cbn [Evaluator.step];
          rewrite (Hval _ row Hrow); unfold g;
          destruct (ival row); (split; [reflexivity | eexists; reflexivity]))
    (Evaluator.sumAggFunc e 0%float 0 false) false ltac:(eexists; reflexivity)).
  rewrite Hsome in Hrows. unfold g in Hrows.
  rewrite (sum_fold e 0%float ival) in Hrows by reflexivity.
  rewrite (select_one_aggregate env pos namePos "sum" e table tab where_
             Evaluator.newSumAggFunc _ _ Htab eq_refl eq_refl Harg Hrows).
  reflexivity.
Qed.

(** *** MIN and MAX on integers *)

Lemma foldr_min_start (l : list Z) (i n : Z) :
  foldr Z.min (Z.min i n) l = Z.min n (foldr Z.min i l).
Proof. induction l as [|m l IH]; simpl; lia. Qed.

Lemma foldr_max_start (l : list Z) (i n : Z) :
  foldr Z.max (Z.max i n) l = Z.max n (foldr Z.max i l).
Proof. induction l as [|m l IH]; simpl; lia. Qed.

Lemma min_max_fold (e : Ast.Expr) (fval : float) (isMin : bool)
    (ival : Evaluator.Row -> option Z) (rows : list Evaluator.Row) :
  forall i : Z,
    fold_left
      (fun fn row =>
         match fn, ival row with
         | Evaluator.minMaxAggFunc e' f i' b m, Some n =>
             Evaluator.minMaxAggFunc e' f (Evaluator.setInt m i' n) b m
         | _, _ => fn
         end) rows (Evaluator.minMaxAggFunc e fval i false isMin)
    = Evaluator.minMaxAggFunc e fval
        (if isMin then foldr Z.min i (omap ival rows) else foldr Z.max i (omap ival rows))
        false isMin.
Proof.
  induction rows as [|row rest IH]; intros i; simpl.
  - destruct isMin; reflexivity.
  - destruct (ival row) as [n|]; [|apply IH].
    rewrite IH. f_equal. unfold Evaluator.setInt. destruct isMin.
    + replace (if n <? i then n else i) with (Z.min i n)
        by (destruct (n <? i) eqn:E; [apply Z.ltb_lt in E | apply Z.ltb_ge in E]; lia).
      apply foldr_min_start.
    + replace (if n >? i then n else i) with (Z.max i n)
        by (rewrite Z.gtb_ltb;
            destruct (i <? n) eqn:E; [apply Z.ltb_lt in E | apply Z.ltb_ge in E]; lia).
      apply foldr_max_start.
Qed.

(** X19: SELECT MIN(e) and SELECT MAX(e) FROM T [WHERE ...], when a row
    matches and [e] is an integer or null on the rows, return one row
    with the least and the greatest integer of the matching rows; when
    [e] is null on all of them, these are the largest and the smallest
    [int64]. *)
Theorem min_and_max_of_integers
    (env : Evaluator.Environment) (pos namePos : Token.Pos) (e : Ast.Expr)
    (table : Ast.Ident) (tab : Evaluator.Table) (where_ : option Ast.Expr)
    (sat : Evaluator.Row -> bool) (ival : Evaluator.Row -> option Z) :
  Evaluator.tables env !! Ast.Name table = Some tab ->
  (forall funcs row, In row (Evaluator.Data tab) ->
     Evaluator.whereMatches funcs (Evaluator.currentRow tab row) where_ = Ok (sat row)) ->
  Evaluator.containsAggFunc e = false ->
  (forall funcs row, In row (Evaluator.Data tab) ->
     Evaluator.evalExpr funcs (Evaluator.currentRow tab row) e
     = Ok (integerOrNull (ival row))) ->
  List.existsb sat (Evaluator.Data tab) = true ->
  Evaluator.EvalStmt env
    (Ast.SelectStmt pos [call namePos "min" e] (Ast.IdentExpr table) where_)
  = (Ok (Some (oneValue
                 (IntegerValue
                    (minOf (omap ival (List.filter sat (Evaluator.Data tab)))))),
         None), env)
  /\ Evaluator.EvalStmt env
       (Ast.SelectStmt pos [call namePos "max" e] (Ast.IdentExpr table) where_)
     = (Ok (Some (oneValue
                    (IntegerValue
                       (maxOf (omap ival (List.filter sat (Evaluator.Data tab)))))),
            None), env).
Proof.
  intros Htab Hw Harg Hval Hsome.
  set (g := fun (fn : Evaluator.aggFunc) (row : Evaluator.Row) =>
              match fn, ival row with
              | Evaluator.minMaxAggFunc e' f i' b m, Some n =>
                  Evaluator.minMaxAggFunc e' f (Evaluator.setInt m i' n) b m
              | _, _ => fn
              end).
  assert (Hrows : forall isMin i0,
            Evaluator.aggregateRows tab where_
              [Evaluator.minMaxAggFunc e 0%float i0 false isMin] false (Evaluator.Data tab)
            = Ok ([fold_left g (List.filter sat (Evaluator.Data tab))
                     (Evaluator.minMaxAggFunc e 0%float i0 false isMin)], true)).
  { intros isMin i0.
    pose proof (aggregateRows_single tab where_ sat g
                  (fun fn => exists i, fn = Evaluator.minMaxAggFunc e 0%float i false isMin)
                  (Evaluator.Data tab) Hw) as Hrows.
    specialize (Hrows
      ltac:(intros fn row Hrow _ [i ->]; cbn [Evaluator.step];
            rewrite (Hval _ row Hrow); unfold g;
            destruct (ival row); (split; [reflexivity | eexists; reflexivity]))
      (Evaluator.minMaxAggFunc e 0%float i0 false isMin) false ltac:(eexists; reflexivity)).
    rewrite Hsome in Hrows. exact Hrows. }
  split.
  - rewrite (select_one_aggregate env pos namePos "min" e table tab where_
               Evaluator.newMinAggFunc _ _ Htab eq_refl eq_refl Harg (Hrows true MaxInt64)).
    unfold g. rewrite (min_max_fold e 0%float true ival). reflexivity.
  - rewrite (select_one_aggregate env pos namePos "max" e table tab where_
               Evaluator.newMaxAggFunc _ _ Htab eq_refl eq_refl Harg (Hrows false MinInt64)).
    unfold g. rewrite (min_max_fold e 0%float false ival). reflexivity.
Qed.

End Aggregates.

(** SELECT COUNT( * ), COUNT(a), SUM(a), MIN(a), MAX(a) FROM t on the sample
    table, whose column a holds 1 and 3. *)
Lemma count_star_counts_the_matching_rows_sample :
  let sat := fun _ : Evaluator.Row => true in
  (Evaluator.tables Sample.env !! "t" = Some Sample.t
   /\ (forall funcs row, In row (Evaluator.Data Sample.t) ->
         @Evaluator.whereMatches RunLib.lib funcs (Evaluator.currentRow Sample.t row) None
         = Ok (sat row))
   /\ List.existsb sat (Evaluator.Data Sample.t) = true
   /\ Z.of_nat (length (Evaluator.Data Sample.t)) <= MaxInt64)
  /\ @Evaluator.EvalStmt RunLib.lib Sample.env
       (Ast.SelectStmt Sample.p0
          [Notions.call Sample.p0 "count" (Ast.SelectStarExpr Sample.p0)]
          (Ast.IdentExpr (Sample.ident "t")) None)
     = (Ok (Some (Notions.oneValue (IntegerValue 2)), None), Sample.env).
Proof.
  intros sat.
  assert (Hw : forall funcs row, In row (Evaluator.Data Sample.t) ->
            @Evaluator.whereMatches RunLib.lib funcs (Evaluator.currentRow Sample.t row) None
            = Ok (sat row)) by reflexivity.
  assert (Hmax : Z.of_nat (length (Evaluator.Data Sample.t)) <= MaxInt64)
    by (vm_compute; discriminate).
  split; [split; [reflexivity | split; [exact Hw | split; [reflexivity | exact Hmax]]]|].
  exact (@count_star_counts_the_matching_rows RunLib.lib Sample.env Sample.p0 Sample.p0
           Sample.p0 (Sample.ident "t") Sample.t None sat eq_refl Hw eq_refl Hmax).
Defined.

Lemma count_counts_the_values_that_are_not_null_sample :
  let sat := fun _ : Evaluator.Row => true in
  let val := fun row : Evaluator.Row => match row with v :: _ => v | [] => Nil end in
  let e := Ast.IdentExpr (Sample.ident "a") in
  (Evaluator.tables Sample.env !! "t" = Some Sample.t
   /\ (forall funcs row, In row (Evaluator.Data Sample.t) ->
         @Evaluator.whereMatches RunLib.lib funcs (Evaluator.currentRow Sample.t row) None
         = Ok (sat row))
   /\ (forall funcs row, In row (Evaluator.Data Sample.t) ->
         @Evaluator.evalExpr RunLib.lib funcs (Evaluator.currentRow Sample.t row) e
         = Ok (val row)))
  /\ @Evaluator.EvalStmt RunLib.lib Sample.env
       (Ast.SelectStmt Sample.p0 [Notions.call Sample.p0 "count" e]
          (Ast.IdentExpr (Sample.ident "t")) None)
     = (Ok (Some (Notions.oneValue (IntegerValue 2)), None), Sample.env).
Proof.
  intros sat val e.
  assert (Hw : forall funcs row, In row (Evaluator.Data Sample.t) ->
            @Evaluator.whereMatches RunLib.lib funcs (Evaluator.currentRow Sample.t row) None
            = Ok (sat row)) by reflexivity.
  assert (Hval : forall funcs row, In row (Evaluator.Data Sample.t) ->
            @Evaluator.evalExpr RunLib.lib funcs (Evaluator.currentRow Sample.t row) e
            = Ok (val row)).
  { intros funcs row [<-|[<-|[]]]; reflexivity. }
  assert (Hmax : Z.of_nat (length (Evaluator.Data Sample.t)) <= MaxInt64)
    by (vm_compute; discriminate).
  split; [split; [reflexivity | split; [exact Hw | exact Hval]]|].
  exact (@count_counts_the_values_that_are_not_null RunLib.lib Sample.env Sample.p0
           Sample.p0 e (Sample.ident "t") Sample.t None sat val eq_refl Hw eq_refl Hval
           eq_refl Hmax).
Defined.

Lemma sum_adds_the_integers_of_the_matching_rows_sample :
  let sat := fun _ : Evaluator.Row => true in
  let ival := fun row : Evaluator.Row =>
                match row with IntegerValue n :: _ => Some n | _ => None end in
  let e := Ast.IdentExpr (Sample.ident "a") in
  (Evaluator.tables Sample.env !! "t" = Some Sample.t
   /\ (forall funcs row, In row (Evaluator.Data Sample.t) ->
         @Evaluator.whereMatches RunLib.lib funcs (Evaluator.currentRow Sample.t row) None
         = Ok (sat row))
   /\ (forall funcs row, In row (Evaluator.Data Sample.t) ->
         @Evaluator.evalExpr RunLib.lib funcs (Evaluator.currentRow Sample.t row) e
         = Ok (Notions.integerOrNull (ival row))))
  /\ @Evaluator.EvalStmt RunLib.lib Sample.env
       (Ast.SelectStmt Sample.p0 [Notions.call Sample.p0 "sum" e]
          (Ast.IdentExpr (Sample.ident "t")) None)
     = (Ok (Some (Notions.oneValue (IntegerValue 4)), None), Sample.env).
Proof.
  intros sat ival e.
  assert (Hw : forall funcs row, In row (Evaluator.Data Sample.t) ->
            @Evaluator.whereMatches RunLib.lib funcs (Evaluator.currentRow Sample.t row) None
            = Ok (sat row)) by reflexivity.
  assert (Hval : forall funcs row, In row (Evaluator.Data Sample.t) ->
            @Evaluator.evalExpr RunLib.lib funcs (Evaluator.currentRow Sample.t row) e
            = Ok (Notions.integerOrNull (ival row))).
  { intros funcs row [<-|[<-|[]]]; reflexivity. }
  split; [split; [reflexivity | split; [exact Hw | exact Hval]]|].
  exact (@sum_adds_the_integers_of_the_matching_rows RunLib.lib Sample.env Sample.p0
           Sample.p0 e (Sample.ident "t") Sample.t None sat ival eq_refl Hw eq_refl Hval
           eq_refl).
Defined.

Lemma min_and_max_of_integers_sample :
  let sat := fun _ : Evaluator.Row => true in
  let ival := fun row : Evaluator.Row =>
                match row with IntegerValue n :: _ => Some n | _ => None end in
  let e := Ast.IdentExpr (Sample.ident "a") in
  (Evaluator.tables Sample.env !! "t" = Some Sample.t
   /\ (forall funcs row, In row (Evaluator.Data Sample.t) ->
         @Evaluator.whereMatches RunLib.lib funcs (Evaluator.currentRow Sample.t row) None
         = Ok (sat row))
   /\ (forall funcs row, In row (Evaluator.Data Sample.t) ->
         @Evaluator.evalExpr RunLib.lib funcs (Evaluator.currentRow Sample.t row) e
         = Ok (Notions.integerOrNull (ival row))))
  /\ @Evaluator.EvalStmt RunLib.lib Sample.env
       (Ast.SelectStmt Sample.p0 [Notions.call Sample.p0 "min" e]
          (Ast.IdentExpr (Sample.ident "t")) None)
     = (Ok (Some (Notions.oneValue (IntegerValue 1)), None), Sample.env)
  /\ @Evaluator.EvalStmt RunLib.lib Sample.env
       (Ast.SelectStmt Sample.p0 [Notions.call Sample.p0 "max" e]
          (Ast.IdentExpr (Sample.ident "t")) None)
     = (Ok (Some (Notions.oneValue (IntegerValue 3)), None), Sample.env).
Proof.
  intros sat ival e.
  assert (Hw : forall funcs row, In row (Evaluator.Data Sample.t) ->
            @Evaluator.whereMatches RunLib.lib funcs (Evaluator.currentRow Sample.t row) None
            = Ok (sat row)) by reflexivity.
  assert (Hval : forall funcs row, In row (Evaluator.Data Sample.t) ->
            @Evaluator.evalExpr RunLib.lib funcs (Evaluator.currentRow Sample.t row) e
            = Ok (Notions.integerOrNull (ival row))).
  { intros funcs row [<-|[<-|[]]]; reflexivity. }
  split; [split; [reflexivity | split; [exact Hw | exact Hval]]|].
  exact (@min_and_max_of_integers RunLib.lib Sample.env Sample.p0
           Sample.p0 e (Sample.ident "t") Sample.t None sat ival eq_refl Hw eq_refl Hval
           eq_refl).
Defined.

(** ** String literals *)

Section QuotedStrings.
Context `{GoLib}.
Import Notions.

(** [Scan] at a single quote goes into the loop of [consumeQuotedString]. *)
Lemma Scan_at_a_quote (lex : Lexer.Lexer) (body : list rune) :
  Lexer.err lex = None ->
  IsSpace Lexer.singleQuote = false ->
  drop (Lexer.pos lex) (Lexer.input lex) = Lexer.singleQuote :: body ->
  Lexer.Scan lex
  = Ok (Lexer.quotedStringLoop (atTokenStart lex) body (S (Lexer.pos lex)) []
          (Lexer.newLineTracker lex)).
Proof.
  intros Herr Hspace Hinput.
  unfold Lexer.Scan. rewrite Herr.
  unfold Lexer.skipSpace. cbn [Lexer.withTok Lexer.pos Lexer.input].
  rewrite Hinput. cbn [Lexer.skipSpaceLoop]. rewrite Hspace.
  cbn [negb Lexer.sync Lexer.withPos Lexer.withTok Lexer.pos Lexer.input].
  rewrite Hinput.
  change (Lexer.singleQuote =? 44) with false.
  change (Lexer.singleQuote =? 124) with false.
  change (Lexer.singleQuote =? 47) with false.
  change (Lexer.singleQuote =? 46) with false.
  change (Lexer.singleQuote =? 61) with false.
  change (Lexer.singleQuote =? 62) with false.
  change (Lexer.singleQuote =? 40) with false.
  change (Lexer.singleQuote =? 60) with false.
  change (Lexer.singleQuote =? 45) with false.
  change (Lexer.singleQuote =? 42) with false.
  change (Lexer.singleQuote =? 33) with false.
  change (Lexer.singleQuote =? 43) with false.
  change (Lexer.singleQuote =? 41) with false.
  change (Lexer.singleQuote =? 59) with false.
  change (Lexer.singleQuote =? Lexer.singleQuote) with true.
  cbv iota.
  unfold Lexer.consumeQuotedString.
  cbn [Lexer.sync Lexer.withPos Lexer.withTok Lexer.pos Lexer.input].
  rewrite Hinput.
  change (Lexer.singleQuote =? Lexer.singleQuote) with true. cbn [negb].
  reflexivity.
Qed.

(** The loop takes a doubled quote for one quote and every other rune
    for itself, up to the quote that is not doubled. *)
Lemma quotedStringLoop_unescapes (lex : Lexer.Lexer) (rest : list rune) :
  match rest with c :: _ => c <> Lexer.singleQuote | [] => True end ->
  forall (s : list rune) (i : nat) (runes : list rune) (t : Lexer.lineTracker),
    exists t',
      Lexer.quotedStringLoop lex (escapeQuotes s ++ Lexer.singleQuote :: rest) i runes t
      = (true,
         Lexer.withPos
           (Lexer.sync t'
              (Lexer.setLit (Lexer.setToken lex Token.StringLiteral)
                 (string_of_runes (runes ++ s))))
           (S (i + length (escapeQuotes s)))).
Proof.
  intros Hrest. induction s as [|c s IH]; intros i runes t.
  - exists t. simpl. rewrite app_nil_r, Nat.add_0_r.
    destruct rest as [|c1 rest']; [reflexivity|].
    destruct (c1 =? Lexer.singleQuote) eqn:E; [|reflexivity].
    apply Z.eqb_eq in E. contradiction.
  - unfold escapeQuotes. cbn [flat_map]. fold (escapeQuotes s).
    destruct (c =? Lexer.singleQuote) eqn:Hq.
    + apply Z.eqb_eq in Hq. subst c.
      cbn [app Lexer.quotedStringLoop].
      change (Lexer.singleQuote =? Lexer.singleQuote) with true. cbv iota.
      destruct (IH (S (S i)) (runes ++ [Lexer.singleQuote])%list t) as [t' E].
      exists t'. rewrite E, <- app_assoc. simpl.
      rewrite !Nat.add_succ_r. reflexivity.
    + assert (Hstep : forall t1,
                exists t',
                  Lexer.quotedStringLoop lex (escapeQuotes s ++ Lexer.singleQuote :: rest)
                    (S i) (runes ++ [c]) t1
                  = (true,
                     Lexer.withPos
                       (Lexer.sync t'
                          (Lexer.setLit (Lexer.setToken lex Token.StringLiteral)
                             (string_of_runes (runes ++ c :: s))))
                       (S (i + length ([c] ++ escapeQuotes s))))).
      { intros t1. destruct (IH (S i) (runes ++ [c])%list t1) as [t' E]. exists t'.
        rewrite E, <- app_assoc. simpl. rewrite Nat.add_succ_r. reflexivity. }
      cbn [app Lexer.quotedStringLoop]. rewrite Hq.
      destruct (c =? 10) eqn:Elf; [apply Hstep|].
      destruct (c =? 13) eqn:Ecr; [|apply Hstep].
      destruct (escapeQuotes s ++ Lexer.singleQuote :: rest)%list eqn:Ebody; apply Hstep.
Qed.

(** X20: a string written between single quotes, with its single quotes
    doubled, is read back as it was: the token is a string literal whose
    text is the string, and the lexer stands behind the closing quote. *)
Theorem quoted_string_is_read_back
    (lex : Lexer.Lexer) (s rest : list rune) :
  Lexer.err lex = None ->
  IsSpace Lexer.singleQuote = false ->
  drop (Lexer.pos lex) (Lexer.input lex) = (quoted s ++ rest)%list ->
  match rest with c :: _ => c <> Lexer.singleQuote | [] => True end ->
  exists lex',
    Lexer.Scan lex = Ok (true, lex')
    /\ Token.Kind_ (Lexer.tok lex') = Token.StringLiteral
    /\ Token.Lit (Lexer.tok lex') = string_of_runes s
    /\ Lexer.pos lex' = (Lexer.pos lex + length (quoted s))%nat
    /\ Lexer.err lex' = None.
Proof.
  intros Herr Hspace Hinput Hrest.
  unfold quoted in Hinput. cbn [app] in Hinput. rewrite <- app_assoc in Hinput.
  cbn [app] in Hinput.
  rewrite (Scan_at_a_quote lex _ Herr Hspace Hinput).
  destruct (quotedStringLoop_unescapes (atTokenStart lex) rest Hrest s
              (S (Lexer.pos lex)) [] (Lexer.newLineTracker lex)) as [t' E].
  rewrite E. eexists. split; [reflexivity|].
  cbn. rewrite Herr. repeat split; try reflexivity.
  unfold quoted. cbn [length]. rewrite length_app. simpl. lia.
Qed.

(** A body in which every quote is doubled never ends the literal. *)
Lemma quotedStringLoop_unterminated (lex : Lexer.Lexer) :
  forall (s : list rune) (i : nat) (runes : list rune) (t : Lexer.lineTracker),
    Lexer.quotedStringLoop lex (escapeQuotes s) i runes t
    = (false, Lexer.withErr lex (Lexer.errorf lex "unterminated string" [])).
Proof.
  induction s as [|c s IH]; intros i runes t; [reflexivity|].
  unfold escapeQuotes. cbn [flat_map]. fold (escapeQuotes s).
  destruct (c =? Lexer.singleQuote) eqn:Hq.
  - apply Z.eqb_eq in Hq. subst c.
    cbn [app Lexer.quotedStringLoop].
    change (Lexer.singleQuote =? Lexer.singleQuote) with true. cbv iota. apply IH.
  - cbn [app Lexer.quotedStringLoop]. rewrite Hq.
    destruct (c =? 10); [apply IH|].
    destruct (c =? 13); [|apply IH].
    destruct (escapeQuotes s); apply IH.
Qed.

(** X21: a string literal that the input ends in the middle of (an opening
    quote, and after it only doubled quotes and other runes) puts the
    lexer into the error state with "unterminated string", at the place
    of the opening quote. *)
Theorem unterminated_string_is_an_error
    (lex : Lexer.Lexer) (s : list rune) :
  Lexer.err lex = None ->
  IsSpace Lexer.singleQuote = false ->
  drop (Lexer.pos lex) (Lexer.input lex) = Lexer.singleQuote :: escapeQuotes s ->
  exists lex',
    Lexer.Scan lex = Ok (false, lex')
    /\ Lexer.Err lex' = Some (LexerError "unterminated string" [] (Lexer.getPos lex)).
Proof.
  intros Herr Hspace Hinput.
  rewrite (Scan_at_a_quote lex _ Herr Hspace Hinput).
  rewrite quotedStringLoop_unterminated.
  eexists. split; reflexivity.
Qed.

End QuotedStrings.

(** 'it''s' is read back as it's; 'it''s, with no closing quote, is an
    error. *)
Lemma quoted_string_is_read_back_sample :
  let s := [105; 116; 39; 115] in
  let lex := Lexer.New (Notions.quoted s) in
  (Lexer.err lex = None
   /\ @IsSpace RunLib.lib Lexer.singleQuote = false
   /\ drop (Lexer.pos lex) (Lexer.input lex) = (Notions.quoted s ++ [])%list)
  /\ exists lex',
       @Lexer.Scan RunLib.lib lex = Ok (true, lex')
       /\ Token.Kind_ (Lexer.tok lex') = Token.StringLiteral
       /\ Token.Lit (Lexer.tok lex') = string_of_runes s
       /\ Lexer.pos lex' = (Lexer.pos lex + length (Notions.quoted s))%nat
       /\ Lexer.err lex' = None.
Proof.
  intros s lex. split; [repeat split|].
  exact (@quoted_string_is_read_back RunLib.lib lex s [] eq_refl eq_refl eq_refl I).
Defined.

Lemma unterminated_string_is_an_error_sample :
  let s := [105; 116; 39; 115] in
  let lex := Lexer.New (Lexer.singleQuote :: Notions.escapeQuotes s) in
  (Lexer.err lex = None
   /\ @IsSpace RunLib.lib Lexer.singleQuote = false
   /\ drop (Lexer.pos lex) (Lexer.input lex) = Lexer.singleQuote :: Notions.escapeQuotes s)
  /\ exists lex',
       @Lexer.Scan RunLib.lib lex = Ok (false, lex')
       /\ Lexer.Err lex' = Some (LexerError "unterminated string" [] (Lexer.getPos lex)).
Proof.
  intros s lex. split; [repeat split|].
  exact (@unterminated_string_is_an_error RunLib.lib lex s eq_refl eq_refl eq_refl).
Defined.

(** ** Number literals *)

Section NumberLiterals.
Context `{GoLib}.
Import Notions.

Lemma numberLength_run (ds rest : list rune) :
  Forall (fun r => Lexer.isNumberRune r = true) ds ->
  match rest with c :: _ => Lexer.isNumberRune c = false | [] => True end ->
  Lexer.numberLength (ds ++ rest) = length ds.
Proof.
  intros Hds Hrest. induction Hds as [|r ds Hr _ IH]; cbn [app Lexer.numberLength length].
  - destruct rest as [|c rest]; [reflexivity |].
    cbn [Lexer.numberLength]. rewrite Hrest. reflexivity.
  - rewrite Hr, IH. reflexivity.
Qed.

(** [Scan] at a digit from 0 to 9 goes into [consumeNumber]. *)
Lemma Scan_at_a_digit (lex : Lexer.Lexer) (r : rune) (rest : list rune) :
  Lexer.err lex = None ->
  drop (Lexer.pos lex) (Lexer.input lex) = r :: rest ->
  48 <= r <= 57 ->
  IsSpace r = false ->
  IsDigit r = true ->
  Lexer.Scan lex = Lexer.consumeNumber (atTokenStart lex).
Proof.
  intros Herr Hinput Hr Hspace Hdigit.
  unfold Lexer.Scan. rewrite Herr.
  unfold Lexer.skipSpace. cbn [Lexer.withTok Lexer.pos Lexer.input].
  rewrite Hinput. cbn [Lexer.skipSpaceLoop]. rewrite Hspace.
  cbn [negb Lexer.sync Lexer.withPos Lexer.withTok Lexer.pos Lexer.input].
  rewrite Hinput.
  repeat match goal with
         | |- (if r =? ?c then _ else _) = _ =>
             destruct (r =? c) eqn:E;
             [apply Z.eqb_eq in E; unfold Lexer.singleQuote in E; lia | clear E]
         end.
  unfold Lexer.scanDefault. rewrite Hdigit. reflexivity.
Qed.

(** X22: at a digit from 0 to 9 the lexer takes the longest run of digits,
    dots and the letter e for the number: when [strconv.ParseFloat]
    accepts the run, the token is a number literal whose text is the run,
    and the lexer stands behind it; otherwise the lexer goes into the
    error state with "invalid numeric literal". *)
Theorem number_literal_is_the_longest_run
    (lex : Lexer.Lexer) (r : rune) (ds rest : list rune) :
  Lexer.err lex = None ->
  drop (Lexer.pos lex) (Lexer.input lex) = (r :: ds ++ rest)%list ->
  48 <= r <= 57 ->
  IsSpace r = false ->
  IsDigit r = true ->
  Forall (fun c => Lexer.isNumberRune c = true) ds ->
  match rest with c :: _ => Lexer.isNumberRune c = false | [] => True end ->
  exists lex',
    match ParseFloat (string_of_runes (r :: ds)) with
    | Some _ =>
        Lexer.Scan lex = Ok (true, lex')
        /\ Token.Kind_ (Lexer.Token_ lex') = Token.NumberLiteral
        /\ Token.Lit (Lexer.Token_ lex') = string_of_runes (r :: ds)
        /\ Lexer.pos lex' = (Lexer.pos lex + length (r :: ds))%nat
        /\ Lexer.Err lex' = None
    | None =>
        Lexer.Scan lex = Ok (false, lex')
        /\ Lexer.Err lex'
           = Some (LexerError "invalid numeric literal: %s"
                     [AErr (NumError "ParseFloat" (string_of_runes (r :: ds)))]
                     (Lexer.getPos lex))
    end.
Proof.
  intros Herr Hinput Hr Hspace Hdigit Hds Hrest.
  rewrite (Scan_at_a_digit lex r _ Herr Hinput Hr Hspace Hdigit).
  assert (Hrun : Forall (fun c => Lexer.isNumberRune c = true) (r :: ds)).
  { constructor; [|exact Hds]. unfold Lexer.isNumberRune.
    replace (48 <=? r) with true by (symmetry; apply Z.leb_le; lia).
    replace (r <=? 57) with true by (symmetry; apply Z.leb_le; lia).
    reflexivity. }
  unfold Lexer.consumeNumber.
  cbn [atTokenStart Lexer.sync Lexer.withPos Lexer.withTok Lexer.pos Lexer.input].
  rewrite Hinput.
  change (r :: ds ++ rest)%list with ((r :: ds) ++ rest)%list.
  rewrite (numberLength_run (r :: ds) rest Hrun Hrest).
  rewrite take_app_length.
  cbn [length Nat.eqb].
  destruct (ParseFloat (string_of_runes (r :: ds))); eexists;
    (split; [reflexivity|]); cbn; rewrite ?Herr; repeat split; reflexivity.
Qed.

End NumberLiterals.

(** The input 12.5+x gives the number literal 12.5. *)
Lemma number_literal_is_the_longest_run_sample :
  let lex := Lexer.New (Sample.runes "12.5+x") in
  (Lexer.err lex = None
   /\ drop (Lexer.pos lex) (Lexer.input lex) = (49 :: [50; 46; 53] ++ [43; 120])%list
   /\ 48 <= 49 <= 57
   /\ @IsSpace RunLib.lib 49 = false
   /\ @IsDigit RunLib.lib 49 = true
   /\ Forall (fun c => Lexer.isNumberRune c = true) [50; 46; 53])
  /\ exists lex',
       @Lexer.Scan RunLib.lib lex = Ok (true, lex')
       /\ Token.Kind_ (Lexer.Token_ lex') = Token.NumberLiteral
       /\ Token.Lit (Lexer.Token_ lex') = "12.5"
       /\ Lexer.pos lex' = 4%nat
       /\ Lexer.Err lex' = None.
Proof.
  intros lex.
  assert (Hds : Forall (fun c => Lexer.isNumberRune c = true) [50; 46; 53])
    by (repeat constructor).
  split; [repeat split; [discriminate | discriminate | exact Hds]|].
  exact (@number_literal_is_the_longest_run RunLib.lib lex 49 [50; 46; 53] [43; 120]
           eq_refl eq_refl ltac:(lia) eq_refl eq_refl Hds eq_refl).
Defined.

(** ** The end of the input *)

Section EndOfInput.
Context `{GoLib}.

Lemma skipSpaceLoop_blank (n : nat) :
  forall (rest : list rune) (pos : nat) (t : Lexer.lineTracker),
    (length rest <= n)%nat ->
    Forall (fun r => IsSpace r = true) rest ->
    exists t', Lexer.skipSpaceLoop rest pos t = (false, (pos + length rest)%nat, t').
Proof.
  induction n as [|n IH]; intros rest pos t Hn Hblank.
  - destruct rest; [|simpl in Hn; lia]. exists t. simpl. f_equal. f_equal. lia.
  - destruct rest as [|r rest']; [exists t; simpl; f_equal; f_equal; lia|].
    simpl in Hn. apply Forall_cons in Hblank as [Hr Hrest'].
    assert (Hone : forall t1,
              exists t', Lexer.skipSpaceLoop rest' (S pos) t1
                         = (false, (pos + length (r :: rest'))%nat, t')).
    { intros t1. destruct (IH rest' (S pos) t1 ltac:(lia) Hrest') as [t' E].
      exists t'. rewrite E. simpl. f_equal. f_equal. lia. }
    cbn [Lexer.skipSpaceLoop]. rewrite Hr. cbn [negb].
    destruct (r =? 10); [apply Hone|].
    destruct (r =? 13); [|apply Hone].
    destruct rest' as [|r1 rest'']; [apply Hone|].
    destruct (r1 =? 10); [|apply Hone].
    apply Forall_cons in Hrest' as [_ Hrest''].
    destruct (IH rest'' (S (S pos)) (Lexer.next t (S pos)) ltac:(simpl in Hn; lia) Hrest'')
      as [t' E].
    exists t'. rewrite E. simpl. f_equal. f_equal. lia.
Qed.

(** X23: when only white space is left, [Scan] returns false without an
    error, on the invalid token and at the end of the input; and [Parse]
    of an input of white space returns no statement and no error,
    whatever the fuel. *)
Theorem blank_input_holds_no_token_and_no_statement (lex : Lexer.Lexer) :
  Lexer.err lex = None ->
  Forall (fun r => IsSpace r = true) (drop (Lexer.pos lex) (Lexer.input lex)) ->
  (exists lex',
     Lexer.Scan lex = Ok (false, lex')
     /\ Lexer.Err lex' = None
     /\ Token.Kind_ (Lexer.Token_ lex') = Token.Invalid
     /\ Lexer.pos lex'
        = (Lexer.pos lex + length (drop (Lexer.pos lex) (Lexer.input lex)))%nat)
  /\ forall fuel, Parser.Parse fuel lex = Some (Ok ([], None)).
Proof.
  intros Herr Hblank.
  assert (Hscan : exists lex',
            Lexer.Scan lex = Ok (false, lex')
            /\ Lexer.Err lex' = None
            /\ Token.Kind_ (Lexer.Token_ lex') = Token.Invalid
            /\ Lexer.pos lex'
               = (Lexer.pos lex + length (drop (Lexer.pos lex) (Lexer.input lex)))%nat).
  { unfold Lexer.Scan. rewrite Herr. unfold Lexer.skipSpace.
    cbn [Lexer.withTok Lexer.pos Lexer.input].
    match goal with
    | |- context [Lexer.skipSpaceLoop ?rest ?pos ?t] =>
        destruct (skipSpaceLoop_blank (length rest) rest pos t (Nat.le_refl _) Hblank)
          as [t' E]
    end.
    rewrite E. cbn [negb]. eexists. split; [reflexivity|].
    cbn. rewrite Herr. repeat split. }
  split; [exact Hscan|].
  intros fuel. destruct Hscan as [lex' [E _]].
  unfold Parser.Parse, Parser.parseBody. rewrite E. reflexivity.
Qed.

End EndOfInput.

Lemma blank_input_holds_no_token_and_no_statement_sample :
  let lex := Lexer.New [32; 13; 10; 9] in
  (Lexer.err lex = None
   /\ Forall (fun r => @IsSpace RunLib.lib r = true) (drop (Lexer.pos lex) (Lexer.input lex)))
  /\ (exists lex',
        @Lexer.Scan RunLib.lib lex = Ok (false, lex')
        /\ Lexer.Err lex' = None
        /\ Token.Kind_ (Lexer.Token_ lex') = Token.Invalid
        /\ Lexer.pos lex'
           = (Lexer.pos lex + length (drop (Lexer.pos lex) (Lexer.input lex)))%nat)
  /\ forall fuel, @Parser.Parse RunLib.lib fuel lex = Some (Ok ([], None)).
Proof.
  intros lex.
  assert (Hblank : Forall (fun r => @IsSpace RunLib.lib r = true)
                     (drop (Lexer.pos lex) (Lexer.input lex)))
    by (repeat constructor).
  split; [split; [reflexivity | exact Hblank]|].
  exact (@blank_input_holds_no_token_and_no_statement RunLib.lib lex eq_refl Hblank).
Defined.

(** ** The token of a successful [Scan] *)

Section ScanSetsAToken.
Context `{GoLib}.
Import Notions.

Lemma consumeRune_setsToken (lex : Lexer.Lexer) (kind : Token.Kind) :
  kind <> Token.Invalid -> setsToken lex (Ok (Lexer.consumeRune lex kind)).
Proof. intros Hk. simpl. split; [exact Hk | reflexivity]. Qed.

Lemma matchString_setsToken (lex : Lexer.Lexer) (s : list rune) (kind : Token.Kind)
    (otherwise : Result (bool * Lexer.Lexer)) :
  kind <> Token.Invalid ->
  setsToken lex otherwise ->
  setsToken lex
    (let '(ok, lex') := Lexer.matchString lex s kind in
     if ok : bool then Ok (true, lex') else otherwise).
Proof.
  intros Hk Hother. unfold Lexer.matchString.
  destruct (Lexer.hasPrefix s _); [|exact Hother].
  simpl. split; [exact Hk | reflexivity].
Qed.

Lemma consumeNumber_setsToken (lex : Lexer.Lexer) :
  setsToken lex (Lexer.consumeNumber lex).
Proof.
  unfold Lexer.consumeNumber.
  destruct (_ =? 0)%nat; [exact I|].
  destruct (ParseFloat _); simpl; [split; [discriminate | reflexivity] | exact I].
Qed.

Lemma quotedStringLoop_setsToken (lex : Lexer.Lexer) (n : nat) :
  forall (rest : list rune) (i : nat) (runes : list rune) (t : Lexer.lineTracker),
    (length rest <= n)%nat ->
    setsToken lex (Ok (Lexer.quotedStringLoop lex rest i runes t)).
Proof.
  induction n as [|n IH]; intros rest i runes t Hn.
  - destruct rest; [exact I | simpl in Hn; lia].
  - destruct rest as [|c rest']; [exact I|].
    simpl in Hn.
    assert (Hone : forall j rs t1,
              setsToken lex (Ok (Lexer.quotedStringLoop lex rest' j rs t1))).
    { intros j rs t1. apply IH. lia. }
    cbn [Lexer.quotedStringLoop].
    destruct (c =? Lexer.singleQuote).
    { destruct rest' as [|c1 rest'']; [simpl; split; [discriminate | reflexivity]|].
      destruct (c1 =? Lexer.singleQuote); [|simpl; split; [discriminate | reflexivity]].
      apply IH. simpl in Hn. lia. }
    destruct (c =? 10); [apply Hone|].
    destruct (c =? 13); [|apply Hone].
    destruct rest' as [|c1 rest'']; apply Hone.
Qed.

Lemma consumeQuotedString_setsToken (lex : Lexer.Lexer) :
  setsToken lex (Lexer.consumeQuotedString lex).
Proof.
  unfold Lexer.consumeQuotedString.
  destruct (drop _ _) as [|c rest]; [exact I|].
  destruct (negb _); [exact I|].
  apply (quotedStringLoop_setsToken lex (length rest)). lia.
Qed.

(** No keyword is of the invalid kind. *)
Lemma sqlKeywords_valid (word : string) (kind : Token.Kind) :
  Lexer.sqlKeywords !! word = Some kind -> kind <> Token.Invalid.
Proof.
  intros Hw. apply elem_of_list_to_map_2 in Hw.
  repeat (apply elem_of_cons in Hw as [Hw|Hw]; [inversion Hw; discriminate|]).
  inversion Hw.
Qed.

Lemma scanDefault_setsToken (lex : Lexer.Lexer) (r : rune) :
  setsToken lex (Lexer.scanDefault lex r).
Proof.
  unfold Lexer.scanDefault.
  destruct (IsDigit r); [apply consumeNumber_setsToken|].
  destruct (Lexer.nextWord lex) as [runes|]; [|exact I]. cbn [mbind Result_bind].
  destruct (negb _); [|exact I].
  destruct (Lexer.sqlKeywords !! _) as [kind|] eqn:Hk; simpl.
  - split; [exact (sqlKeywords_valid _ _ Hk) | reflexivity].
  - split; [discriminate | reflexivity].
Qed.

(** A [Scan] that returns true has set a token, and the lexer is not in
    the error state. *)
Lemma Scan_true_sets_a_token (lex lex' : Lexer.Lexer) :
  Lexer.Scan lex = Ok (true, lex') ->
  Token.Kind_ (Lexer.tok lex') <> Token.Invalid /\ Lexer.err lex' = None.
Proof.
  unfold Lexer.Scan.
  destruct (Lexer.err lex) eqn:Herr; [discriminate|].
  set (lex0 := Lexer.withTok lex _).
  destruct (Lexer.skipSpace lex0) as [more lex1] eqn:Hskip.
  assert (Herr1 : Lexer.err lex1 = None).
  { unfold Lexer.skipSpace in Hskip.
    destruct (Lexer.skipSpaceLoop _ _ _) as [[[] pos'] t']; inversion Hskip; exact Herr. }
  destruct more; cbn [negb]; [|discriminate].
  destruct (drop (Lexer.pos lex1) (Lexer.input lex1)) as [|r rest]; [discriminate|].
  intros E.
  assert (Hset : setsToken lex1 (Ok (true, lex'))).
  { rewrite <- E.
    repeat match goal with
           | |- setsToken _ (if ?r =? ?c then _ else _) => destruct (r =? c)
           end;
      try (apply consumeRune_setsToken; discriminate);
      try (apply matchString_setsToken; [discriminate|]);
      try (apply consumeRune_setsToken; discriminate);
      try apply scanDefault_setsToken;
      try apply consumeQuotedString_setsToken.
    destruct (IsDigit _);
      [apply consumeNumber_setsToken | apply consumeRune_setsToken; discriminate]. }
  simpl in Hset. destruct Hset as [Hk He]. split; [exact Hk | rewrite He; exact Herr1].
Qed.

(** X24: when [Scan] returns true it has set a token of a kind other than
    the invalid one, it has moved on in the input, which it never
    changes, and the lexer is not in the error state. *)
Theorem Scan_returns_true_with_a_token (lex lex' : Lexer.Lexer) :
  Lexer.Scan lex = Ok (true, lex') ->
  Token.Kind_ (Lexer.Token_ lex') <> Token.Invalid
  /\ Lexer.Err lex' = None
  /\ Lexer.input lex' = Lexer.input lex
  /\ (Lexer.pos lex < Lexer.pos lex')%nat.
Proof.
  intros E.
  destruct (Scan_true_sets_a_token lex lex' E) as [Hkind Herr].
  pose proof (Scan_spec lex) as Hs. rewrite E in Hs. destruct Hs as [Hin Hahead].
  unfold Progress.ahead in Hahead. rewrite Hin in Hahead.
  repeat split; try assumption. lia.
Qed.

End ScanSetsAToken.

Lemma Scan_returns_true_with_a_token_sample :
  let lex := Lexer.New [115; 101; 108; 101; 99; 116] in
  let lex' := match @Lexer.Scan RunLib.lib lex with
              | Ok (_, l) => l
              | Panic _ => lex
              end in
  @Lexer.Scan RunLib.lib lex = Ok (true, lex')
  /\ Token.Kind_ (Lexer.Token_ lex') <> Token.Invalid
  /\ Lexer.Err lex' = None
  /\ Lexer.input lex' = Lexer.input lex
  /\ (Lexer.pos lex < Lexer.pos lex')%nat.
Proof.
  intros lex lex'.
  assert (E : @Lexer.Scan RunLib.lib lex = Ok (true, lex')) by (vm_compute; reflexivity).
  split; [exact E|].
  exact (@Scan_returns_true_with_a_token RunLib.lib lex lex' E).
Defined.

(** ** The token loop *)

Section TokenLoop.
Context `{GoLib}.
Import Progress Notions.

Lemma lexAllLoop_returns (fuel : nat) :
  forall (lex : Lexer.Lexer) (tokens : list Token.Token),
    (Progress.ahead lex < fuel)%nat ->
    match LexerTest.lexAllLoop fuel lex tokens with
    | Some (Ok (all, _)) =>
        exists new,
          all = (tokens ++ new)%list
          /\ (length new <= Progress.ahead lex)%nat
          /\ Forall (fun t => Token.Kind_ t <> Token.Invalid) new
    | Some (Panic p) =>
        p = Progress.expectedANumber /\ Progress.strayDigit (Lexer.input lex)
    | None => False
    end.
Proof.
  induction fuel as [|fuel IH]; intros lex tokens Hfuel; [lia|].
  cbn [LexerTest.lexAllLoop].
  pose proof (Scan_spec lex) as Hscan.
  pose proof (Scan_true_sets_a_token lex) as Htok.
  destruct (Lexer.Scan lex) as [[[] lex']|p].
  - destruct Hscan as [Hin Hlt].
    specialize (Htok lex' eq_refl). destruct Htok as [Hkind _].
    specialize (IH lex' (tokens ++ [Lexer.Token_ lex'])%list ltac:(lia)).
    destruct (LexerTest.lexAllLoop fuel lex' _) as [[[all err]|q]|].
    + destruct IH as [new [-> [Hlen Hnew]]].
      exists (Lexer.Token_ lex' :: new). rewrite <- app_assoc.
      split; [reflexivity|]. split; [simpl; lia|].
      constructor; [exact Hkind | exact Hnew].
    + rewrite <- Hin. exact IH.
    + exact IH.
  - exists []. rewrite app_nil_r. split; [reflexivity|]. split; [simpl; lia | constructor].
  - exact Hscan.
Qed.

(** X25: the token loop [lexAll] ends: with more fuel than the input has
    runes it returns, with at most as many tokens as the input has runes,
    none of them of the invalid kind; or it panics with "expected a
    number" at a digit that is none of 0 to 9. *)
Theorem lexAll_ends_with_at_most_a_token_a_rune
    (fuel : nat) (input : list rune) :
  (length input < fuel)%nat ->
  match LexerTest.lexAll fuel input with
  | Some (Ok (tokens, _)) =>
      (length tokens <= length input)%nat
      /\ Forall (fun t => Token.Kind_ t <> Token.Invalid) tokens
  | Some (Panic p) =>
      p = Progress.expectedANumber /\ Progress.strayDigit input
  | None => False
  end.
Proof.
  intros Hfuel. unfold LexerTest.lexAll.
  pose proof (lexAllLoop_returns fuel (Lexer.New input) []) as Hloop.
  assert (Hahead : Progress.ahead (Lexer.New input) = length input)
    by (unfold Progress.ahead; simpl; lia).
  rewrite Hahead in Hloop. specialize (Hloop Hfuel).
  destruct (LexerTest.lexAllLoop fuel (Lexer.New input) []) as [[[all err]|p]|];
    [|exact Hloop ..].
  destruct Hloop as [new [-> [Hlen Hnew]]]. simpl. split; assumption.
Qed.

End TokenLoop.

(** The input a 'b: an identifier, then a string literal that never
    ends. *)
Lemma lexAll_ends_with_at_most_a_token_a_rune_sample :
  let input := [97; 32; 39; 98] in
  (length input < 9)%nat
  /\ match @LexerTest.lexAll RunLib.lib 9 input with
     | Some (Ok (tokens, _)) =>
         (length tokens <= length input)%nat
         /\ Forall (fun t => Token.Kind_ t <> Token.Invalid) tokens
     | Some (Panic p) =>
         p = Progress.expectedANumber /\ @Progress.strayDigit RunLib.lib input
     | None => False
     end.
Proof.
  intros input.
  assert (Hfuel : (length input < 9)%nat) by (simpl; lia).
  split; [exact Hfuel|].
  exact (@lexAll_ends_with_at_most_a_token_a_rune RunLib.lib 9 input Hfuel).
Defined.

(** ** The texts of the kinds of token *)

Section TextsOfTheKinds.
Context `{GoLib}.
Import Notions.

Hypothesis ascii : asciiAsUnicode.

Lemma asciiNoDigit_spec (r : rune) :
  asciiNoDigit r = true ->
  IsDigit r = false /\ RunLib.isDigit r = false
  /\ IsLetter r = RunLib.isLetter r /\ IsSpace r = RunLib.isSpace r
  /\ ToLower r = RunLib.toLower r.
Proof.
  unfold asciiNoDigit. intros Hr.
  apply andb_true_iff in Hr as [Hr Hd]. apply andb_true_iff in Hr as [H0 H128].
  apply Z.leb_le in H0. apply Z.ltb_lt in H128. apply negb_true_iff in Hd.
  destruct (ascii r ltac:(lia)) as [Ed [El [Es Et]]].
  rewrite Ed. repeat split; assumption.
Qed.

Lemma skipSpaceLoop_ascii (n : nat) :
  forall (rest : list rune) (pos : nat) (t : Lexer.lineTracker),
    (length rest <= n)%nat ->
    forallb asciiNoDigit rest = true ->
    Lexer.skipSpaceLoop rest pos t = @Lexer.skipSpaceLoop RunLib.lib rest pos t.
Proof.
  induction n as [|n IH]; intros rest pos t Hn Hrest.
  - destruct rest; [reflexivity | simpl in Hn; lia].
  - destruct rest as [|r rest']; [reflexivity|].
    simpl in Hn. cbn [forallb] in Hrest. apply andb_true_iff in Hrest as [Hr Hrest'].
    destruct (asciiNoDigit_spec r Hr) as [_ [_ [_ [Es _]]]].
    cbn [Lexer.skipSpaceLoop]. rewrite Es.
    change (@IsSpace RunLib.lib r) with (RunLib.isSpace r).
    destruct (negb (RunLib.isSpace r)); [reflexivity|].
    destruct (r =? 10); [apply IH; [lia | exact Hrest']|].
    destruct (r =? 13); [|apply IH; [lia | exact Hrest']].
    destruct rest' as [|r1 rest'']; [apply IH; [lia | exact Hrest']|].
    destruct (r1 =? 10); [|apply IH; [lia | exact Hrest']].
    cbn [forallb] in Hrest'. apply andb_true_iff in Hrest' as [_ Hrest''].
    apply IH; [simpl in Hn; lia | exact Hrest''].
Qed.

Lemma identLength_ascii (rest : list rune) :
  forallb asciiNoDigit rest = true ->
  Lexer.identLength rest = @Lexer.identLength RunLib.lib rest.
Proof.
  induction rest as [|r rest IH]; intros Hrest; [reflexivity|].
  cbn [forallb] in Hrest. apply andb_true_iff in Hrest as [Hr Hrest].
  destruct (asciiNoDigit_spec r Hr) as [Ed [Ed' [El _]]].
  cbn [Lexer.identLength]. unfold Lexer.isIdentRune. rewrite Ed, El.
  change (@IsLetter RunLib.lib r) with (RunLib.isLetter r).
  change (@IsDigit RunLib.lib r) with (RunLib.isDigit r). rewrite Ed'.
  rewrite (IH Hrest). reflexivity.
Qed.

Lemma map_ToLower_ascii (runes : list rune) :
  forallb asciiNoDigit runes = true ->
  map ToLower runes = map (@ToLower RunLib.lib) runes.
Proof.
  induction runes as [|r runes IH]; intros Hr; [reflexivity|].
  cbn [forallb] in Hr. apply andb_true_iff in Hr as [Hr Hrunes].
  destruct (asciiNoDigit_spec r Hr) as [_ [_ [_ [_ Et]]]].
  simpl. rewrite Et, (IH Hrunes). reflexivity.
Qed.

Lemma forallb_drop {A} (f : A -> bool) (l : list A) (n : nat) :
  forallb f l = true -> forallb f (drop n l) = true.
Proof.
  revert n. induction l as [|a l IH]; intros n Hl; [destruct n; reflexivity|].
  destruct n as [|n]; [exact Hl|].
  cbn [forallb] in Hl. apply andb_true_iff in Hl as [_ Hl]. simpl. apply IH. exact Hl.
Qed.

Lemma forallb_take {A} (f : A -> bool) (l : list A) (n : nat) :
  forallb f l = true -> forallb f (take n l) = true.
Proof.
  revert n. induction l as [|a l IH]; intros n Hl; [destruct n; reflexivity|].
  destruct n as [|n]; [reflexivity|].
  cbn [forallb] in Hl. apply andb_true_iff in Hl as [Ha Hl]. simpl.
  rewrite Ha. apply IH. exact Hl.
Qed.

Lemma scanDefault_ascii (lex : Lexer.Lexer) (r : rune) :
  forallb asciiNoDigit (Lexer.input lex) = true ->
  asciiNoDigit r = true ->
  Lexer.scanDefault lex r = @Lexer.scanDefault RunLib.lib lex r.
Proof.
  intros Hinput Hr.
  destruct (asciiNoDigit_spec r Hr) as [Ed [Ed' _]].
  unfold Lexer.scanDefault. rewrite Ed.
  change (@IsDigit RunLib.lib r) with (RunLib.isDigit r). rewrite Ed'.
  assert (Hword : Lexer.nextWord lex = @Lexer.nextWord RunLib.lib lex).
  { unfold Lexer.nextWord.
    pose proof (forallb_drop asciiNoDigit _ (Lexer.pos lex) Hinput) as Hdrop.
    destruct (drop (Lexer.pos lex) (Lexer.input lex)) as [|first rest]; [reflexivity|].
    cbn [forallb] in Hdrop. apply andb_true_iff in Hdrop as [Hfirst Hrest].
    destruct (asciiNoDigit_spec first Hfirst) as [_ [_ [El _]]].
    rewrite El, (identLength_ascii rest Hrest). reflexivity. }
  rewrite Hword.
  destruct (@Lexer.nextWord RunLib.lib lex) as [runes|p] eqn:Hruns; [|reflexivity].
  cbn [mbind Result_bind].
  assert (Hlower : Lexer.strings_ToLower runes = @Lexer.strings_ToLower RunLib.lib runes).
  { unfold Lexer.strings_ToLower. f_equal. apply map_ToLower_ascii.
    unfold Lexer.nextWord in Hruns.
    pose proof (forallb_drop asciiNoDigit _ (Lexer.pos lex) Hinput) as Hdrop.
    destruct (drop (Lexer.pos lex) (Lexer.input lex)) as [|first rest]; [discriminate Hruns|].
    cbn [forallb] in Hdrop. apply andb_true_iff in Hdrop as [Hfirst Hrest].
    destruct (negb _ && negb _); inversion Hruns; [reflexivity|].
    cbn [forallb]. rewrite Hfirst. apply forallb_take. exact Hrest. }
  rewrite Hlower. reflexivity.
Qed.

(** On an input of ASCII code points without a digit, [Scan] does what it
    does with the library of the examples. *)
Lemma Scan_ascii (lex : Lexer.Lexer) :
  forallb asciiNoDigit (Lexer.input lex) = true ->
  Lexer.Scan lex = @Lexer.Scan RunLib.lib lex.
Proof.
  intros Hinput. unfold Lexer.Scan.
  destruct (Lexer.err lex); [reflexivity|].
  set (lex0 := Lexer.withTok lex _).
  assert (Hskip : Lexer.skipSpace lex0 = @Lexer.skipSpace RunLib.lib lex0).
  { unfold Lexer.skipSpace.
    rewrite (skipSpaceLoop_ascii _ _ _ _ (Nat.le_refl _)
               (forallb_drop asciiNoDigit _ _ Hinput)).
    reflexivity. }
  rewrite Hskip.
  destruct (@Lexer.skipSpace RunLib.lib lex0) as [more lex1] eqn:Hlex1.
  assert (Hinput1 : Lexer.input lex1 = Lexer.input lex).
  { unfold Lexer.skipSpace in Hlex1.
    destruct (@Lexer.skipSpaceLoop RunLib.lib _ _ _) as [[[] pos'] t'];
      inversion Hlex1; reflexivity. }
  destruct (negb more); [reflexivity|].
  pose proof (forallb_drop asciiNoDigit _ (Lexer.pos lex1) Hinput) as Hdrop.
  rewrite <- Hinput1 in Hdrop.
  assert (Hnext : IsDigit (Lexer.nextRune lex1) = @IsDigit RunLib.lib (Lexer.nextRune lex1)).
  { unfold Lexer.nextRune.
    pose proof (forallb_drop asciiNoDigit _ (S (Lexer.pos lex1)) Hinput) as Hdrop1.
    rewrite <- Hinput1 in Hdrop1.
    destruct (drop (S (Lexer.pos lex1)) (Lexer.input lex1)) as [|r1 rest1].
    - exact (proj1 (ascii 0 ltac:(lia))).
    - cbn [forallb] in Hdrop1. apply andb_true_iff in Hdrop1 as [Hr1 _].
      destruct (asciiNoDigit_spec r1 Hr1) as [Ed [Ed' _]]. rewrite Ed. symmetry. exact Ed'. }
  assert (Hnodigit : @IsDigit RunLib.lib (Lexer.nextRune lex1) = false).
  { unfold Lexer.nextRune.
    pose proof (forallb_drop asciiNoDigit _ (S (Lexer.pos lex1)) Hinput) as Hdrop1.
    rewrite <- Hinput1 in Hdrop1.
    destruct (drop (S (Lexer.pos lex1)) (Lexer.input lex1)) as [|r1 rest1]; [reflexivity|].
    cbn [forallb] in Hdrop1. apply andb_true_iff in Hdrop1 as [Hr1 _].
    exact (proj1 (proj2 (asciiNoDigit_spec r1 Hr1))). }
  destruct (drop (Lexer.pos lex1) (Lexer.input lex1)) as [|r rest]; [reflexivity|].
  cbn [forallb] in Hdrop. apply andb_true_iff in Hdrop as [Hr _].
  rewrite Hnext, Hnodigit.
  rewrite (scanDefault_ascii lex1 r ltac:(rewrite Hinput1; exact Hinput) Hr).
  reflexivity.
Qed.

(** X26: the text of a kind of token is scanned back as a token of that
    kind: for every kind that stands for one fixed text (a keyword or a
    sign), [Scan] on the text [Kind.String()] returns true with a
    token of the kind, having read the whole text, when the library
    classifies the ASCII code points as Unicode does. *)
Theorem text_of_a_kind_is_scanned_as_the_kind (k : Token.Kind) :
  hasFixedText k = true ->
  exists lex',
    Lexer.Scan (Lexer.New (Sample.runes (Kind_String k))) = Ok (true, lex')
    /\ Token.Kind_ (Lexer.Token_ lex') = k
    /\ Lexer.pos lex' = length (Sample.runes (Kind_String k))
    /\ Lexer.Err lex' = None.
Proof.
  intros Hk.
  rewrite Scan_ascii by (destruct k; reflexivity).
  destruct k; try discriminate Hk;
    (eexists; split; [vm_compute; reflexivity | repeat split]).
Qed.

End TextsOfTheKinds.

Lemma text_of_a_kind_is_scanned_as_the_kind_sample :
  (@Notions.asciiAsUnicode RunLib.lib /\ Notions.hasFixedText Token.GreaterThanOrEqualTo = true)
  /\ exists lex',
       @Lexer.Scan RunLib.lib (Lexer.New (Sample.runes (Kind_String Token.GreaterThanOrEqualTo)))
       = Ok (true, lex')
       /\ Token.Kind_ (Lexer.Token_ lex') = Token.GreaterThanOrEqualTo
       /\ Lexer.pos lex' = length (Sample.runes (Kind_String Token.GreaterThanOrEqualTo))
       /\ Lexer.Err lex' = None.
Proof.
  assert (Hascii : @Notions.asciiAsUnicode RunLib.lib).
  { intros r _. repeat split. }
  split; [split; [exact Hascii | reflexivity]|].
  exact (@text_of_a_kind_is_scanned_as_the_kind RunLib.lib Hascii
           Token.GreaterThanOrEqualTo eq_refl).
Defined.

(** ** What the parser returns *)

Section ParsedExpressions.
Context `{GoLib}.
Import Notions.

Lemma bind_Ok {A B} (m : Parser.Action A) (k : A -> Parser.Action B)
    (lex : Lexer.Lexer) (r : B * Lexer.Lexer) :
  (m ≫= k) lex = Some (Ok r) ->
  exists a lex1, m lex = Some (Ok (a, lex1)) /\ k a lex1 = Some (Ok r).
Proof.
  unfold mbind, Parser.Action_bind, Parser.bind.
  destruct (m lex) as [[[a lex1]|p]|]; try discriminate.
  intros E. exists a, lex1. split; [reflexivity | exact E].
Qed.

Lemma kind_Ok (lex lex1 : Lexer.Lexer) (k : Token.Kind) :
  Parser.kind lex = Some (Ok (k, lex1)) ->
  k = Token.Kind_ (Lexer.tok lex) /\ lex1 = lex.
Proof. unfold Parser.kind. intros E. inversion E. split; reflexivity. Qed.

Lemma ret_Ok {A} (a b : A) (lex lex1 : Lexer.Lexer) :
  Parser.ret a lex = Some (Ok (b, lex1)) -> b = a /\ lex1 = lex.
Proof. unfold Parser.ret. intros E. inversion E. split; reflexivity. Qed.

Lemma next_Ok (lex lex1 : Lexer.Lexer) (t : Token.Token) :
  Parser.next lex = Some (Ok (t, lex1)) -> t = Lexer.tok lex.
Proof.
  unfold Parser.next. destruct (Lexer.Scan lex) as [[b l]|p]; [|discriminate].
  destruct (Lexer.Err l); [discriminate|]. intros E. inversion E. reflexivity.
Qed.

Lemma expected_Ok {A} (kinds : list Token.Kind) (lex : Lexer.Lexer)
    (r : A * Lexer.Lexer) :
  @Parser.expected A kinds lex = Some (Ok r) -> False.
Proof. unfold Parser.expected, Parser.kind, Parser.errorf. cbn. discriminate. Qed.

Lemma skip_Ok (k : Token.Kind) (lex lex1 : Lexer.Lexer) (u : unit) :
  Parser.skip k lex = Some (Ok (u, lex1)) -> Token.Kind_ (Lexer.tok lex) = k.
Proof.
  unfold Parser.skip. intros E.
  apply bind_Ok in E as (k' & l & Hk & E). apply kind_Ok in Hk as [-> ->].
  destruct (decide _) as [Ek|]; [exact Ek | discriminate E].
Qed.

Lemma match_Ok (k : Token.Kind) (lex lex1 : Lexer.Lexer) (t : Token.Token) :
  Parser.match_ k lex = Some (Ok (t, lex1)) ->
  t = Lexer.tok lex /\ Token.Kind_ t = k.
Proof.
  unfold Parser.match_. intros E.
  apply bind_Ok in E as (k' & l & Hk & E). apply kind_Ok in Hk as [-> ->].
  destruct (decide _) as [Ek|]; [|exfalso; exact (expected_Ok _ _ _ E)].
  apply next_Ok in E. subst t. split; [reflexivity | exact Ek].
Qed.

Lemma parseNumberLiteral_valid (lex lex1 : Lexer.Lexer) (e : Ast.Expr) :
  Parser.parseNumberLiteral lex = Some (Ok (e, lex1)) -> operatorsValid e = true.
Proof.
  unfold Parser.parseNumberLiteral. intros E.
  apply bind_Ok in E as (t & l & _ & E).
  destruct (Parser.allDigits _); apply ret_Ok in E as [-> _]; reflexivity.
Qed.

Lemma forallb_operatorsValid (args : list Ast.Expr) :
  (fix all (l : list Ast.Expr) : bool :=
     match l with
     | [] => true
     | a :: l' => operatorsValid a && all l'
     end) args
  = forallb operatorsValid args.
Proof. induction args as [|a l IH]; simpl; [reflexivity | rewrite IH; reflexivity]. Qed.

(** What the expression parsers return: an expression whose operators
    are all valid, and, from [parseBinaryExpr], the lexer at a token that
    binds less than the precedence asked for. *)
Lemma expression_parsers_yield (fuel : nat) :
  (forall minPrec lex e lex', 1 <= minPrec ->
     Parser.parseBinaryExpr fuel minPrec lex = Some (Ok (e, lex')) ->
     operatorsValid e = true
     /\ Token.Precedence (Token.Kind_ (Lexer.tok lex')) < minPrec)
  /\ (forall minPrec expr lex e lex', 1 <= minPrec ->
        operatorsValid expr = true ->
        Parser.binaryExprLoop fuel minPrec expr lex = Some (Ok (e, lex')) ->
        operatorsValid e = true
        /\ Token.Precedence (Token.Kind_ (Lexer.tok lex')) < minPrec)
  /\ (forall lex e lex',
        Parser.parseUnaryExpr fuel lex = Some (Ok (e, lex')) ->
        operatorsValid e = true)
  /\ (forall lex es lex',
        Parser.parseSelectExprList fuel lex = Some (Ok (es, lex')) ->
        forallb operatorsValid es = true)
  /\ (forall exprs lex es lex',
        forallb operatorsValid exprs = true ->
        Parser.selectExprListLoop fuel exprs lex = Some (Ok (es, lex')) ->
        forallb operatorsValid es = true)
  /\ (forall lex e lex',
        Parser.parseExprOrStar fuel lex = Some (Ok (e, lex')) ->
        operatorsValid e = true).
Proof.
  induction fuel as [|fuel IH].
  { repeat split; intros; discriminate. }
  destruct IH as [IHbin [IHloop [IHun [IHlist [IHlistloop IHstar]]]]].
  split; [|split; [|split; [|split; [|split]]]].
  - (* parseBinaryExpr *)
    intros minPrec lex e lex' Hmin E. cbn [Parser.parseBinaryExpr] in E.
    apply bind_Ok in E as (expr & lex1 & Hun & Hloop).
    exact (IHloop minPrec expr lex1 e lex' Hmin (IHun _ _ _ Hun) Hloop).
  - (* binaryExprLoop *)
    intros minPrec expr lex e lex' Hmin Hexpr E.
    cbn [Parser.binaryExprLoop] in E.
    apply bind_Ok in E as (op & l & Hk & E). apply kind_Ok in Hk as [-> ->].
    cbv zeta in E.
    destruct (Token.Precedence _ <? minPrec) eqn:Hprec.
    + apply ret_Ok in E as [? ?]; subst.
      split; [exact Hexpr | apply Z.ltb_lt; exact Hprec].
    + apply Z.ltb_ge in Hprec.
      apply bind_Ok in E as (u & lex1 & _ & E).
      apply bind_Ok in E as (rhs & lex2 & Hrhs & E).
      apply (IHloop minPrec (Ast.BinaryExpr expr (Token.Kind_ (Lexer.tok lex)) rhs)
               lex2 e lex' Hmin); [|exact E].
      assert (Hvalid : operatorsValid rhs = true).
      { refine (proj1 (IHbin _ _ _ _ _ Hrhs)). lia. }
      simpl. rewrite Hexpr, Hvalid.
      replace (0 <? Token.Precedence (Token.Kind_ (Lexer.tok lex))) with true
        by (symmetry; apply Z.ltb_lt; lia).
      reflexivity.
  - (* parseUnaryExpr *)
    intros lex e lex' E. cbn [Parser.parseUnaryExpr] in E.
    apply bind_Ok in E as (k & l & Hk & E). apply kind_Ok in Hk as [-> ->].
    destruct (Token.Kind_ (Lexer.tok lex)) eqn:Hkind;
      try (exfalso; exact (expected_Ok _ _ _ E));
      try (apply bind_Ok in E as (t & lex1 & Ht & E);
           apply ret_Ok in E as [-> _]; reflexivity).
    + (* identifier, or a call *)
      apply bind_Ok in E as (t & lex1 & Ht & E).
      apply bind_Ok in E as (k' & l & Hk & E). apply kind_Ok in Hk as [-> ->].
      destruct (Token.Kind_ (Lexer.tok lex1));
        try (apply ret_Ok in E as [-> _]; reflexivity).
      apply bind_Ok in E as (u & lex2 & _ & E).
      apply bind_Ok in E as (args & lex3 & Hargs & E).
      apply bind_Ok in E as (t' & lex4 & _ & E).
      apply ret_Ok in E as [-> _].
      simpl. rewrite forallb_operatorsValid. exact (IHlist _ _ _ Hargs).
    + (* parenthesis *)
      apply bind_Ok in E as (u & lex1 & _ & E).
      apply bind_Ok in E as (e1 & lex2 & He & E).
      apply bind_Ok in E as (t & lex3 & _ & E).
      apply ret_Ok in E as [-> _].
      exact (proj1 (IHbin 1 _ _ _ (Z.le_refl 1) He)).
    + (* minus *)
      apply bind_Ok in E as (t & lex1 & Ht & E).
      apply bind_Ok in E as (e1 & lex2 & He & E).
      apply ret_Ok in E as [-> _].
      apply next_Ok in Ht. subst t. simpl. rewrite Hkind.
      exact (proj1 (IHbin 1 _ _ _ (Z.le_refl 1) He)).
    + (* a number *)
      exact (parseNumberLiteral_valid _ _ _ E).
    + (* plus *)
      apply bind_Ok in E as (t & lex1 & Ht & E).
      apply bind_Ok in E as (e1 & lex2 & He & E).
      apply ret_Ok in E as [-> _].
      apply next_Ok in Ht. subst t. simpl. rewrite Hkind.
      exact (proj1 (IHbin 1 _ _ _ (Z.le_refl 1) He)).
  - (* parseSelectExprList *)
    intros lex es lex' E. cbn [Parser.parseSelectExprList] in E.
    apply bind_Ok in E as (e1 & lex1 & He & E).
    apply (IHlistloop [e1] lex1 es lex'); [|exact E].
    simpl. rewrite (IHstar _ _ _ He). reflexivity.
  - (* selectExprListLoop *)
    intros exprs lex es lex' Hexprs E. cbn [Parser.selectExprListLoop] in E.
    apply bind_Ok in E as (k & l & Hk & E). apply kind_Ok in Hk as [-> ->].
    destruct (Token.Kind_ (Lexer.tok lex));
      try (apply ret_Ok in E as [-> _]; exact Hexprs).
    apply bind_Ok in E as (u & lex1 & _ & E).
    apply bind_Ok in E as (e1 & lex2 & He & E).
    apply (IHlistloop (exprs ++ [e1])%list lex2 es lex'); [|exact E].
    rewrite forallb_app, Hexprs. simpl. rewrite (IHstar _ _ _ He). reflexivity.
  - (* parseExprOrStar *)
    intros lex e lex' E. cbn [Parser.parseExprOrStar] in E.
    apply bind_Ok in E as (k & l & Hk & E). apply kind_Ok in Hk as [-> ->].
    destruct (Token.Kind_ (Lexer.tok lex));
      try exact (proj1 (IHbin 1 _ _ _ (Z.le_refl 1) E)).
    apply bind_Ok in E as (u & lex1 & _ & E).
    apply ret_Ok in E as [-> _]. reflexivity.
Qed.

(** X27: [parseBinaryExpr] reads on as long as the token at hand is an
    operator that binds at least as tightly as asked for: the token it
    leaves binds less.  After [parseExpr] the token at hand is no binary
    operator. *)
Theorem parseBinaryExpr_stops_at_a_weaker_token
    (fuel : nat) (minPrec : Z) (lex lex' : Lexer.Lexer) (e : Ast.Expr) :
  1 <= minPrec ->
  Parser.parseBinaryExpr fuel minPrec lex = Some (Ok (e, lex')) ->
  Token.Precedence (Token.Kind_ (Lexer.Token_ lex')) < minPrec.
Proof.
  intros Hmin E.
  exact (proj2 (proj1 (expression_parsers_yield fuel) minPrec lex e lex' Hmin E)).
Qed.

(** An expression whose operators are valid is never refused for its
    operators. *)
Lemma evalExpr_operatorsValid (funcs : list Evaluator.aggFunc) (ns : Evaluator.namespace)
    (e : Ast.Expr) :
  operatorsValid e = true ->
  forall p, Evaluator.evalExpr funcs ns e = Panic p -> operatorError p = false.
Proof.
  induction e as [id|l IHl op r IHr|pos op e IHe| | | | | | |name args|ix pos];
    intros Hvalid p Hp; cbn [Evaluator.evalExpr] in Hp;
    try discriminate Hp.
  - (* identifier *)
    unfold Evaluator.lookup in Hp.
    repeat first
      [ discriminate Hp
      | injection Hp as <-; reflexivity
      | match type of Hp with
        | context [match ?x with _ => _ end] => destruct x
        end ].
  - (* binary expression *)
    cbn [operatorsValid] in Hvalid.
    apply andb_true_iff in Hvalid as [Hvalid Hr].
    apply andb_true_iff in Hvalid as [Hop Hl].
    destruct (Evaluator.evalExpr funcs ns l) as [lhs|q] eqn:El.
    2:{ injection Hp as <-. exact (IHl Hl q eq_refl). }
    destruct (Evaluator.evalExpr funcs ns r) as [rhs|q] eqn:Er.
    2:{ injection Hp as <-. exact (IHr Hr q eq_refl). }
    cbn [mbind Result_bind] in Hp.
    destruct op; try discriminate Hop; clear Hop;
      destruct lhs, rhs;
      cbn in Hp;
      repeat first
        [ discriminate Hp
        | injection Hp as <-; reflexivity
        | match type of Hp with
          | context [match ?x with _ => _ end] => destruct x
          end
        | progress cbn in Hp ].
  - (* unary expression *)
    cbn [operatorsValid] in Hvalid.
    destruct (Evaluator.evalExpr funcs ns e) as [v|q] eqn:Ee.
    2:{ destruct op; try discriminate Hvalid; injection Hp as <-;
        exact (IHe Hvalid q eq_refl). }
    cbn [mbind Result_bind] in Hp.
    destruct op; try discriminate Hvalid; destruct v; cbn in Hp;
      repeat first
        [ discriminate Hp
        | injection Hp as <-; reflexivity ].
  - (* function call *)
    injection Hp as <-. reflexivity.
  - (* select star *)
    injection Hp as <-. reflexivity.
  - (* accumulator *)
    destruct (funcs !! ix); [discriminate Hp | injection Hp as <-; reflexivity].
Qed.

(** X28: an expression the parser returns is never refused by the
    evaluator for an operator: "invalid binary operator", "invalid unary
    operator", "invalid comparison operator" and "invalid logical boolean
    op" cannot come from parsed input. *)
Theorem parsed_expression_has_valid_operators
    (fuel : nat) (lex lex' : Lexer.Lexer) (e : Ast.Expr)
    (funcs : list Evaluator.aggFunc) (ns : Evaluator.namespace) (p : panicValue) :
  Parser.parseExpr fuel lex = Some (Ok (e, lex')) ->
  Evaluator.evalExpr funcs ns e = Panic p ->
  operatorError p = false.
Proof.
  intros Hparse Heval.
  apply (evalExpr_operatorsValid funcs ns e); [|exact Heval].
  exact (proj1 (proj1 (expression_parsers_yield fuel) 1 lex e lex' (Z.le_refl 1) Hparse)).
Qed.

End ParsedExpressions.

(** The expression 1 + 2 followed by a semicolon, and the expression
    1 / 0. *)
Lemma parseBinaryExpr_stops_at_a_weaker_token_sample :
  let lex := match @Lexer.Scan RunLib.lib (Lexer.New (Sample.runes "1 + 2;")) with
             | Ok (_, l) => l
             | Panic _ => Lexer.New []
             end in
  let lex' := match @Parser.parseBinaryExpr RunLib.lib 20 1 lex with
              | Some (Ok (_, l)) => l
              | _ => lex
              end in
  let e := Ast.BinaryExpr (Ast.IntegerLiteral (Sample.at_ 1 0) 1) Token.Plus
             (Ast.IntegerLiteral (Sample.at_ 1 4) 2) in
  @Parser.parseBinaryExpr RunLib.lib 20 1 lex = Some (Ok (e, lex'))
  /\ Token.Kind_ (Lexer.Token_ lex') = Token.Semicolon
  /\ Token.Precedence (Token.Kind_ (Lexer.Token_ lex')) < 1.
Proof.
  intros lex lex' e.
  assert (E : @Parser.parseBinaryExpr RunLib.lib 20 1 lex = Some (Ok (e, lex')))
    by (vm_compute; reflexivity).
  split; [exact E|]. split; [vm_compute; reflexivity|].
  exact (@parseBinaryExpr_stops_at_a_weaker_token RunLib.lib 20 1 lex lex' e
           (Z.le_refl 1) E).
Defined.

Lemma parsed_expression_has_valid_operators_sample :
  let lex := match @Lexer.Scan RunLib.lib (Lexer.New (Sample.runes "1 / 0")) with
             | Ok (_, l) => l
             | Panic _ => Lexer.New []
             end in
  let lex' := match @Parser.parseExpr RunLib.lib 20 lex with
              | Some (Ok (_, l)) => l
              | _ => lex
              end in
  let e := Ast.BinaryExpr (Ast.IntegerLiteral (Sample.at_ 1 0) 1) Token.Div
             (Ast.IntegerLiteral (Sample.at_ 1 4) 0) in
  let p := PanicError (EvalError "divide by zero" [] (Sample.at_ 1 0)) in
  (@Parser.parseExpr RunLib.lib 20 lex = Some (Ok (e, lex'))
   /\ @Evaluator.evalExpr RunLib.lib [] Evaluator.emptyNamespace e = Panic p)
  /\ Notions.operatorError p = false.
Proof.
  intros lex lex' e p.
  assert (E : @Parser.parseExpr RunLib.lib 20 lex = Some (Ok (e, lex')))
    by (vm_compute; reflexivity).
  split; [split; [exact E | reflexivity]|].
  exact (@parsed_expression_has_valid_operators RunLib.lib 20 lex lex' e []
           Evaluator.emptyNamespace p E eq_refl).
Defined.

(** ** [Parse] and the statement list *)

Section ParseResults.
Context `{GoLib}.
Import Notions.

(** X29: a lexical error in the very first token is not reported: on an
    input that starts with a string literal that never ends, [Scan]
    returns false with the lexer in the error state, and [Parse] returns
    no statement and no error. *)
Theorem Parse_drops_an_error_in_the_first_token
    (lex : Lexer.Lexer) (s : list rune) (fuel : nat) :
  Lexer.err lex = None ->
  IsSpace Lexer.singleQuote = false ->
  drop (Lexer.pos lex) (Lexer.input lex) = Lexer.singleQuote :: escapeQuotes s ->
  Parser.Parse fuel lex = Some (Ok ([], None))
  /\ exists lex' e, Lexer.Scan lex = Ok (false, lex') /\ Lexer.Err lex' = Some e.
Proof.
  intros Herr Hspace Hinput.
  pose proof (Scan_at_a_quote lex _ Herr Hspace Hinput) as E.
  rewrite quotedStringLoop_unterminated in E.
  split.
  - unfold Parser.Parse, Parser.parseBody. rewrite E. reflexivity.
  - eexists. eexists. split; [exact E | reflexivity].
Qed.

(** X30: every statement has to be followed by a semicolon, the last one
    too: when the statement list reads a statement and the token after it
    is no semicolon, it panics with a parse error at that token. *)
Theorem statement_without_a_semicolon_is_refused
    (fuel : nat) (stmts : list Ast.Node) (lex lex1 : Lexer.Lexer) (stmt : Ast.Node) :
  Token.Kind_ (Lexer.Token_ lex) <> Token.Invalid ->
  Parser.parseStmt fuel lex = Some (Ok (stmt, lex1)) ->
  Token.Kind_ (Lexer.Token_ lex1) <> Token.Semicolon ->
  Parser.stmtListLoop (S fuel) stmts lex
  = Some (Panic (PanicError
            (ParserError "current token is %q, want one of %+v"
               [AKind (Token.Kind_ (Lexer.Token_ lex1)); AKinds [Token.Semicolon]]
               (Token.Pos_ (Lexer.Token_ lex1))))).
Proof.
  intros Hvalid Hstmt Hsemi.
  cbn [Parser.stmtListLoop].
  unfold mbind at 1, Parser.Action_bind, Parser.bind, Parser.kind. cbn beta iota.
  unfold Lexer.Token_ in *.
  destruct (Token.Kind_ (Lexer.tok lex)) eqn:Hkind; try contradiction;
    unfold mbind at 1, Parser.Action_bind, Parser.bind; rewrite Hstmt;
    unfold mbind at 1, Parser.Action_bind, Parser.bind, Parser.match_;
    unfold mbind at 1, Parser.Action_bind, Parser.bind, Parser.kind; cbn beta iota;
    unfold Lexer.Token_;
    (destruct (decide (Token.Kind_ (Lexer.tok lex1) = Token.Semicolon));
     [contradiction | reflexivity]).
Qed.

End ParseResults.

(** The input 'abc, with no closing quote. *)
Lemma Parse_drops_an_error_in_the_first_token_sample :
  let s := [97; 98; 99] in
  let lex := Lexer.New (Lexer.singleQuote :: Notions.escapeQuotes s) in
  (Lexer.err lex = None
   /\ @IsSpace RunLib.lib Lexer.singleQuote = false
   /\ drop (Lexer.pos lex) (Lexer.input lex) = Lexer.singleQuote :: Notions.escapeQuotes s)
  /\ @Parser.Parse RunLib.lib 10 lex = Some (Ok ([], None))
  /\ exists lex' e, @Lexer.Scan RunLib.lib lex = Ok (false, lex') /\ Lexer.Err lex' = Some e.
Proof.
  intros s lex. split; [repeat split|].
  exact (@Parse_drops_an_error_in_the_first_token RunLib.lib lex s 10 eq_refl eq_refl eq_refl).
Defined.

(** DELETE FROM t, with no semicolon. *)
Lemma statement_without_a_semicolon_is_refused_sample :
  let lex := match @Lexer.Scan RunLib.lib (Lexer.New (Sample.runes "delete from t")) with
             | Ok (_, l) => l
             | Panic _ => Lexer.New []
             end in
  let lex1 := match @Parser.parseStmt RunLib.lib 20 lex with
              | Some (Ok (_, l)) => l
              | _ => lex
              end in
  let stmt := Ast.DeleteStmt (Sample.at_ 1 0)
                {| Ast.NamePos := Sample.at_ 1 12; Ast.Name := "t" |} None in
  (Token.Kind_ (Lexer.Token_ lex) <> Token.Invalid
   /\ @Parser.parseStmt RunLib.lib 20 lex = Some (Ok (stmt, lex1))
   /\ Token.Kind_ (Lexer.Token_ lex1) <> Token.Semicolon)
  /\ @Parser.stmtListLoop RunLib.lib 21 [] lex
     = Some (Panic (PanicError
               (ParserError "current token is %q, want one of %+v"
                  [AKind (Token.Kind_ (Lexer.Token_ lex1)); AKinds [Token.Semicolon]]
                  (Token.Pos_ (Lexer.Token_ lex1))))).
Proof.
  intros lex lex1 stmt.
  assert (Hvalid : Token.Kind_ (Lexer.Token_ lex) <> Token.Invalid)
    by (vm_compute; discriminate).
  assert (E : @Parser.parseStmt RunLib.lib 20 lex = Some (Ok (stmt, lex1)))
    by (vm_compute; reflexivity).
  assert (Hsemi : Token.Kind_ (Lexer.Token_ lex1) <> Token.Semicolon)
    by (vm_compute; discriminate).
  split; [split; [exact Hvalid | split; [exact E | exact Hsemi]]|].
  exact (@statement_without_a_semicolon_is_refused RunLib.lib 20 [] lex lex1 stmt
           Hvalid E Hsemi).
Defined.
